(** * POV holographic fan display: a shallow embedding of [pov_display.py]

    The development follows the layout of the Python module: configuration
    constants ([config.py]), the module-level globals gathered in one record,
    the utility functions, content loading and arrangement, shape generation,
    mode switching, button polling, Hall sensor handling and the per-line
    display routine.

    Numeric conventions.
    - Python [int] is [Z].
    - Python [float] is modelled by exact rationals [Q]: the rounding of
      IEEE-754 doubles is not modelled.  Equalities between computed floats
      are therefore stated with [==] ([Qeq]).  Where a result depends on
      which side of a bound a computed float falls (the outlier threshold,
      the whole microseconds of the rotation time, a bound on a mean, the
      floor of a scaled channel), the statement keeps a margin from the
      bound or restricts the inputs to those on which doubles and exact
      arithmetic agree, and the cases in between are evaluated on binary64
      floats ([f64_...]).
    - [int(x)] on a float truncates toward zero: [py_int].
    - [a / b] raises [ZeroDivisionError] when [b] is zero: [py_truediv]
      returns [None] in that case, and the functions that divide by a
      run-time value live in the [option] monad.
    - [a // b] and [a % b] with a positive divisor are [Z.div] and
      [Z.modulo] (both floor, like Python). *)

From Stdlib Require Import ZArith QArith Qabs Qround Qminmax Lia Lqa Bool String.
From Stdlib Require Floats Uint63.
From stdpp Require Import base option list.
From coqutil Require Import Datatypes.RecordSetters.
Import TriangleBracketNotations.

Local Open Scope Z_scope.


(** ** Configuration ([config.py]) *)

Definition NUM_LEDS : Z := 72.
Definition LED_IS_GRB : bool := true.
Definition NUM_DIVISIONS : Z := 40.
Definition BRIGHTNESS_RATIO : Q := 3 # 10.
Definition LINES_TO_SHIFT : Z := -15.
Definition DEFAULT_RPM : Z := 500.
Definition MIN_RPM : Z := 200.
Definition MAX_RPM : Z := 1500.
Definition LED_UPDATE_TIME_US : Z := 2800.
Definition TIMING_MARGIN_US : Z := 300.
Definition HALL_DEBOUNCE_US : Z := 5000.
Definition MAX_RPM_CHANGE_PERCENT : Z := 40.
Definition RPM_HISTORY_SIZE : Z := 15.
Definition STATIC_IMAGES_PATH : string := "colors/douple_resolution/".
Definition GIF_COLORS_PATH : string := "gif_colors/".
Definition ROT_PER_FRAME : Z := 4.
Definition BUTTON_DEBOUNCE_TIME : Q := 3 # 10.

(** ** Python arithmetic *)

(** [int(x)]: truncation toward zero. *)
Definition py_int (x : Q) : Z := Z.quot (Qnum x) (Zpos (Qden x)).

(** [a / b] on numbers: true division, [ZeroDivisionError] on a zero
    divisor. *)
Definition py_truediv (a b : Q) : option Q :=
  if Qeq_bool b 0 then None else Some (a / b)%Q.

(** [a < b] on floats. *)
Definition Qltb (a b : Q) : bool := (Qnum a * QDen b <? Qnum b * QDen a)%Z.

(** [sum(l)]: left-to-right accumulation from [0]. *)
Definition py_sum (l : list Q) : Q := fold_left Qplus l 0%Q.

(** Truth value of a list: [if l:]. *)
Definition truthy {A} (l : list A) : bool :=
  match l with [] => false | _ => true end.

(** [len(l)] as a Python integer. *)
Definition len {A} (l : list A) : Z := Z.of_nat (length l).

(** [sorted(l)] on numbers.  Python's sort is a stable merge sort; on numbers
    every sorting algorithm returns the same sequence of values, and the
    model uses insertion. *)
Fixpoint insert_sorted (x : Q) (l : list Q) : list Q :=
  match l with
  | [] => [x]
  | y :: l' => if Qle_bool x y then x :: y :: l' else y :: insert_sorted x l'
  end.

Definition sorted (l : list Q) : list Q := foldr insert_sorted [] l.

(** [l[1:-1]]: the slice without the first and the last element (empty when
    [l] has fewer than three elements). *)
Definition slice_1_m1 {A} (l : list A) : list A := removelast (tail l).

(** [l.pop(0)]: the list after removing its first element. *)
Definition pop0 {A} (l : list A) : list A := tail l.

(** ** Colours and tables *)

(** A value built by [rpi_ws281x.Color(red, green, blue)] (external
    library): the three channel arguments in the order they were passed. *)
Inductive color : Type := Color (c1 c2 c3 : Z).

Definition row : Type := list color.
Definition table : Type := list row.

(** A sample of a content artifact: an [[r, g, b]] triple of integers. *)
Definition sample : Type := (Z * Z * Z)%type.
Definition raw_table : Type := list (list sample).

(** [make_color(r, g, b)]: applies [int] to each channel and honours the
    GRB wiring order. *)
Definition make_color (r g b : Q) : color :=
  if LED_IS_GRB then Color (py_int g) (py_int r) (py_int b)
  else Color (py_int r) (py_int g) (py_int b).

(** ** Globals *)

Inductive mode : Type := circle | square | static_image | gif_sequence.

Definition mode_eqb (a b : mode) : bool :=
  match a, b with
  | circle, circle | square, square
  | static_image, static_image | gif_sequence, gif_sequence => true
  | _, _ => false
  end.

(** GPIO levels: [true] is [GPIO.HIGH], [false] is [GPIO.LOW]. *)
Definition level : Type := bool.
Definition HIGH : level := true.
Definition LOW : level := false.

Record pov_state : Type := mk_pov_state {
  (* display modes *)
  current_mode : mode;
  (* image / sequence data *)
  static_images : list string;
  gif_sequences : list string;
  current_static_index : Z;
  current_gif_index : Z;
  current_frame_index : Z;
  rot_per_frame : Z;
  (* display buffer *)
  display_data : table;
  sequence_colors : list table;
  (* timing variables *)
  last_rotation_micros : Z;
  rotation_time_micros : Z;
  time_per_line_micros : Z;
  current_line : Z;
  rotation_active : bool;
  (* RPM tracking *)
  current_rpm : Q;
  stable_rpm : Q;
  rpm_history : list Q;
  (* counters *)
  rotation_count : Z;
  valid_rotation_count : Z;
  noise_rejected_count : Z;
  missed_lines_count : Z;
  (* hall sensor tracking *)
  last_hall_state : level;
  last_hall_trigger_time : Z;
  (* button tracking: state and time of BUTTON_CIRCLE, BUTTON_SQUARE and
     BUTTON_IMAGE *)
  last_state_circle : level;
  last_state_square : level;
  last_state_image : level;
  last_time_circle : Q;
  last_time_square : Q;
  last_time_image : Q;
  (* threading event for rotation sync *)
  rotation_end_event : bool
}.

(** The module-level initial values. *)
Definition initial_state : pov_state := {|
  current_mode := circle;
  static_images := [];
  gif_sequences := [];
  current_static_index := 0;
  current_gif_index := 0;
  current_frame_index := 0;
  rot_per_frame := ROT_PER_FRAME;
  display_data := [];
  sequence_colors := [];
  last_rotation_micros := 0;
  rotation_time_micros := py_int (60000000 / inject_Z DEFAULT_RPM);
  time_per_line_micros := py_int (60000000 / inject_Z DEFAULT_RPM) / NUM_DIVISIONS;
  current_line := 0;
  rotation_active := false;
  current_rpm := inject_Z DEFAULT_RPM;
  stable_rpm := inject_Z DEFAULT_RPM;
  rpm_history := [];
  rotation_count := 0;
  valid_rotation_count := 0;
  noise_rejected_count := 0;
  missed_lines_count := 0;
  last_hall_state := LOW;
  last_hall_trigger_time := 0;
  last_state_circle := HIGH;
  last_state_square := HIGH;
  last_state_image := HIGH;
  last_time_circle := 0;
  last_time_square := 0;
  last_time_image := 0;
  rotation_end_event := false
|}.

(** ** Hall sensor handling *)

(** The bookkeeping of a pulse rejected after the debounce stage (the
    out-of-range branch and the RPM-jump branch run the same five
    assignments before returning). *)
Definition reject_pulse (current_state : level) (current_time : Z)
    (s : pov_state) : pov_state :=
  s <| noise_rejected_count := noise_rejected_count s + 1 |>
    <| last_hall_state := current_state |>
    <| current_line := 0 |>
    <| rotation_count := rotation_count s + 1 |>
    <| last_rotation_micros := current_time |>.

(** The history update of an accepted reading: append, then drop the oldest
    entry when the history is longer than [RPM_HISTORY_SIZE]. *)
Definition push_history (h : list Q) (instant_rpm : Q) : list Q :=
  let h := h ++ [instant_rpm] in
  if RPM_HISTORY_SIZE <? len h then pop0 h else h.

(** The smoothed RPM (trimmed mean) computed from the history. *)
Definition smooth_rpm (h : list Q) (instant_rpm : Q) : option Q :=
  if 5 <=? len h then
    let sorted_rpm := sorted h in
    let trimmed := slice_1_m1 sorted_rpm in
    match trimmed with
    | [] => Some instant_rpm
    | _ => py_truediv (py_sum trimmed) (inject_Z (len trimmed))
    end
  else py_truediv (py_sum h) (inject_Z (len h)).

(** The per-line time derived from the smoothed RPM. *)
Definition line_time (rotation_time : Z) : Z :=
  let t := rotation_time / NUM_DIVISIONS in
  if t <? LED_UPDATE_TIME_US then LED_UPDATE_TIME_US else t.

(** The end of an accepted (or first) pulse: GIF frame advancement and
    position reset.  [rot_per_frame] is never assigned after its
    initialisation to [ROT_PER_FRAME], and the frame count is tested
    non-zero before it is used as a divisor. *)
Definition finish_pulse (current_state : level) (current_time : Z)
    (s : pov_state) : pov_state :=
  let s :=
    if mode_eqb (current_mode s) gif_sequence && truthy (sequence_colors s)
    then
      if rotation_count s mod rot_per_frame s =? 0
      then s <| current_frame_index :=
                  (current_frame_index s + 1) mod len (sequence_colors s) |>
      else s
    else s in
  s <| current_line := 0 |>
    <| rotation_active := true |>
    <| rotation_count := rotation_count s + 1 |>
    <| last_rotation_micros := current_time |>
    <| last_hall_state := current_state |>.

(** [check_hall_sensor()]; [current_state] is the level read from the sensor
    pin and [current_time] the value of [get_time_micros()].  [None] stands
    for a raised [ZeroDivisionError]. *)
Definition check_hall_sensor (current_state : level) (current_time : Z)
    (s : pov_state) : option pov_state :=
  if current_state && negb (last_hall_state s) then
    let time_since_last := current_time - last_hall_trigger_time s in
    if time_since_last <? HALL_DEBOUNCE_US then
      Some (s <| last_hall_state := current_state |>
              <| noise_rejected_count := noise_rejected_count s + 1 |>)
    else
      let s := s <| last_hall_trigger_time := current_time |>
                 <| rotation_end_event := true |> in
      if 0 <? last_rotation_micros s then
        let measured_rotation_time := current_time - last_rotation_micros s in
        let min_rotation_time := py_int (60000000 / inject_Z MAX_RPM) in
        let max_rotation_time := py_int (60000000 / inject_Z MIN_RPM) in
        if negb ((min_rotation_time <=? measured_rotation_time)
                 && (measured_rotation_time <=? max_rotation_time)) then
          Some (reject_pulse current_state current_time s)
        else
          instant_rpm ← py_truediv 60000000 (inject_Z measured_rotation_time);
          jump ←
            (if 3 <=? len (rpm_history s) then
               avg_rpm ← py_truediv (py_sum (rpm_history s))
                                    (inject_Z (len (rpm_history s)));
               ratio ← py_truediv (Qabs (instant_rpm - avg_rpm)) avg_rpm;
               let rpm_change_percent := (ratio * 100)%Q in
               Some (Qltb (inject_Z MAX_RPM_CHANGE_PERCENT) rpm_change_percent)
             else Some false);
          if jump : bool then
            Some (reject_pulse current_state current_time s)
          else
            let s := s <| rpm_history := push_history (rpm_history s) instant_rpm |> in
            let s := s <| valid_rotation_count := valid_rotation_count s + 1 |> in
            stable ← smooth_rpm (rpm_history s) instant_rpm;
            let s := s <| stable_rpm := stable |> <| current_rpm := stable |> in
            rotation_time ← py_truediv 60000000 (stable_rpm s);
            let s := s <| rotation_time_micros := py_int rotation_time |> in
            let s := s <| time_per_line_micros :=
                            line_time (rotation_time_micros s) |> in
            Some (finish_pulse current_state current_time s)
      else
        Some (finish_pulse current_state current_time s)
  else
    Some (s <| last_hall_state := current_state |>).


(** ** The clock and the rotation event

    [time.perf_counter()] is read from a trace: each [tick] is one reading,
    already multiplied by [1_000_000].  [event_set] tells whether
    [rotation_end_event] was set by another thread since the previous
    reading; the functions of this module set the event only from
    [check_hall_sensor], so a trace produced by the main loop alone has
    [event_set = false] everywhere.  A function that runs out of readings
    returns [None]. *)

Record tick : Type := mk_tick { perf_micros : Q; event_set : bool }.

Definition perf_counter (clock : list tick) (s : pov_state)
    : option (Q * pov_state * list tick) :=
  match clock with
  | [] => None
  | t :: clock' =>
      Some (perf_micros t,
            s <| rotation_end_event := rotation_end_event s || event_set t |>,
            clock')
  end.

(** [get_time_micros()] *)
Definition get_time_micros (clock : list tick) (s : pov_state)
    : option (Z * pov_state * list tick) :=
  '(t, s, clock) ← perf_counter clock s;
  Some (py_int t, s, clock).

(** The loop of [precise_micros_delay]: one clock reading per test of the
    [while] condition, then the test of the event. *)
Fixpoint precise_micros_delay_loop (start micros_to_delay : Q)
    (clock : list tick) (s : pov_state) : option (pov_state * list tick) :=
  match clock with
  | [] => None
  | t :: clock' =>
      let s := s <| rotation_end_event := rotation_end_event s || event_set t |> in
      if Qltb (perf_micros t - start) micros_to_delay then
        if rotation_end_event s then Some (s, clock')
        else precise_micros_delay_loop start micros_to_delay clock' s
      else Some (s, clock')
  end.

(** [precise_micros_delay(micros_to_delay)] *)
Definition precise_micros_delay (micros_to_delay : Q) (clock : list tick)
    (s : pov_state) : option (pov_state * list tick) :=
  '(start, s, clock) ← perf_counter clock s;
  precise_micros_delay_loop start micros_to_delay clock s.

(** ** The display routine *)

(** [l[i]] with Python's negative indices; [None] is [IndexError]. *)
Definition py_index {A} (l : list A) (i : Z) : option A :=
  if (0 <=? i) then l !! Z.to_nat i
  else if (- len l <=? i) then l !! Z.to_nat (len l + i)
  else None.

(** The wait of [display_current_line]:
    [while get_time_micros() < target_time: pass]. *)
Fixpoint busy_wait (target_time : Z) (clock : list tick) (s : pov_state)
    : option (pov_state * list tick) :=
  match clock with
  | [] => None
  | t :: clock' =>
      let s := s <| rotation_end_event := rotation_end_event s || event_set t |> in
      if py_int (perf_micros t) <? target_time
      then busy_wait target_time clock' s
      else Some (s, clock')
  end.

(** The frame shown by [display_current_line]: the current frame of the
    sequence in GIF mode, [display_data] otherwise. *)
Definition frame_to_display (s : pov_state) : option table :=
  if mode_eqb (current_mode s) gif_sequence && truthy (sequence_colors s)
  then py_index (sequence_colors s) (current_frame_index s)
  else Some (display_data s).

(** [len(frame_data) if frame_data else NUM_DIVISIONS] *)
Definition division_count (frame_data : table) : Z :=
  if truthy frame_data then len frame_data else NUM_DIVISIONS.

(** [display_current_line()].  The LED strip is a write-only sink: the row
    pushed to it is not part of the state.  [None] stands for a clock trace
    that ends before the call returns, or for a raised exception. *)
Definition display_current_line (clock : list tick) (s : pov_state)
    : option (pov_state * list tick) :=
  if negb (rotation_active s) || (time_per_line_micros s <=? 0) then
    Some (s, clock)
  else
    let s := if rotation_end_event s
             then s <| rotation_end_event := false |> <| current_line := 0 |>
             else s in
    frame_data ← frame_to_display s;
    let num_divs := division_count frame_data in
    let line_to_show :=
      (current_line s + LINES_TO_SHIFT + num_divs * 2) mod num_divs in
    '(line_start_time, s, clock) ← get_time_micros clock s;
    (* strip.setPixelColor / strip.show for frame_data[line_to_show] *)
    '(now, s, clock) ← get_time_micros clock s;
    let update_time := now - line_start_time in
    let remaining := time_per_line_micros s - update_time - TIMING_MARGIN_US in
    '(s, clock) ←
      (if 0 <? remaining then
         '(now, s, clock) ← get_time_micros clock s;
         let target_time := now + remaining in
         busy_wait target_time clock s
       else if remaining <? -1000 then
         q ← py_truediv (inject_Z (- remaining))
                        (inject_Z (time_per_line_micros s));
         let lines_to_skip := py_int q in
         if 0 <? lines_to_skip then
           Some (s <| current_line := current_line s + lines_to_skip |>
                   <| missed_lines_count := missed_lines_count s + lines_to_skip |>,
                 clock)
         else Some (s, clock)
       else Some (s, clock));
    let s := s <| current_line := current_line s + 1 |> in
    let s := if num_divs <=? current_line s
             then s <| current_line := 0 |> else s in
    Some (s, clock).

(** ** Content arrangement *)

Definition num_leds_one_side : nat := Z.to_nat (NUM_LEDS / 2).

(** [int(c * BRIGHTNESS_RATIO)] *)
Definition scale_channel (c : Z) : Z := py_int (inject_Z c * BRIGHTNESS_RATIO).

(** The colour built from one sample [color_arr]. *)
Definition sample_color (color_arr : sample) : color :=
  let '(r, g, b) := color_arr in
  make_color (inject_Z (scale_channel r)) (inject_Z (scale_channel g))
             (inject_Z (scale_channel b)).

(** First inner loop: odd samples of the line, stored from the outer end
    of the first half inward. *)
Definition fill_first_half (src : list sample) (line_array : row) : row :=
  foldl (fun line i =>
           if Z.of_nat (i * 2 + 1) <? len src then
             match src !! (i * 2 + 1)%nat with
             | Some color_arr =>
                 <[(num_leds_one_side - i - 1)%nat := sample_color color_arr]> line
             | None => line
             end
           else line)
        line_array (seq 0 num_leds_one_side).

(** Second inner loop: even samples of the opposite line. *)
Definition fill_second_half (src : list sample) (line_array : row) : row :=
  foldl (fun line i =>
           if Z.of_nat (i * 2) <? len src then
             match src !! (i * 2)%nat with
             | Some color_arr =>
                 <[(num_leds_one_side + i)%nat := sample_color color_arr]> line
             | None => line
             end
           else line)
        line_array (seq 0 num_leds_one_side).

(** The body of the outer loop: the arranged row of division [line_iter]. *)
Definition arrange_line (slices_colors : raw_table) (line_iter : nat) : row :=
  let num_divs := length slices_colors in
  let line_array := replicate (Z.to_nat NUM_LEDS) (make_color 0 0 0) in
  let line_array := fill_first_half (nth line_iter slices_colors []) line_array in
  let opposite_line := ((line_iter + num_divs / 2) mod num_divs)%nat in
  fill_second_half (nth opposite_line slices_colors []) line_array.

(** [arrange_colors_for_display(slices_colors)] *)
Definition arrange_colors_for_display (slices_colors : raw_table) : table :=
  map (arrange_line slices_colors) (seq 0 (length slices_colors)).

(** ** Shape generation *)

(** [range(a, b)] *)
Definition py_range (a b : Z) : list Z := seqZ a (b - a).

(** [if 0 <= pos < NUM_LEDS: line[pos] = c] *)
Definition set_led (pos : Z) (c : color) (line : row) : row :=
  if (0 <=? pos) && (pos <? NUM_LEDS) then <[Z.to_nat pos := c]> line else line.

(** The two marks drawn by the shape generators: for each [offset] of the
    range, [pixel_color] at [center_led - distance + offset] and at
    [center_led + distance + offset]. *)
Definition draw_marks (center_led distance thickness : Z) (pixel_color : color)
    (line : row) : row :=
  foldl (fun line offset =>
           let led_pos_1 := center_led - distance + offset in
           let led_pos_2 := center_led + distance + offset in
           set_led led_pos_2 pixel_color (set_led led_pos_1 pixel_color line))
        line (py_range ((- thickness) / 2) (thickness / 2 + 1)).

(** The colour of a lit pixel of a shape. *)
Definition shape_pixel (color_rgb : sample) : color :=
  let '(r, g, b) := color_rgb in
  make_color (inject_Z r * BRIGHTNESS_RATIO) (inject_Z g * BRIGHTNESS_RATIO)
             (inject_Z b * BRIGHTNESS_RATIO).

(** [generate_circle_data(radius_leds, color_rgb)] *)
Definition generate_circle_data (radius_leds : Z) (color_rgb : sample) : table :=
  let center_led := NUM_LEDS / 2 in
  let circle_thickness := Z.max 2 (5 - NUM_DIVISIONS / 30) in
  let pixel_color := shape_pixel color_rgb in
  let off_color := make_color 0 0 0 in
  map (fun angle_idx =>
         let line := replicate (Z.to_nat NUM_LEDS) off_color in
         if radius_leds <? NUM_LEDS / 2
         then draw_marks center_led radius_leds circle_thickness pixel_color line
         else line)
      (py_range 0 NUM_DIVISIONS).

(** ** The world outside the program *)

Record world : Type := mk_world {
  (* [np.load(path).tolist()]; [None] when the call raises *)
  np_load : string -> option raw_table;
  (* [sorted(os.listdir(path))]; [None] when the path does not exist *)
  listdir : string -> option (list string);
  (* [os.path.isdir(path)] *)
  isdir : string -> bool;
  (* [int(half_side / max(abs(cos a), abs(sin a), 0.001))] for the angle
     [a = angle_idx * 2 * pi / NUM_DIVISIONS] *)
  square_distance : Z -> Z -> Z
}.

(** [s.endswith(suffix)] *)
Definition endswith (s suffix : string) : bool :=
  let n := String.length s in
  let m := String.length suffix in
  (m <=? n)%nat && String.eqb (String.substring (n - m) m s) suffix.

(** [os.path.join(a, b)] for a relative [b]. *)
Definition os_path_join (a b : string) : string :=
  if String.eqb a EmptyString then b
  else if endswith a "/" then (a ++ b)%string
  else (a ++ "/" ++ b)%string.

Section Program.
Context (w : world).

(** [discover_static_images()] *)
Definition discover_static_images (s : pov_state) : pov_state :=
  s <| static_images :=
         match listdir w STATIC_IMAGES_PATH with
         | Some files => filter (fun f => Is_true (endswith f ".npy")) files
         | None => []
         end |>.

(** [discover_gif_sequences()] *)
Definition discover_gif_sequences (s : pov_state) : pov_state :=
  s <| gif_sequences :=
         match listdir w GIF_COLORS_PATH with
         | Some dirs =>
             filter (fun d =>
                       let path := os_path_join GIF_COLORS_PATH d in
                       Is_true (isdir w path
                                && truthy (filter (fun f => Is_true (endswith f ".npy"))
                                                  (default [] (listdir w path)))))
                    dirs
         | None => []
         end |>.

(** [load_npy_image(npy_path)]; [None] is the [None] returned after a
    caught exception. *)
Definition load_npy_image (npy_path : string) : option table :=
  arrange_colors_for_display <$> np_load w npy_path.

(** [load_gif_sequence(sequence_name)]: the new state and the returned
    value. *)
Definition load_gif_sequence (sequence_name : string) (s : pov_state)
    : pov_state * option (list table) :=
  let sequence_path := os_path_join GIF_COLORS_PATH sequence_name in
  match listdir w sequence_path with
  | None => (s, None)
  | Some entries =>
      let files := filter (fun f => Is_true (endswith f ".npy")) entries in
      if truthy files then
        let frames :=
          omap (fun frame_file =>
                  match load_npy_image (os_path_join sequence_path frame_file) with
                  | Some frame_data =>
                      if truthy frame_data then Some frame_data else None
                  | None => None
                  end) files in
        (s <| sequence_colors := frames |> <| current_frame_index := 0 |>,
         Some frames)
      else (s, None)
  end.

(** [generate_square_data(side_length_leds, color_rgb)] *)
Definition generate_square_data (side_length_leds : Z) (color_rgb : sample)
    : table :=
  let center_led := NUM_LEDS / 2 in
  let edge_thickness := Z.max 2 (5 - NUM_DIVISIONS / 30) in
  let half_side := side_length_leds / 2 in
  let pixel_color := shape_pixel color_rgb in
  let off_color := make_color 0 0 0 in
  map (fun angle_idx =>
         let line := replicate (Z.to_nat NUM_LEDS) off_color in
         let distance := square_distance w half_side angle_idx in
         let distance := Z.min distance (center_led - 2) in
         draw_marks center_led distance edge_thickness pixel_color line)
      (py_range 0 NUM_DIVISIONS).

(** [set_mode_circle()] *)
Definition set_mode_circle (s : pov_state) : pov_state :=
  s <| current_mode := circle |>
    <| display_data := generate_circle_data 28 (0, 255, 255) |>.

(** [set_mode_square()] *)
Definition set_mode_square (s : pov_state) : pov_state :=
  s <| current_mode := square |>
    <| display_data := generate_square_data 24 (255, 0, 255) |>.

(** [set_mode_static_image()]; [None] is an [IndexError] raised by
    [static_images[current_static_index]]. *)
Definition set_mode_static_image (s : pov_state) : option pov_state :=
  if negb (truthy (static_images s)) then Some s
  else
    let s := s <| current_mode := static_image |> in
    img_file ← py_index (static_images s) (current_static_index s);
    let img_path := os_path_join STATIC_IMAGES_PATH img_file in
    match load_npy_image img_path with
    | Some ((_ :: _) as loaded) => Some (s <| display_data := loaded |>)
    | _ => Some (s <| display_data := generate_circle_data 28 (0, 255, 255) |>)
    end.

(** [set_mode_gif_sequence()] *)
Definition set_mode_gif_sequence (s : pov_state) : option pov_state :=
  if negb (truthy (gif_sequences s)) then Some s
  else
    let s := s <| current_mode := gif_sequence |> in
    seq_name ← py_index (gif_sequences s) (current_gif_index s);
    let '(s, loaded) := load_gif_sequence seq_name s in
    match loaded with
    | Some (_ :: _) =>
        frame ← py_index (sequence_colors s) 0;
        Some (s <| display_data := frame |> <| current_frame_index := 0 |>)
    | _ => Some (s <| display_data := generate_circle_data 28 (0, 255, 255) |>)
    end.

Definition circle_colors : list sample :=
  [(0, 255, 255); (255, 255, 0); (255, 0, 255); (0, 255, 0)].

Definition square_colors : list sample :=
  [(255, 0, 255); (255, 255, 0); (0, 255, 255); (255, 128, 0)].

(** [cycle_content()] *)
Definition cycle_content (s : pov_state) : option pov_state :=
  if mode_eqb (current_mode s) static_image && truthy (static_images s) then
    set_mode_static_image
      (s <| current_static_index :=
              (current_static_index s + 1) mod len (static_images s) |>)
  else if mode_eqb (current_mode s) gif_sequence && truthy (gif_sequences s) then
    set_mode_gif_sequence
      (s <| current_gif_index :=
              (current_gif_index s + 1) mod len (gif_sequences s) |>)
  else if mode_eqb (current_mode s) circle then
    color_rgb ← py_index circle_colors (rotation_count s mod len circle_colors);
    Some (s <| display_data := generate_circle_data 28 color_rgb |>)
  else if mode_eqb (current_mode s) square then
    color_rgb ← py_index square_colors (rotation_count s mod len square_colors);
    Some (s <| display_data := generate_square_data 24 color_rgb |>)
  else Some s.

(** Button 1 of [check_buttons]: circle mode. *)
Definition check_button_circle (pin_circle : level) (current_time : Q)
    (s : pov_state) : option pov_state :=
  s ← (if negb pin_circle && last_state_circle s then
         if Qltb BUTTON_DEBOUNCE_TIME (current_time - last_time_circle s) then
           s ← (if mode_eqb (current_mode s) circle then cycle_content s
                else Some (set_mode_circle s));
           Some (s <| last_time_circle := current_time |>)
         else Some s
       else Some s);
  Some (s <| last_state_circle := pin_circle |>).

(** Button 2 of [check_buttons]: square mode. *)
Definition check_button_square (pin_square : level) (current_time : Q)
    (s : pov_state) : option pov_state :=
  s ← (if negb pin_square && last_state_square s then
         if Qltb BUTTON_DEBOUNCE_TIME (current_time - last_time_square s) then
           s ← (if mode_eqb (current_mode s) square then cycle_content s
                else Some (set_mode_square s));
           Some (s <| last_time_square := current_time |>)
         else Some s
       else Some s);
  Some (s <| last_state_square := pin_square |>).

(** Button 3 of [check_buttons]: image / GIF mode, cycling through modes
    and content. *)
Definition check_button_image (pin_image : level) (current_time : Q)
    (s : pov_state) : option pov_state :=
  s ← (if negb pin_image && last_state_image s then
         if Qltb BUTTON_DEBOUNCE_TIME (current_time - last_time_image s) then
           s ← (if mode_eqb (current_mode s) static_image then
                  if truthy (static_images s)
                     && (current_static_index s <? len (static_images s) - 1)
                  then cycle_content s
                  else set_mode_gif_sequence s
                else if mode_eqb (current_mode s) gif_sequence then
                  if truthy (gif_sequences s)
                     && (current_gif_index s <? len (gif_sequences s) - 1)
                  then cycle_content s
                  else set_mode_static_image (s <| current_static_index := 0 |>)
                else set_mode_static_image (s <| current_static_index := 0 |>));
           Some (s <| last_time_image := current_time |>)
         else Some s
       else Some s);
  Some (s <| last_state_image := pin_image |>).

(** [check_buttons()]; the arguments are the levels read from the three
    button pins and the value of [time.time()]. *)
Definition check_buttons (pin_circle pin_square pin_image : level)
    (current_time : Q) (s : pov_state) : option pov_state :=
  s ← check_button_circle pin_circle current_time s;
  s ← check_button_square pin_square current_time s;
  check_button_image pin_image current_time s.

(** The start of [main()]: content discovery and the initial circle. *)
Definition startup : pov_state :=
  set_mode_circle (discover_gif_sequences (discover_static_images initial_state)).

End Program.


(** ** Vocabulary of the pulse filter

    The conditions tested by [check_hall_sensor], named for the statements
    below. *)

(** A low-to-high transition of the sensor pin. *)
Definition rising_edge (current_state : level) (s : pov_state) : Prop :=
  current_state = HIGH /\ last_hall_state s = LOW.

(** The pulse falls within the debounce window of the last trigger. *)
Definition debounce_violation (current_time : Z) (s : pov_state) : Prop :=
  current_time - last_hall_trigger_time s < HALL_DEBOUNCE_US.

(** The measured rotation time of a pulse. *)
Definition period (current_time : Z) (s : pov_state) : Z :=
  current_time - last_rotation_micros s.

Definition min_rotation_time : Z := py_int (60000000 / inject_Z MAX_RPM).
Definition max_rotation_time : Z := py_int (60000000 / inject_Z MIN_RPM).

Definition period_in_range (current_time : Z) (s : pov_state) : Prop :=
  min_rotation_time <= period current_time s <= max_rotation_time.

(** A previous pulse exists and the period is outside the valid range. *)
Definition period_out_of_range (current_time : Z) (s : pov_state) : Prop :=
  0 < last_rotation_micros s /\ ~ period_in_range current_time s.

(** The instantaneous RPM of a pulse. *)
Definition instant_rpm_of (current_time : Z) (s : pov_state) : Q :=
  60000000 / inject_Z (period current_time s).

(** Plain mean. *)
Definition mean (l : list Q) : Q := py_sum l / inject_Z (len l).

(** [|S - M| / M * 100] *)
Definition change_percent (S M : Q) : Q := Qabs (S - M) / M * 100.

(** A previous pulse exists, the period is valid, the history holds at least
    three samples and the sample deviates from their mean by more than
    [MAX_RPM_CHANGE_PERCENT] percent. *)
Definition rpm_outlier (current_time : Z) (s : pov_state) : Prop :=
  0 < last_rotation_micros s /\ period_in_range current_time s /\
  3 <= len (rpm_history s) /\
  (inject_Z MAX_RPM_CHANGE_PERCENT
   < change_percent (instant_rpm_of current_time s) (mean (rpm_history s)))%Q.

(** ** The smoothing rule in words

    The trimmed mean as the specification phrases it: remove one smallest
    and one largest value and average the rest.  [smooth_rpm] above is the
    code's way of computing it (sort, slice, average); the two are compared
    below. *)





(** Each element is at most its successor. *)
Fixpoint nondecreasing (l : list Q) : Prop :=
  match l with
  | [] => True
  | x :: l' => match l' with [] => True | y :: _ => (x <= y)%Q end /\ nondecreasing l'
  end.


(** Every element of [l] lies in [[a, b]]. *)
Definition all_within (a b : Q) (l : list Q) : Prop :=
  Forall (fun r => a <= r <= b)%Q l.


(** The sample [S] of a pulse entered the history: the history is the old
    one with [S] pushed, and the pulse was counted as valid. *)
Definition sample_accepted (s s' : pov_state) (S : Q) : Prop :=
  rpm_history s' = push_history (rpm_history s) S /\
  valid_rotation_count s' = valid_rotation_count s + 1.

(** ** Example states *)

(** A fan spinning at 1000 RPM: three samples in the history, the last
    pulse seen at [t = 1_000_000], slice 7 being displayed. *)
Definition spinning_state : pov_state :=
  initial_state <| last_rotation_micros := 1000000 |>
                <| last_hall_trigger_time := 1000000 |>
                <| rpm_history := [1000; 1000; 1000]%Q |>
                <| stable_rpm := 1000%Q |>
                <| current_rpm := 1000%Q |>
                <| rotation_time_micros := 60000 |>
                <| time_per_line_micros := 2800 |>
                <| rotation_active := true |>
                <| rotation_count := 4 |>
                <| valid_rotation_count := 3 |>
                <| current_line := 7 |>.


(** The state after one more pulse at time [t], or the state itself when
    the handler raises. *)
Definition after_pulse (t : Z) (s : pov_state) : pov_state :=
  default s (check_hall_sensor HIGH t s).

(** A clock reading at [t] microseconds; [e] tells whether the rotation
    event was set by another thread since the previous reading. *)
Definition at_micros (t : Z) (e : bool) : tick := mk_tick (inject_Z t) e.

(** The spinning fan showing the default circle, with a per-line time of
    3000 microseconds. *)
Definition circle_state : pov_state :=
  spinning_state <| display_data := generate_circle_data 28 (0, 255, 255) |>
                 <| time_per_line_micros := 3000 |>.

(** The number of clock readings consumed by a call. *)
Definition readings_used {A} (clock : list tick) (r : option (A * list tick))
    : option nat :=
  (fun '(_, rest) => (length clock - length rest)%nat) <$> r.

(** ** The arrangement rule in words *)

(** A sample scaled by the brightness ratio, each channel floored to an
    integer, in the GRB order of the wiring. *)
Definition scaled_floor (a : sample) : color :=
  let '(r, g, b) := a in
  Color (Qfloor (inject_Z g * BRIGHTNESS_RATIO))
        (Qfloor (inject_Z r * BRIGHTNESS_RATIO))
        (Qfloor (inject_Z b * BRIGHTNESS_RATIO)).

(** The channels of an artifact are unsigned. *)
Definition unsigned_sample (a : sample) : Prop :=
  let '(r, g, b) := a in 0 <= r /\ 0 <= g /\ 0 <= b.

(** A synthetic table of [divisions] rows of [samples] samples, where the
    sample [k] of division [d] is [[d, k, 0]]. *)
Definition synthetic_table (divisions samples : nat) : raw_table :=
  map (fun d => map (fun k => (Z.of_nat d, Z.of_nat k, 0)) (seq 0 samples))
      (seq 0 divisions).

(** One turn of a filling loop of [arrange_colors_for_display]: when sample
    [q i] of [src] exists, its colour goes to position [p i] of the line. *)
Definition fill_step (p q : nat -> nat) (src : list sample) (line : row)
    (i : nat) : row :=
  if Z.of_nat (q i) <? len src then
    match src !! q i with
    | Some color_arr => <[p i := sample_color color_arr]> line
    | None => line
    end
  else line.

(** ** Vocabulary of the mode controller *)

(** The off colour. *)
Definition is_off (c : color) : bool :=
  match c with Color 0 0 0 => true | _ => false end.

(** A table with no lit pixel (the empty table included). *)
Definition blank_table (t : table) : bool := forallb (forallb is_off) t.

(** A world where every artifact is missing or corrupt: one static image is
    listed, and loading anything fails. *)
Definition broken_world : world :=
  mk_world (fun _ => None)
           (fun path => if String.eqb path STATIC_IMAGES_PATH
                        then Some ["logo.npy"%string] else None)
           (fun _ => false)
           (fun _ _ => 0).

(** ** The states of a run *)

(** The states the main loop can be in: the state after start-up, and any
    state obtained from one of them by a call of [check_buttons],
    [check_hall_sensor] or [display_current_line] that returns. *)
Inductive reachable (w : world) : pov_state -> Prop :=
| reach_startup : reachable w (startup w)
| reach_buttons (s s' : pov_state) (pin_circle pin_square pin_image : level)
    (current_time : Q) :
    reachable w s ->
    check_buttons w pin_circle pin_square pin_image current_time s = Some s' ->
    reachable w s'
| reach_hall (s s' : pov_state) (current_state : level) (current_time : Z) :
    reachable w s ->
    check_hall_sensor current_state current_time s = Some s' ->
    reachable w s'
| reach_display (s s' : pov_state) (clock clock' : list tick) :
    reachable w s ->
    display_current_line clock s = Some (s', clock') ->
    reachable w s'.

(** The RPM part of a state is what the pulse filter promises. *)
Definition rpm_within_bounds (s : pov_state) : Prop :=
  all_within (inject_Z MIN_RPM) (inject_Z MAX_RPM) (rpm_history s) /\
  len (rpm_history s) <= RPM_HISTORY_SIZE /\
  (inject_Z MIN_RPM <= stable_rpm s <= inject_Z MAX_RPM)%Q.

(** Two states with the same RPM history and smoothed RPM. *)
Definition same_rpm (s s' : pov_state) : Prop :=
  rpm_history s' = rpm_history s /\ stable_rpm s' = stable_rpm s.

(** A pulse at [t] followed by the return of the pin to [LOW]. *)
Definition full_pulse (t : Z) (s : pov_state) : pov_state :=
  default s (s1 ← check_hall_sensor HIGH t s;
             check_hall_sensor LOW (t + 1000) s1).

(** ** The numeric core on IEEE doubles

    The model above computes with exact rationals.  The definitions below
    repeat the computations the numeric examples go through on binary64
    floats, the numbers Python computes with, so that the examples can be
    checked against the rounding of the real program. *)

(** [float(z)] for [0 <= z < 2^53]. *)
Definition f64_of_int (z : Z) : PrimFloat.float :=
  PrimFloat.of_uint63 (Uint63.of_Z z).

(** [int(x)] on a finite double: truncation toward zero. *)
Definition f64_int (x : PrimFloat.float) : Z :=
  match FloatOps.Prim2SF x with
  | SpecFloat.S754_finite s m e =>
      let v := if 0 <=? e then Z.pos m * 2 ^ e else Z.pos m / 2 ^ (- e) in
      if s then - v else v
  | _ => 0
  end.

(** The rational a finite double stands for. *)
Definition f64_Q (x : PrimFloat.float) : Q :=
  match FloatOps.Prim2SF x with
  | SpecFloat.S754_finite s m e =>
      let v := if 0 <=? e then inject_Z (Z.pos m * 2 ^ e)
               else Z.pos m # Z.to_pos (2 ^ (- e)) in
      if s then (- v)%Q else v
  | _ => 0%Q
  end.

(** The double nearest to 0.3, the value of [BRIGHTNESS_RATIO]: the
    correctly rounded quotient of 3 by 10. *)
Definition f64_BRIGHTNESS_RATIO : PrimFloat.float :=
  PrimFloat.div (f64_of_int 3) (f64_of_int 10).

Definition f64_sum (l : list PrimFloat.float) : PrimFloat.float :=
  fold_left PrimFloat.add l (f64_of_int 0).

Definition f64_mean (l : list PrimFloat.float) : PrimFloat.float :=
  PrimFloat.div (f64_sum l) (f64_of_int (len l)).

Fixpoint f64_insert_sorted (x : PrimFloat.float) (l : list PrimFloat.float)
    : list PrimFloat.float :=
  match l with
  | [] => [x]
  | y :: l' =>
      if PrimFloat.leb x y then x :: y :: l' else y :: f64_insert_sorted x l'
  end.

Definition f64_sorted (l : list PrimFloat.float) : list PrimFloat.float :=
  foldr f64_insert_sorted [] l.

(** [60_000_000 / measured_rotation_time] *)
Definition f64_instant_rpm (measured_rotation_time : Z) : PrimFloat.float :=
  PrimFloat.div (f64_of_int 60000000) (f64_of_int measured_rotation_time).

(** [abs(instant_rpm - avg_rpm) / avg_rpm * 100] *)
Definition f64_change_percent (instant_rpm avg_rpm : PrimFloat.float)
    : PrimFloat.float :=
  PrimFloat.mul
    (PrimFloat.div (PrimFloat.abs (PrimFloat.sub instant_rpm avg_rpm)) avg_rpm)
    (f64_of_int 100).

(** The smoothing of [check_hall_sensor]. *)
Definition f64_smooth_rpm (h : list PrimFloat.float)
    (instant_rpm : PrimFloat.float) : PrimFloat.float :=
  if 5 <=? len h then
    let trimmed := slice_1_m1 (f64_sorted h) in
    if truthy trimmed then f64_mean trimmed else instant_rpm
  else f64_mean h.

(** [int(60_000_000 / stable_rpm) // NUM_DIVISIONS], clamped. *)
Definition f64_line_time (stable_rpm : PrimFloat.float) : Z :=
  line_time (f64_int (PrimFloat.div (f64_of_int 60000000) stable_rpm)).

(** [int(c * BRIGHTNESS_RATIO)] *)
Definition f64_scale_channel (c : Z) : Z :=
  f64_int (PrimFloat.mul (f64_of_int c) f64_BRIGHTNESS_RATIO).


(** [int(60_000_000 / stable_rpm)] on doubles. *)
Definition f64_rotation_time (stable_rpm : PrimFloat.float) : Z :=
  f64_int (PrimFloat.div (f64_of_int 60000000) stable_rpm).

(** The colour the doubles give for one sample. *)
Definition f64_sample_color (color_arr : sample) : color :=
  let '(r, g, b) := color_arr in
  make_color (inject_Z (f64_scale_channel r)) (inject_Z (f64_scale_channel g))
             (inject_Z (f64_scale_channel b)).

(** ** Where exact arithmetic and doubles may part

    The statements that compare a computed value with a bound keep clear of
    the bound by a margin far above the rounding error of the few double
    operations involved (about [1e-13] percent for the outlier test, about
    [2e-15] relative for a mean of fifteen values). *)


(** The relative tolerance on a mean. *)
Definition rounding_tolerance : Q := 1 # 1000000000000.

(** The channels of a colour sample are 8-bit values. *)
Definition eight_bit_sample (a : sample) : Prop :=
  let '(r, g, b) := a in
  0 <= r <= 255 /\ 0 <= g <= 255 /\ 0 <= b <= 255.

(** * The rest of the module

    The functions of [pov_display.py] not modelled so far: the filled
    circle, the LED strip and the routines that write to it, and one turn
    of the main loop.  They are followed by the vocabulary of the statements
    made about the module as a whole. *)

(** ** The filled circle *)

(** [generate_filled_circle_data(radius_leds, color_rgb)] *)
Definition generate_filled_circle_data (radius_leds : Z) (color_rgb : sample)
    : table :=
  let center_led := NUM_LEDS / 2 in
  let pixel_color := shape_pixel color_rgb in
  let off_color := make_color 0 0 0 in
  map (fun angle_idx =>
         let line := replicate (Z.to_nat NUM_LEDS) off_color in
         foldl (fun line dist =>
                  let led_pos_1 := center_led - dist - 1 in
                  let led_pos_2 := center_led + dist in
                  set_led led_pos_2 pixel_color (set_led led_pos_1 pixel_color line))
               line (py_range 0 radius_leds))
      (py_range 0 NUM_DIVISIONS).

(** ** The LED strip

    The [PixelStrip] object of [rpi_ws281x] (external library): a buffer of
    [NUM_LEDS] colours written by [setPixelColor], and the frame the LEDs
    show, which [show] replaces by the buffer.  An index outside the buffer
    is not written; the module never passes one. *)

Record strip : Type := mk_strip { strip_buffer : row; strip_shown : row }.

(** The strip after [PixelStrip(...).begin()]: everything off. *)
Definition strip_begin : strip :=
  mk_strip (replicate (Z.to_nat NUM_LEDS) (Color 0 0 0))
           (replicate (Z.to_nat NUM_LEDS) (Color 0 0 0)).

(** [strip.setPixelColor(i, c)] *)
Definition setPixelColor (i : nat) (c : color) (st : strip) : strip :=
  mk_strip (<[i := c]> (strip_buffer st)) (strip_shown st).

(** [strip.show()] *)
Definition strip_show (st : strip) : strip :=
  mk_strip (strip_buffer st) (strip_buffer st).

(** [clear_strip()] *)
Definition clear_strip (st : strip) : strip :=
  strip_show (foldl (fun st i => setPixelColor i (make_color 0 0 0) st)
                    st (seq 0 (Z.to_nat NUM_LEDS))).

(** The loop shared by [show_static_preview] and [display_current_line]:
    [for i in range(min(NUM_LEDS, len(line_data))):
       strip.setPixelColor(i, line_data[i])]. *)
Definition write_line (line_data : row) (st : strip) : strip :=
  foldl (fun st i =>
           match line_data !! i with
           | Some c => setPixelColor i c st
           | None => st
           end)
        st (seq 0 (Nat.min (Z.to_nat NUM_LEDS) (length line_data))).

(** [show_static_preview()] on the current [display_data]. *)
Definition show_static_preview (display_data : table) (st : strip) : strip :=
  if negb (truthy display_data) || (len display_data =? 0) then st
  else
    let preview_line := len display_data / 4 in
    if preview_line <? len display_data then
      match py_index display_data preview_line with
      | Some line_data => strip_show (write_line line_data st)
      | None => st
      end
    else st.

(** [flash_mode_change()]: a white flash, then the preview. *)
Definition flash_mode_change (display_data : table) (st : strip) : strip :=
  let st := strip_show (foldl (fun st i => setPixelColor i (make_color 50 50 50) st)
                              st (seq 0 (Z.to_nat NUM_LEDS))) in
  show_static_preview display_data st.

(** The row index computed by [display_current_line]:
    [(current_line + LINES_TO_SHIFT + num_divs * 2) % num_divs]. *)
Definition line_to_show (current_line num_divs : Z) : Z :=
  (current_line + LINES_TO_SHIFT + num_divs * 2) mod num_divs.

(** The LED side of one call of [display_current_line] in state [s]: the
    "Update LEDs" block that [display_current_line] above leaves out. *)
Definition display_led_update (s : pov_state) (st : strip) : strip :=
  if negb (rotation_active s) || (time_per_line_micros s <=? 0) then st
  else
    let index := if rotation_end_event s then 0 else current_line s in
    match frame_to_display s with
    | None => st
    | Some frame_data =>
        let num_divs := division_count frame_data in
        let line := line_to_show index num_divs in
        if truthy frame_data && (line <? len frame_data) then
          match py_index frame_data line with
          | Some line_data => strip_show (write_line line_data st)
          | None => st
          end
        else st
    end.

(** ** One turn of the main loop *)

(** The body of [while True] in [main()]: the arguments are what the three
    routines read from the pins and the clocks. *)
Definition main_loop_iteration (w : world)
    (pin_circle pin_square pin_image : level) (button_time : Q)
    (hall_pin : level) (hall_time : Z) (clock : list tick) (s : pov_state)
    : option (pov_state * list tick) :=
  s ← check_buttons w pin_circle pin_square pin_image button_time s;
  s ← check_hall_sensor hall_pin hall_time s;
  display_current_line clock s.

(** ** Which fields a routine leaves alone *)

(** The fields [check_buttons] never writes: everything but the mode, the
    content indices, the tables and the button bookkeeping. *)
Definition same_motion (s s' : pov_state) : Prop :=
  static_images s' = static_images s /\
  gif_sequences s' = gif_sequences s /\
  rot_per_frame s' = rot_per_frame s /\
  last_rotation_micros s' = last_rotation_micros s /\
  rotation_time_micros s' = rotation_time_micros s /\
  time_per_line_micros s' = time_per_line_micros s /\
  current_line s' = current_line s /\
  rotation_active s' = rotation_active s /\
  current_rpm s' = current_rpm s /\
  stable_rpm s' = stable_rpm s /\
  rpm_history s' = rpm_history s /\
  rotation_count s' = rotation_count s /\
  valid_rotation_count s' = valid_rotation_count s /\
  noise_rejected_count s' = noise_rejected_count s /\
  missed_lines_count s' = missed_lines_count s /\
  last_hall_state s' = last_hall_state s /\
  last_hall_trigger_time s' = last_hall_trigger_time s /\
  rotation_end_event s' = rotation_end_event s.

(** The fields [check_hall_sensor] never writes: the mode, the content lists
    and indices (the frame index apart), the tables, the missed-line counter
    and the button bookkeeping. *)
Definition same_content (s s' : pov_state) : Prop :=
  current_mode s' = current_mode s /\
  static_images s' = static_images s /\
  gif_sequences s' = gif_sequences s /\
  current_static_index s' = current_static_index s /\
  current_gif_index s' = current_gif_index s /\
  rot_per_frame s' = rot_per_frame s /\
  display_data s' = display_data s /\
  sequence_colors s' = sequence_colors s /\
  missed_lines_count s' = missed_lines_count s /\
  last_state_circle s' = last_state_circle s /\
  last_state_square s' = last_state_square s /\
  last_state_image s' = last_state_image s /\
  last_time_circle s' = last_time_circle s /\
  last_time_square s' = last_time_square s /\
  last_time_image s' = last_time_image s.

(** The fields [display_current_line] never writes: everything but the slice
    index, the missed-line counter and the rotation event. *)
Definition same_but_line (s s' : pov_state) : Prop :=
  current_mode s' = current_mode s /\
  static_images s' = static_images s /\
  gif_sequences s' = gif_sequences s /\
  current_static_index s' = current_static_index s /\
  current_gif_index s' = current_gif_index s /\
  current_frame_index s' = current_frame_index s /\
  rot_per_frame s' = rot_per_frame s /\
  display_data s' = display_data s /\
  sequence_colors s' = sequence_colors s /\
  last_rotation_micros s' = last_rotation_micros s /\
  rotation_time_micros s' = rotation_time_micros s /\
  time_per_line_micros s' = time_per_line_micros s /\
  rotation_active s' = rotation_active s /\
  current_rpm s' = current_rpm s /\
  stable_rpm s' = stable_rpm s /\
  rpm_history s' = rpm_history s /\
  rotation_count s' = rotation_count s /\
  valid_rotation_count s' = valid_rotation_count s /\
  noise_rejected_count s' = noise_rejected_count s /\
  last_hall_state s' = last_hall_state s /\
  last_hall_trigger_time s' = last_hall_trigger_time s /\
  last_state_circle s' = last_state_circle s /\
  last_state_square s' = last_state_square s /\
  last_state_image s' = last_state_image s /\
  last_time_circle s' = last_time_circle s /\
  last_time_square s' = last_time_square s /\
  last_time_image s' = last_time_image s.

(** ** The outcomes of a poll of the Hall sensor

    [check_hall_sensor] ends in one of five ways; each constructor gives the
    condition under which it does and the state it leaves. *)

(** The state after the two assignments that follow the debounce test. *)
Definition trigger (t : Z) (s : pov_state) : pov_state :=
  s <| last_hall_trigger_time := t |> <| rotation_end_event := true |>.

Inductive pulse_outcome (cs : level) (t : Z) (s : pov_state)
    : pov_state -> Prop :=
| outcome_no_edge :
    ~ rising_edge cs s ->
    pulse_outcome cs t s (s <| last_hall_state := cs |>)
| outcome_debounced :
    rising_edge cs s -> debounce_violation t s ->
    pulse_outcome cs t s
      (s <| last_hall_state := HIGH |>
         <| noise_rejected_count := noise_rejected_count s + 1 |>)
| outcome_first :
    rising_edge cs s -> ~ debounce_violation t s ->
    last_rotation_micros s <= 0 ->
    pulse_outcome cs t s (finish_pulse HIGH t (trigger t s))
| outcome_rejected :
    rising_edge cs s -> ~ debounce_violation t s ->
    0 < last_rotation_micros s ->
    pulse_outcome cs t s (reject_pulse HIGH t (trigger t s))
| outcome_accepted (stable rotation_time : Q) :
    rising_edge cs s -> ~ debounce_violation t s ->
    0 < last_rotation_micros s -> period_in_range t s ->
    smooth_rpm (push_history (rpm_history s) (instant_rpm_of t s))
               (instant_rpm_of t s) = Some stable ->
    py_truediv 60000000 stable = Some rotation_time ->
    pulse_outcome cs t s
      (finish_pulse HIGH t
         (trigger t s
            <| rpm_history := push_history (rpm_history s) (instant_rpm_of t s) |>
            <| valid_rotation_count := valid_rotation_count s + 1 |>
            <| stable_rpm := stable |>
            <| current_rpm := stable |>
            <| rotation_time_micros := py_int rotation_time |>
            <| time_per_line_micros := line_time (py_int rotation_time) |>)).

(** ** Example inputs *)

(** The circle button pressed one second after start-up in a world without
    content. *)
Definition after_circle_press : pov_state :=
  default (startup broken_world)
          (check_buttons broken_world LOW HIGH HIGH 1 (startup broken_world)).

(** A clock without events: readings at the given microseconds. *)
Definition quiet_clock (ts : list Z) : list tick :=
  map (fun t => at_micros t false) ts.

(** One call of [display_current_line] on the spinning circle, on time. *)
Definition after_display : pov_state :=
  default circle_state
          (fst <$> display_current_line (quiet_clock [0; 100; 100; 2700]) circle_state).

(** The pulse was counted as a rotation and not as noise: it was accepted,
    or it was the first one. *)
Definition pulse_passed (s s' : pov_state) : bool :=
  (rotation_count s' =? rotation_count s + 1)
  && (noise_rejected_count s' =? noise_rejected_count s).

(** The spinning fan playing an animation of three frames. *)
Definition gif_state : pov_state :=
  spinning_state
    <| current_mode := gif_sequence |>
    <| sequence_colors := [generate_circle_data 10 (255, 0, 0);
                           generate_circle_data 20 (0, 255, 0);
                           generate_circle_data 30 (0, 0, 255)] |>
    <| display_data := generate_circle_data 10 (255, 0, 0) |>
    <| current_frame_index := 2 |>.

(** ** The shapes, row by row *)

(** LED [p] is one of the five LEDs centred on LED [m]. *)
Definition near (m p : Z) : bool := (m - 2 <=? p) && (p <=? m + 2).

(** A row with two marks, five LEDs wide, centred [distance] LEDs below
    and above the middle of the strip; what falls off the strip is cut. *)
Definition marked_row (distance : Z) (pixel : color) : row :=
  map (fun p => if near (NUM_LEDS / 2 - distance) p
                   || near (NUM_LEDS / 2 + distance) p
                then pixel else Color 0 0 0)
      (seqZ 0 NUM_LEDS).

(** A row lit from [radius] LEDs below the middle of the strip to [radius]
    LEDs above it. *)
Definition filled_row (radius : Z) (pixel : color) : row :=
  map (fun p => if (NUM_LEDS / 2 - radius <=? p) && (p <? NUM_LEDS / 2 + radius)
                then pixel else Color 0 0 0)
      (seqZ 0 NUM_LEDS).

(** A row with every LED off. *)
Definition dark_row : row := replicate (Z.to_nat NUM_LEDS) (Color 0 0 0).

(** A table the display can show: at least one row, every row as long as
    the strip. *)
Definition full_width (t : table) : Prop :=
  Forall (fun line => length line = Z.to_nat NUM_LEDS) t.

Definition well_formed_table (t : table) : Prop := t <> [] /\ full_width t.

(** A content artifact whose rows are too short: two divisions, the first
    with three samples, the second with none. *)
Definition ragged_table : raw_table :=
  [[(10, 20, 30); (40, 50, 60); (70, 80, 90)]; []].

(** ** One refresh, in terms of the clock readings *)

(** The slice index a refresh starts from: 0 when the rotation event is
    pending, the stored index otherwise. *)
Definition refresh_index (s : pov_state) : Z :=
  if rotation_end_event s then 0 else current_line s.

(** The index after [current_line += 1] and the wrap to 0. *)
Definition next_line (num_divs index : Z) : Z :=
  if num_divs <=? index + 1 then 0 else index + 1.

(** [remaining] of [display_current_line] when the two readings around the
    LED update are [t0] and [t1]. *)
Definition time_left (s : pov_state) (t0 t1 : tick) : Z :=
  time_per_line_micros s
  - (py_int (perf_micros t1) - py_int (perf_micros t0))
  - TIMING_MARGIN_US.

(** The number of lines the catch-up branch skips; 0 outside that branch. *)
Definition lines_skipped (s : pov_state) (t0 t1 : tick) : Z :=
  if time_left s t0 t1 <? -1000
  then (- time_left s t0 t1) / time_per_line_micros s
  else 0.

(** The state after a refresh that consumed the readings [used] and skipped
    [skip] lines on a frame of [num_divs] rows. *)
Definition refreshed (s : pov_state) (used : list tick) (num_divs skip : Z)
    : pov_state :=
  s <| rotation_end_event := existsb event_set used |>
    <| current_line := next_line num_divs (refresh_index s + skip) |>
    <| missed_lines_count := missed_lines_count s + skip |>.

(** Some reading of the clock is at or after [target]. *)
Definition clock_reaches (target : Z) (clock : list tick) : Prop :=
  Exists (fun t => target <= py_int (perf_micros t)) clock.

(** The clock of a refresh during which another thread sets the rotation
    event (fourth reading). *)
Definition eventful_clock : list tick :=
  [at_micros 0 false; at_micros 100 false; at_micros 100 false;
   at_micros 500 true; at_micros 1000 false; at_micros 2700 false;
   at_micros 2800 false].

(** ** What holds in every state of a run *)

(** The rotation time and the per-line time are those of an RPM between
    [MIN_RPM] and [MAX_RPM]. *)
Definition timing_within_bounds (s : pov_state) : Prop :=
  min_rotation_time <= rotation_time_micros s <= max_rotation_time /\
  LED_UPDATE_TIME_US <= time_per_line_micros s
                     <= max_rotation_time / NUM_DIVISIONS.

(** The counters agree with one another. *)
Definition counters_consistent (s : pov_state) : Prop :=
  0 <= valid_rotation_count s <= rotation_count s /\
  len (rpm_history s) <= valid_rotation_count s /\
  0 <= noise_rejected_count s /\
  0 <= missed_lines_count s /\
  0 <= current_line s /\
  (rotation_active s = true <-> 0 < rotation_count s) /\
  (0 < last_rotation_micros s -> 0 < rotation_count s).

(** An index into a content list: a position of the list, or 0 when the
    list is empty. *)
Definition index_in_range {A} (i : Z) (l : list A) : Prop :=
  0 <= i < Z.max 1 (len l).

(** The content side of a state, for the discovered lists [images] and
    [gifs]. *)
Definition content_well_formed (images gifs : list string) (s : pov_state)
    : Prop :=
  static_images s = images /\
  gif_sequences s = gifs /\
  rot_per_frame s = ROT_PER_FRAME /\
  index_in_range (current_static_index s) (static_images s) /\
  index_in_range (current_gif_index s) (gif_sequences s) /\
  index_in_range (current_frame_index s) (sequence_colors s) /\
  well_formed_table (display_data s) /\
  Forall well_formed_table (sequence_colors s) /\
  (current_mode s = static_image -> static_images s <> []) /\
  (current_mode s = gif_sequence -> gif_sequences s <> []).

(** The lists found by the discovery at start-up. *)
Definition discovered_images (w : world) : list string :=
  static_images (startup w).

Definition discovered_gifs (w : world) : list string :=
  gif_sequences (startup w).

(** A world without any content: neither directory exists. *)
Definition bare_world : world :=
  mk_world (fun _ => None) (fun _ => None) (fun _ => false) (fun _ _ => 0).

(** The fan of [broken_world] after two revolutions, 120000 microseconds
    apart. *)
Definition two_turns : pov_state :=
  full_pulse 2120000 (full_pulse 2000000 (startup broken_world)).

(** ** Example strips *)

(** A strip showing white on every LED. *)
Definition white_strip : strip :=
  mk_strip (replicate (Z.to_nat NUM_LEDS) (Color 9 9 9))
           (replicate (Z.to_nat NUM_LEDS) (Color 9 9 9)).

(** A row of three colours only. *)
Definition short_line : row := [Color 1 0 0; Color 0 1 0; Color 0 0 1].

(** ** Example worlds and states of the mode controller *)

(** A world with two images and no GIF folder; every image loads as a table
    of two divisions. *)
Definition two_image_world : world :=
  mk_world (fun _ => Some (synthetic_table 2 72))
           (fun path => if String.eqb path STATIC_IMAGES_PATH
                        then Some ["a.npy"; "b.npy"]%string else None)
           (fun _ => false)
           (fun _ _ => 0).

(** The first image of [two_image_world] on display, after one press of the
    image button. *)
Definition after_image_press : pov_state :=
  default (startup two_image_world)
    (check_buttons two_image_world HIGH HIGH LOW 1 (startup two_image_world)).

(** The second, and last, image of [two_image_world] on display. *)
Definition last_image_state : pov_state :=
  default (startup two_image_world)
    (s ← check_buttons two_image_world HIGH HIGH LOW 1 (startup two_image_world);
     s ← check_buttons two_image_world HIGH HIGH HIGH 2 s;
     s ← check_buttons two_image_world HIGH HIGH LOW 3 s;
     check_buttons two_image_world HIGH HIGH HIGH 4 s).

(** A world with one GIF folder of two frames, the second of which does not
    load. *)
Definition one_gif_world : world :=
  mk_world (fun path => if String.eqb path "gif_colors/cat/1.npy"
                        then Some (synthetic_table 2 72) else None)
           (fun path => if String.eqb path GIF_COLORS_PATH
                        then Some ["cat"; "notes.txt"]%string
                        else if String.eqb path "gif_colors/cat"
                        then Some ["1.npy"; "2.npy"; "readme"]%string
                        else None)
           (fun path => String.eqb path "gif_colors/cat")
           (fun _ _ => 0).

(** * Proofs *)

(** ** Reading fields of updated states *)

Ltac st_simpl :=
  cbn [apply_update constant
       current_mode static_images gif_sequences current_static_index
       current_gif_index current_frame_index rot_per_frame display_data
       sequence_colors last_rotation_micros rotation_time_micros
       time_per_line_micros current_line rotation_active current_rpm
       stable_rpm rpm_history rotation_count valid_rotation_count
       noise_rejected_count missed_lines_count last_hall_state
       last_hall_trigger_time last_state_circle last_state_square
       last_state_image last_time_circle last_time_square last_time_image
       rotation_end_event] in *;
  unfold constant in *.

(** Splits a state into its fields, under names that hide no projection. *)
Ltac destruct_state s :=
  let f0 := fresh "mode_" in
  let f1 := fresh "images_" in
  let f2 := fresh "gifs_" in
  let f3 := fresh "static_idx_" in
  let f4 := fresh "gif_idx_" in
  let f5 := fresh "frame_idx_" in
  let f6 := fresh "rot_per_frame_" in
  let f7 := fresh "data_" in
  let f8 := fresh "frames_" in
  let f9 := fresh "last_rot_" in
  let f10 := fresh "rot_time_" in
  let f11 := fresh "line_time_" in
  let f12 := fresh "line_" in
  let f13 := fresh "active_" in
  let f14 := fresh "cur_rpm_" in
  let f15 := fresh "stable_" in
  let f16 := fresh "history_" in
  let f17 := fresh "rot_count_" in
  let f18 := fresh "valid_count_" in
  let f19 := fresh "noise_count_" in
  let f20 := fresh "missed_count_" in
  let f21 := fresh "hall_state_" in
  let f22 := fresh "hall_time_" in
  let f23 := fresh "st_circle_" in
  let f24 := fresh "st_square_" in
  let f25 := fresh "st_image_" in
  let f26 := fresh "tm_circle_" in
  let f27 := fresh "tm_square_" in
  let f28 := fresh "tm_image_" in
  let f29 := fresh "event_" in
  destruct s as [f0 f1 f2 f3 f4 f5 f6 f7 f8 f9 f10 f11 f12 f13 f14 f15 f16
                 f17 f18 f19 f20 f21 f22 f23 f24 f25 f26 f27 f28 f29].

Ltac break_if :=
  match goal with
  | |- context [if ?c then _ else _] => destruct c eqn:?
  end.
(** Solves [same_rpm s s'] when [s'] is [s] under updates of other fields
    and conditionals. *)
Ltac same_rpm_updates :=
  unfold same_rpm, set_mode_circle, set_mode_square;
  repeat match goal with
         | x : pov_state |- _ => destruct_state x
         end;
  st_simpl; repeat break_if; st_simpl; split; reflexivity.


(** Solves a goal [R x y] where [R] unfolds to a conjunction of equalities
    between fields and [y] is [x] under record updates. *)
Ltac frame_updates R :=
  intros; unfold R;
  repeat match goal with
         | x : pov_state |- _ => destruct_state x
         end;
  st_simpl; repeat split; reflexivity.

(** Closes a goal [R x y] where [y] is [x] under a chain of record updates,
    from hypotheses saying that [R] is reflexive, transitive and kept by
    each update. *)
Ltac keep_by_hyp :=
  solve [ match goal with H : _ |- _ => apply H end ].

Ltac keep_updates :=
  repeat first
    [ keep_by_hyp
    | match goal with
      | Ht : forall x y z, ?R x y -> ?R y z -> ?R x z |- ?R _ _ =>
          eapply Ht; [|keep_by_hyp]
      end ].

(** Reads the fields of the state left by an outcome. *)
Ltac outcome_fields :=
  unfold reject_pulse, finish_pulse, trigger in *; cbv zeta in *;
  repeat match goal with
         | x : pov_state |- _ => destruct_state x
         end;
  st_simpl; repeat break_if; st_simpl.

(** Solves a goal [content_well_formed _ _ s'] from the same fact about a
    state with the same content fields. *)
Ltac content_fields :=
  unfold content_well_formed, index_in_range, well_formed_table,
    full_width in *;
  repeat match goal with
         | x : pov_state |- _ => destruct_state x
         end;
  st_simpl; assumption.
(** ** Facts about Python arithmetic *)

Lemma Qltb_lt (a b : Q) : Qltb a b = true <-> (a < b)%Q.
Proof. unfold Qltb, Qlt. apply Z.ltb_lt. Qed.

Lemma Qltb_ge (a b : Q) : Qltb a b = false <-> (b <= a)%Q.
Proof. unfold Qltb, Qle. apply Z.ltb_ge. Qed.

Lemma py_truediv_Some (a b : Q) : ~ (b == 0)%Q -> py_truediv a b = Some (a / b)%Q.
Proof.
  intros Hb. unfold py_truediv.
  destruct (Qeq_bool b 0) eqn:E; [|reflexivity].
  apply Qeq_bool_iff in E. contradiction.
Qed.

Lemma py_truediv_inv (a b q : Q) :
  py_truediv a b = Some q -> ~ (b == 0)%Q /\ q = (a / b)%Q.
Proof.
  unfold py_truediv. destruct (Qeq_bool b 0) eqn:E; [discriminate|].
  intros [= <-]. split; [|reflexivity].
  intros Hb. apply Qeq_bool_iff in Hb. congruence.
Qed.

Lemma py_int_inject_Z (z : Z) : py_int (inject_Z z) = z.
Proof. unfold py_int, inject_Z. simpl. apply Z.quot_1_r. Qed.

Lemma py_int_floor (q : Q) : (0 <= q)%Q -> py_int q = Qfloor q.
Proof.
  destruct q as [n d]. unfold Qle, py_int, Qfloor. simpl. intros Hn.
  apply Z.quot_div_nonneg; lia.
Qed.

Lemma py_int_div (a b : Z) :
  0 <= a -> 0 < b -> py_int (inject_Z a / inject_Z b) = a / b.
Proof.
  intros Ha Hb. rewrite py_int_floor.
  - symmetry. apply Zdiv_Qdiv.
  - apply Qle_shift_div_l.
    + change 0%Q with (inject_Z 0). rewrite <- Zlt_Qlt. exact Hb.
    + rewrite Qmult_0_l. change 0%Q with (inject_Z 0). rewrite <- Zle_Qle. exact Ha.
Qed.



Lemma change_percent_zero_mean (S M : Q) : (M == 0)%Q -> (change_percent S M == 0)%Q.
Proof.
  intros HM. unfold change_percent, Qdiv. rewrite HM.
  change (/ 0)%Q with 0%Q. ring.
Qed.

Lemma inject_Z_len_nonzero {A} (l : list A) : 0 < len l -> ~ (inject_Z (len l) == 0)%Q.
Proof.
  intros H E. unfold Qeq in E. simpl in E. lia.
Qed.

Lemma hall_debounce (t : Z) (s : pov_state) :
  last_hall_state s = LOW -> debounce_violation t s ->
  check_hall_sensor HIGH t s =
    Some (s <| last_hall_state := HIGH |>
            <| noise_rejected_count := noise_rejected_count s + 1 |>).
Proof.
  unfold debounce_violation, check_hall_sensor. intros -> Hd.
  apply Z.ltb_lt in Hd. simpl. rewrite Hd. reflexivity.
Qed.

Lemma hall_out_of_range (t : Z) (s : pov_state) :
  last_hall_state s = LOW -> ~ debounce_violation t s ->
  period_out_of_range t s ->
  check_hall_sensor HIGH t s =
    Some (reject_pulse HIGH t (s <| last_hall_trigger_time := t |>
                                 <| rotation_end_event := true |>)).
Proof.
  unfold debounce_violation, period_out_of_range, period_in_range, period,
    check_hall_sensor.
  intros Hl Hd [Hlast Hr]. rewrite Hl.
  apply Z.nlt_ge, Z.ltb_ge in Hd. simpl andb. cbv iota. rewrite Hd.
  destruct_state s; st_simpl.
  apply Z.ltb_lt in Hlast. rewrite Hlast.
  fold min_rotation_time max_rotation_time.
  destruct (_ && _) eqn:E; [|reflexivity].
  exfalso. apply Hr. apply andb_true_iff in E. lia.
Qed.


Lemma hall_no_edge (cs : level) (t : Z) (s : pov_state) :
  ~ rising_edge cs s ->
  check_hall_sensor cs t s = Some (s <| last_hall_state := cs |>).
Proof.
  unfold rising_edge, check_hall_sensor, HIGH, LOW. intros H.
  destruct cs, (last_hall_state s); simpl; try reflexivity.
  exfalso. apply H. split; reflexivity.
Qed.

Lemma hall_first_pulse (t : Z) (s : pov_state) :
  last_hall_state s = LOW -> ~ debounce_violation t s ->
  last_rotation_micros s <= 0 ->
  check_hall_sensor HIGH t s =
    Some (finish_pulse HIGH t (s <| last_hall_trigger_time := t |>
                                 <| rotation_end_event := true |>)).
Proof.
  unfold debounce_violation, check_hall_sensor.
  intros Hl Hd Hlast. rewrite Hl.
  apply Z.nlt_ge, Z.ltb_ge in Hd. simpl andb. cbv iota. rewrite Hd.
  destruct_state s; st_simpl.
  apply Z.ltb_ge in Hlast. rewrite Hlast. reflexivity.
Qed.

Lemma min_rotation_time_eq : min_rotation_time = 40000.
Proof. reflexivity. Qed.

Lemma max_rotation_time_eq : max_rotation_time = 300000.
Proof. reflexivity. Qed.

Lemma period_in_range_nonzero (t : Z) (s : pov_state) :
  period_in_range t s -> ~ (inject_Z (period t s) == 0)%Q.
Proof.
  unfold period_in_range. rewrite min_rotation_time_eq. intros [H _] E.
  unfold Qeq in E. simpl in E. lia.
Qed.

(** The part of [check_hall_sensor] that runs once the period has been found
    valid, as a function of the three tests made so far. *)
Lemma hall_valid_period (t : Z) (s : pov_state) :
  last_hall_state s = LOW -> ~ debounce_violation t s ->
  0 < last_rotation_micros s -> period_in_range t s ->
  check_hall_sensor HIGH t s =
    let s1 := s <| last_hall_trigger_time := t |> <| rotation_end_event := true |> in
    let instant_rpm := instant_rpm_of t s in
    jump ←
      (if 3 <=? len (rpm_history s) then
         ratio ← py_truediv (Qabs (instant_rpm - mean (rpm_history s)))
                            (mean (rpm_history s));
         Some (Qltb (inject_Z MAX_RPM_CHANGE_PERCENT) (ratio * 100))
       else Some false);
    if jump : bool then Some (reject_pulse HIGH t s1)
    else
      let h := push_history (rpm_history s) instant_rpm in
      stable ← smooth_rpm h instant_rpm;
      rotation_time ← py_truediv 60000000 stable;
      Some (finish_pulse HIGH t
              (s1 <| rpm_history := h |>
                  <| valid_rotation_count := valid_rotation_count s + 1 |>
                  <| stable_rpm := stable |>
                  <| current_rpm := stable |>
                  <| rotation_time_micros := py_int rotation_time |>
                  <| time_per_line_micros := line_time (py_int rotation_time) |>)).
Proof.
  intros Hl Hd Hlast Hr.
  pose proof (period_in_range_nonzero t s Hr) as Hp.
  unfold debounce_violation, period_in_range, instant_rpm_of, mean, period,
    check_hall_sensor in *.
  rewrite Hl.
  apply Z.nlt_ge, Z.ltb_ge in Hd. simpl andb. cbv iota. rewrite Hd.
  destruct_state s; st_simpl.
  apply Z.ltb_lt in Hlast. rewrite Hlast.
  fold min_rotation_time max_rotation_time.
  destruct (_ && _) eqn:E.
  2:{ apply andb_false_iff in E. lia. }
  simpl negb. cbv iota zeta.
  rewrite (py_truediv_Some _ _ Hp). change (Some ?x ≫= ?f) with (f x). cbv beta.
  match goal with |- context [3 <=? ?x] => destruct (3 <=? x) eqn:E3 end.
  - rewrite py_truediv_Some by (apply inject_Z_len_nonzero; lia).
    reflexivity.
  - reflexivity.
Qed.

(** ** Sums, means and sorting *)

Lemma fold_left_Qplus_acc (l : list Q) (a : Q) :
  (fold_left Qplus l a == a + fold_left Qplus l 0)%Q.
Proof.
  revert a. induction l as [|x l IH]; intros a; simpl.
  - ring.
  - rewrite (IH (a + x)%Q), (IH (0 + x)%Q). ring.
Qed.

Lemma py_sum_nil : py_sum [] = 0%Q.
Proof. reflexivity. Qed.

Lemma py_sum_cons (x : Q) (l : list Q) : (py_sum (x :: l) == x + py_sum l)%Q.
Proof.
  unfold py_sum. simpl. rewrite fold_left_Qplus_acc. ring.
Qed.


Lemma len_cons {A} (x : A) (l : list A) : len (x :: l) = len l + 1.
Proof. unfold len. simpl length. lia. Qed.

Lemma len_nonneg {A} (l : list A) : 0 <= len l.
Proof. unfold len. lia. Qed.

Lemma Qlen_cons {A} (x : A) (l : list A) :
  (inject_Z (len (x :: l)) == inject_Z (len l) + 1)%Q.
Proof. rewrite len_cons, inject_Z_plus. reflexivity. Qed.

Lemma Qlen_pos {A} (l : list A) : l <> [] -> (0 < inject_Z (len l))%Q.
Proof.
  intros H. change 0%Q with (inject_Z 0). rewrite <- Zlt_Qlt.
  destruct l; [congruence|]. rewrite len_cons. pose proof (len_nonneg l). lia.
Qed.

Lemma py_sum_bounds (a b : Q) (l : list Q) :
  all_within a b l ->
  (a * inject_Z (len l) <= py_sum l <= b * inject_Z (len l))%Q.
Proof.
  induction 1 as [|x l [Hx1 Hx2] _ [IH1 IH2]].
  - rewrite py_sum_nil. change (inject_Z (len (@nil Q))) with 0%Q. lra.
  - rewrite py_sum_cons, Qlen_cons. lra.
Qed.

Lemma mean_bounds (a b : Q) (l : list Q) :
  all_within a b l -> l <> [] -> (a <= mean l <= b)%Q.
Proof.
  intros H Hne. pose proof (py_sum_bounds a b l H) as [H1 H2].
  pose proof (Qlen_pos l Hne) as Hn. unfold mean. split.
  - apply Qle_shift_div_l; assumption.
  - apply Qle_shift_div_r; assumption.
Qed.

Lemma insert_sorted_within (a b x : Q) (l : list Q) :
  (a <= x <= b)%Q -> all_within a b l -> all_within a b (insert_sorted x l).
Proof.
  intros Hx. induction 1 as [|y l Hy Hl IH]; simpl.
  - repeat constructor; tauto.
  - destruct (Qle_bool x y); repeat constructor; auto; tauto.
Qed.

Lemma sorted_within (a b : Q) (l : list Q) :
  all_within a b l -> all_within a b (sorted l).
Proof.
  induction 1 as [|x l Hx Hl IH]; simpl.
  - constructor.
  - apply insert_sorted_within; assumption.
Qed.

Lemma insert_sorted_length (x : Q) (l : list Q) :
  length (insert_sorted x l) = S (length l).
Proof.
  induction l as [|y l IH]; simpl; [reflexivity|].
  destruct (Qle_bool x y); simpl; congruence.
Qed.

Lemma sorted_length (l : list Q) : length (sorted l) = length l.
Proof.
  induction l as [|x l IH]; simpl; [reflexivity|].
  rewrite insert_sorted_length. congruence.
Qed.



Lemma all_within_tail (a b : Q) (l : list Q) :
  all_within a b l -> all_within a b (tail l).
Proof. destruct 1; simpl; [constructor | assumption]. Qed.

Lemma all_within_removelast (a b : Q) (l : list Q) :
  all_within a b l -> all_within a b (removelast l).
Proof.
  induction 1 as [|x l Hx Hl IH]; simpl; [constructor|].
  destruct l; [constructor|]. constructor; assumption.
Qed.

Lemma slice_within (a b : Q) (l : list Q) :
  all_within a b l -> all_within a b (slice_1_m1 l).
Proof.
  intros H. apply all_within_removelast, all_within_tail, H.
Qed.

Lemma removelast_length {A} (l : list A) : length (removelast l) = pred (length l).
Proof.
  induction l as [|x l IH]; [reflexivity|].
  destruct l; [reflexivity|]. simpl in *. rewrite IH. reflexivity.
Qed.

Lemma slice_length {A} (l : list A) :
  length (slice_1_m1 l) = (length l - 2)%nat.
Proof.
  unfold slice_1_m1. rewrite removelast_length.
  destruct l; simpl; [reflexivity|]. lia.
Qed.

Lemma push_history_within (a b x : Q) (h : list Q) :
  (a <= x <= b)%Q -> all_within a b h -> all_within a b (push_history h x).
Proof.
  intros Hx Hh. unfold push_history, pop0.
  assert (all_within a b (h ++ [x])) as H.
  { apply Forall_app. split; [assumption|]. repeat constructor; tauto. }
  destruct (_ <? _); [apply all_within_tail|]; exact H.
Qed.

Lemma push_history_length (x : Q) (h : list Q) :
  len h <= RPM_HISTORY_SIZE -> 0 < len (push_history h x) <= RPM_HISTORY_SIZE.
Proof.
  unfold push_history, pop0, len, RPM_HISTORY_SIZE. intros H.
  destruct (_ <? _) eqn:E.
  - apply Z.ltb_lt in E. rewrite length_app in *. simpl in *.
    destruct h; simpl in *; rewrite ?length_app; simpl; lia.
  - apply Z.ltb_ge in E. rewrite length_app in *. simpl in *. lia.
Qed.

Lemma push_history_nonempty (x : Q) (h : list Q) :
  len h <= RPM_HISTORY_SIZE -> push_history h x <> [].
Proof.
  intros H E. pose proof (push_history_length x h H) as Hl.
  rewrite E in Hl. unfold len in Hl. simpl in Hl. lia.
Qed.

(** On a non-empty history the smoothing never divides by zero, and its
    result stays within the bounds of the samples. *)
Lemma smooth_rpm_bounds (a b x : Q) (h : list Q) :
  all_within a b h -> h <> [] ->
  exists r, smooth_rpm h x = Some r /\ (a <= r <= b)%Q.
Proof.
  intros Hh Hne. unfold smooth_rpm.
  destruct (5 <=? len h) eqn:E5.
  - apply Z.leb_le in E5.
    assert (length (slice_1_m1 (sorted h)) = (length h - 2)%nat) as Hlen
      by (rewrite slice_length, sorted_length; reflexivity).
    assert (slice_1_m1 (sorted h) <> []) as Hne'.
    { intros E. rewrite E in Hlen. unfold len in E5. simpl in Hlen. lia. }
    pose proof (slice_within a b _ (sorted_within a b h Hh)) as Hw.
    destruct (slice_1_m1 (sorted h)) as [|y l] eqn:El; [congruence|].
    rewrite py_truediv_Some.
    + eexists. split; [reflexivity|]. apply (mean_bounds a b (y :: l)); assumption.
    + pose proof (Qlen_pos (y :: l) Hne'). lra.
  - rewrite py_truediv_Some.
    + eexists. split; [reflexivity|]. apply (mean_bounds a b h); assumption.
    + pose proof (Qlen_pos h Hne). lra.
Qed.

(** ** The sorted slice against the trimmed mean *)

Lemma Qle_bool_false (x y : Q) : Qle_bool x y = false -> (y < x)%Q.
Proof.
  intros H. apply Qnot_le_lt. intros Hle. apply Qle_bool_iff in Hle. congruence.
Qed.

Lemma insert_sorted_nondecreasing (x : Q) (l : list Q) :
  nondecreasing l -> nondecreasing (insert_sorted x l).
Proof.
  induction l as [|y l IH]; simpl; [tauto|].
  intros [Hy Hl]. destruct (Qle_bool x y) eqn:E.
  - apply Qle_bool_iff in E. simpl. tauto.
  - apply Qle_bool_false in E. specialize (IH Hl).
    destruct l as [|z l]; simpl in *.
    + split; [lra | tauto].
    + destruct (Qle_bool x z) eqn:E'; simpl in *.
      * split; [lra | tauto].
      * split; [tauto | tauto].
Qed.

Lemma sorted_nondecreasing (l : list Q) : nondecreasing (sorted l).
Proof.
  induction l as [|x l IH]; simpl; [exact I|].
  apply insert_sorted_nondecreasing, IH.
Qed.










(** ** The paths of [check_hall_sensor] *)

Lemma bind_Some_l {A B} (x : A) (f : A -> option B) : (Some x ≫= f) = f x.
Proof. reflexivity. Qed.

Lemma bind_None_l {A B} (f : A -> option B) : (None ≫= f) = None.
Proof. reflexivity. Qed.

Lemma reject_pulse_fields (cs : level) (t : Z) (s : pov_state) :
  let s' := reject_pulse cs t s in
  noise_rejected_count s' = noise_rejected_count s + 1 /\
  current_line s' = 0 /\
  rpm_history s' = rpm_history s /\
  stable_rpm s' = stable_rpm s /\
  valid_rotation_count s' = valid_rotation_count s /\
  time_per_line_micros s' = time_per_line_micros s.
Proof. destruct_state s. unfold reject_pulse. st_simpl. repeat split. Qed.

Lemma finish_pulse_fields (cs : level) (t : Z) (s : pov_state) :
  let s' := finish_pulse cs t s in
  noise_rejected_count s' = noise_rejected_count s /\
  current_line s' = 0 /\
  rpm_history s' = rpm_history s /\
  stable_rpm s' = stable_rpm s /\
  valid_rotation_count s' = valid_rotation_count s /\
  time_per_line_micros s' = time_per_line_micros s /\
  rotation_time_micros s' = rotation_time_micros s.
Proof.
  destruct_state s. unfold finish_pulse. st_simpl.
  repeat break_if; st_simpl; repeat split.
Qed.

Lemma rpm_outlier_mean_nonzero (t : Z) (s : pov_state) :
  rpm_outlier t s -> ~ (mean (rpm_history s) == 0)%Q.
Proof.
  intros (_ & _ & _ & H) E.
  rewrite (change_percent_zero_mean _ _ E) in H.
  unfold MAX_RPM_CHANGE_PERCENT, Qlt in H. simpl in H. lia.
Qed.

Lemma hall_outlier (t : Z) (s : pov_state) :
  last_hall_state s = LOW -> ~ debounce_violation t s ->
  rpm_outlier t s ->
  check_hall_sensor HIGH t s =
    Some (reject_pulse HIGH t (s <| last_hall_trigger_time := t |>
                                 <| rotation_end_event := true |>)).
Proof.
  intros Hl Hd Ho. pose proof (rpm_outlier_mean_nonzero t s Ho) as Hm.
  destruct Ho as (Hlast & Hr & Hlen & Hpct).
  rewrite hall_valid_period by assumption. cbv zeta.
  apply Z.leb_le in Hlen. rewrite Hlen.
  rewrite (py_truediv_Some _ _ Hm), !bind_Some_l.
  apply Qltb_lt in Hpct. unfold change_percent in Hpct. rewrite Hpct.
  reflexivity.
Qed.

Lemma accepted_state_fields (cs : level) (t : Z) (s : pov_state)
    (h : list Q) (v : Z) (stable : Q) (rt tpl : Z) :
  let s' :=
    finish_pulse cs t
      (s <| last_hall_trigger_time := t |> <| rotation_end_event := true |>
         <| rpm_history := h |> <| valid_rotation_count := v |>
         <| stable_rpm := stable |> <| current_rpm := stable |>
         <| rotation_time_micros := rt |> <| time_per_line_micros := tpl |>) in
  rpm_history s' = h /\ valid_rotation_count s' = v /\
  stable_rpm s' = stable /\ rotation_time_micros s' = rt /\
  time_per_line_micros s' = tpl /\
  noise_rejected_count s' = noise_rejected_count s /\
  current_line s' = 0.
Proof.
  destruct_state s. unfold finish_pulse. st_simpl.
  repeat break_if; st_simpl; repeat split.
Qed.

(** The accepted path: what the handler computes when the three filters
    pass. *)
Lemma hall_accepted (t : Z) (s s' : pov_state) :
  last_hall_state s = LOW -> ~ debounce_violation t s ->
  0 < last_rotation_micros s -> period_in_range t s -> ~ rpm_outlier t s ->
  check_hall_sensor HIGH t s = Some s' ->
  sample_accepted s s' (instant_rpm_of t s) /\
  smooth_rpm (rpm_history s') (instant_rpm_of t s) = Some (stable_rpm s') /\
  (exists rotation_time,
      py_truediv 60000000 (stable_rpm s') = Some rotation_time /\
      rotation_time_micros s' = py_int rotation_time /\
      time_per_line_micros s' = line_time (py_int rotation_time)) /\
  noise_rejected_count s' = noise_rejected_count s /\
  current_line s' = 0.
Proof.
  intros Hl Hd Hlast Hr Ho.
  rewrite hall_valid_period by assumption. cbv zeta.
  assert ((if 3 <=? len (rpm_history s)
           then ratio ← py_truediv (Qabs (instant_rpm_of t s - mean (rpm_history s)))
                                   (mean (rpm_history s));
                Some (Qltb (inject_Z MAX_RPM_CHANGE_PERCENT) (ratio * 100))
           else Some false) = None
          \/ (if 3 <=? len (rpm_history s)
           then ratio ← py_truediv (Qabs (instant_rpm_of t s - mean (rpm_history s)))
                                   (mean (rpm_history s));
                Some (Qltb (inject_Z MAX_RPM_CHANGE_PERCENT) (ratio * 100))
           else Some false) = Some false) as [-> | ->].
  { destruct (3 <=? len (rpm_history s)) eqn:E3; [|right; reflexivity].
    destruct (py_truediv _ (mean (rpm_history s))) as [ratio|] eqn:Er;
      [|left; reflexivity].
    apply py_truediv_inv in Er as [Hm ->]. rewrite !bind_Some_l.
    destruct (Qltb _ _) eqn:Ej; [|right; reflexivity].
    exfalso. apply Ho. apply Z.leb_le in E3. apply Qltb_lt in Ej.
    exact (conj Hlast (conj Hr (conj E3 Ej))). }
  { rewrite bind_None_l. discriminate. }
  rewrite bind_Some_l.
  destruct (smooth_rpm _ _) as [stable|] eqn:Es; [|discriminate].
  rewrite bind_Some_l.
  destruct (py_truediv 60000000 stable) as [rt|] eqn:Ert; [|discriminate].
  rewrite bind_Some_l. intros [= <-].
  pose proof (accepted_state_fields HIGH t s
                (push_history (rpm_history s) (instant_rpm_of t s))
                (valid_rotation_count s + 1) stable (py_int rt)
                (line_time (py_int rt))) as F.
  cbv zeta in F.
  match goal with
  | |- context [finish_pulse HIGH t ?x] => set (s2 := finish_pulse HIGH t x) in *
  end.
  destruct F as (F1 & F2 & F3 & F4 & F5 & F6 & F7).
  change (rpm_history s2 = push_history (rpm_history s) (instant_rpm_of t s)) in F1.
  change (valid_rotation_count s2 = valid_rotation_count s + 1) in F2.
  change (stable_rpm s2 = stable) in F3.
  change (rotation_time_micros s2 = py_int rt) in F4.
  change (time_per_line_micros s2 = line_time (py_int rt)) in F5.
  change (noise_rejected_count s2 = noise_rejected_count s) in F6.
  change (current_line s2 = 0) in F7.
  unfold sample_accepted. rewrite F1, F2, F3, F4, F5, F6, F7.
  repeat split; try assumption. exists rt. repeat split; assumption.
Qed.

Lemma hall_unchanged_or_accepted (cs : level) (t : Z) (s s' : pov_state) :
  check_hall_sensor cs t s = Some s' ->
  (rpm_history s' = rpm_history s /\ stable_rpm s' = stable_rpm s /\
   valid_rotation_count s' = valid_rotation_count s /\
   time_per_line_micros s' = time_per_line_micros s)
  \/ (cs = HIGH /\ last_hall_state s = LOW /\ ~ debounce_violation t s /\
      0 < last_rotation_micros s /\ period_in_range t s /\ ~ rpm_outlier t s).
Proof.
  intros H.
  destruct (decide (rising_edge cs s)) as [[-> Hl]|Hn].
  2:{ rewrite hall_no_edge in H by assumption. injection H as <-.
      left. destruct_state s; st_simpl. repeat split. }
  destruct (Z_lt_dec (t - last_hall_trigger_time s) HALL_DEBOUNCE_US) as [Hd|Hd].
  { rewrite hall_debounce in H by assumption. injection H as <-.
    left. destruct_state s; st_simpl. repeat split. }
  destruct (Z_lt_dec 0 (last_rotation_micros s)) as [Hlast|Hlast].
  2:{ rewrite hall_first_pulse in H by (assumption || lia). injection H as <-.
      left.
      match goal with
      | |- context [finish_pulse HIGH t ?x] =>
          destruct (finish_pulse_fields HIGH t x) as (_ & _ & F3 & F4 & F5 & F6 & _)
      end.
      rewrite F3, F4, F5, F6. destruct_state s; st_simpl. repeat split. }
  assert (check_hall_sensor HIGH t s =
            Some (reject_pulse HIGH t (s <| last_hall_trigger_time := t |>
                                         <| rotation_end_event := true |>)) ->
          rpm_history s' = rpm_history s /\ stable_rpm s' = stable_rpm s /\
          valid_rotation_count s' = valid_rotation_count s /\
          time_per_line_micros s' = time_per_line_micros s) as Hrej.
  { intros E. rewrite E in H. injection H as <-.
    match goal with
    | |- context [reject_pulse HIGH t ?x] =>
        destruct (reject_pulse_fields HIGH t x) as (_ & _ & F3 & F4 & F5 & F6)
    end.
    rewrite F3, F4, F5, F6. destruct_state s; st_simpl. repeat split. }
  destruct (decide (period_in_range t s)) as [Hr|Hr].
  2:{ left. apply Hrej, hall_out_of_range; assumption || split; assumption. }
  assert (rpm_outlier t s \/ ~ rpm_outlier t s) as [Ho|Ho].
  { unfold rpm_outlier.
    destruct (Z_le_dec 3 (len (rpm_history s))); [|right; tauto].
    destruct (Qlt_le_dec (inject_Z MAX_RPM_CHANGE_PERCENT)
                (change_percent (instant_rpm_of t s) (mean (rpm_history s))));
      [left; tauto|].
    right. intros (_ & _ & _ & H'). lra. }
  { left. apply Hrej, hall_outlier; assumption. }
  right. repeat split; assumption || apply Hr.
Qed.

(** ** Noise rejection (C3) *)




(** ** The outlier threshold (C4) *)

(** Mean 1000 and sample 600: the deviation is exactly the threshold and the
    sample is in the history afterwards (on doubles as well, see
    [f64_boundary_change_percent]). *)
Example boundary_sample_accepted :
  (change_percent (instant_rpm_of 1100000 spinning_state)
                  (mean (rpm_history spinning_state))
   == inject_Z MAX_RPM_CHANGE_PERCENT)%Q /\
  rpm_history (after_pulse 1100000 spinning_state)
  = [1000; 1000; 1000; 60000000 # 100000]%Q.
Proof. split; reflexivity. Qed.




(** ** The smoothed RPM (C5) *)



(** ** The per-line time (C6) *)

Lemma line_time_max (r : Z) :
  line_time r = Z.max (r / NUM_DIVISIONS) LED_UPDATE_TIME_US.
Proof.
  unfold line_time. cbv zeta. destruct (_ <? _) eqn:E.
  - apply Z.ltb_lt in E. lia.
  - apply Z.ltb_ge in E. lia.
Qed.




(** On doubles the quotient [60e6 / smoothed_rpm] can fall just below a
    whole number that exact arithmetic reaches: after one sample with a
    period of 112040 microseconds the code stores a rotation time of 112039
    and a per-line time of 2800, after 112120 microseconds 112120 and
    2803. *)
Example f64_rotation_time_examples :
  f64_rotation_time (f64_instant_rpm 112040) = 112039 /\
  f64_line_time (f64_instant_rpm 112040) = 2800 /\
  f64_rotation_time (f64_instant_rpm 112120) = 112120 /\
  f64_line_time (f64_instant_rpm 112120) = 2803.
Proof. vm_compute. repeat split. Qed.

(** ** The display routine: catch-up (C1) *)

Lemma division_count_pos (frame_data : table) : 0 < division_count frame_data.
Proof.
  unfold division_count, NUM_DIVISIONS.
  destruct frame_data; simpl truthy; cbv iota; [lia|].
  rewrite len_cons. pose proof (len_nonneg frame_data). lia.
Qed.

Lemma get_time_micros_cons (t : tick) (clock : list tick) (s : pov_state) :
  get_time_micros (t :: clock) s
  = Some (py_int (perf_micros t),
          s <| rotation_end_event := rotation_end_event s || event_set t |>,
          clock).
Proof. reflexivity. Qed.

(** C1, as stated, fails: the normal advance of 1 is not replaced but added.
    The fan shows slice 7 of 40 with a per-line time of 3000 microseconds
    and the push takes 6500 microseconds: [remaining = -3800], one line is
    skipped and counted as missed, and the index becomes [7 + 1 + 1 = 9],
    not [7 + 1 = 8]. *)
Lemma catch_up_adds_normal_advance :
  let clock := [at_micros 0 false; at_micros 6500 false] in
  let remaining := time_per_line_micros circle_state - (6500 - 0) - TIMING_MARGIN_US in
  let skip := (- remaining) / time_per_line_micros circle_state in
  remaining = -3800 /\ skip = 1 /\
  exists s', display_current_line clock circle_state = Some (s', []) /\
             missed_lines_count s' = missed_lines_count circle_state + skip /\
             current_line circle_state = 7 /\
             current_line s' = 9 /\
             current_line s' <> (current_line circle_state + skip) mod 40.
Proof.
  cbv zeta. split; [reflexivity|]. split; [reflexivity|].
  eexists. split; [vm_compute; reflexivity|].
  repeat split. discriminate.
Qed.

(** The wrap after a catch-up is a reset, not a remainder: from slice 38 of
    40 a skip of 5 gives 44, and the index becomes 0 where the remainder
    would be 4. *)
Example catch_up_overshoot_resets :
  let s := circle_state <| current_line := 38 |> in
  let clock := [at_micros 0 false; at_micros 18500 false] in
  exists s', display_current_line clock s = Some (s', []) /\
             missed_lines_count s' = missed_lines_count s + 5 /\
             current_line s' = 0 /\ (38 + 5 + 1) mod 40 = 4.
Proof.
  cbv zeta. eexists. split; [vm_compute; reflexivity|]. repeat split.
Qed.

(** C1 (amended): when [remaining < -1000] the scheduler computes
    [skip = floor(-remaining / per_slice_us)], adds [skip] to the
    missed-slice counter and advances the slice index by [skip + 1] (the
    skipped slices and then the normal advance of 1); as long as the
    advanced index does not pass the division count it is stored modulo the
    division count, and in every case the stored index lies in
    [[0, divisions)]. *)
Theorem catch_up_advance (s : pov_state) (t0 t1 : tick) (clock : list tick)
    (frame_data : table) :
  rotation_active s = true ->
  0 < time_per_line_micros s ->
  frame_to_display s = Some frame_data ->
  let num_divs := division_count frame_data in
  let index := if rotation_end_event s then 0 else current_line s in
  let update_time := py_int (perf_micros t1) - py_int (perf_micros t0) in
  let remaining := time_per_line_micros s - update_time - TIMING_MARGIN_US in
  let skip := (- remaining) / time_per_line_micros s in
  remaining < -1000 ->
  0 <= index ->
  exists s', display_current_line (t0 :: t1 :: clock) s = Some (s', clock) /\
    missed_lines_count s' = missed_lines_count s + skip /\
    (index + skip + 1 <= num_divs ->
     current_line s' = (index + skip + 1) mod num_divs) /\
    0 <= current_line s' < num_divs.
Proof.
  intros Hact Htpl Hframe num_divs index update_time remaining skip Hrem Hidx.
  pose proof (division_count_pos frame_data) as Hdiv. fold num_divs in Hdiv.
  assert (0 <= skip) as Hskip by (apply Z.div_pos; lia).
  assert (py_truediv (inject_Z (- remaining)) (inject_Z (time_per_line_micros s))
          = Some (inject_Z (- remaining) / inject_Z (time_per_line_micros s))%Q)
    as Hq.
  { apply py_truediv_Some. intros E. unfold Qeq in E. simpl in E. lia. }
  assert (py_int (inject_Z (- remaining) / inject_Z (time_per_line_micros s)) = skip)
    as Hpy by (apply py_int_div; lia).
  unfold display_current_line.
  rewrite Hact. simpl negb. rewrite orb_false_l.
  destruct (time_per_line_micros s <=? 0) eqn:E0; [apply Z.leb_le in E0; lia|].
  assert (frame_to_display
            (if rotation_end_event s
             then s <| rotation_end_event := false |> <| current_line := 0 |>
             else s) = Some frame_data) as ->.
  { rewrite <- Hframe. destruct_state s; st_simpl.
    match goal with |- context [if ?b then _ else _] => destruct b end;
      reflexivity. }
  rewrite bind_Some_l. fold num_divs.
  rewrite !get_time_micros_cons, !bind_Some_l. cbv beta iota.
  rewrite !get_time_micros_cons, !bind_Some_l. cbv beta iota.
  match goal with
  | |- context [get_time_micros clock ?x] => set (s2 := x)
  end.
  assert (time_per_line_micros s2 = time_per_line_micros s /\
          current_line s2 = index /\
          missed_lines_count s2 = missed_lines_count s) as (H1 & H2 & H3).
  { subst s2 index. destruct_state s; st_simpl.
    match goal with |- context [if ?b then _ else _] => destruct b end;
      st_simpl; repeat split. }
  rewrite H1. fold update_time. fold remaining.
  destruct (0 <? remaining) eqn:E1; [apply Z.ltb_lt in E1; lia|].
  destruct (remaining <? -1000) eqn:E2; [|apply Z.ltb_ge in E2; lia].
  rewrite Hq, bind_Some_l, Hpy. cbv zeta.
  destruct (0 <? skip) eqn:E3.
  - rewrite bind_Some_l. cbv beta iota.
    match goal with
    | |- context [if ?c then _ else _] => destruct c eqn:E4
    end.
    + eexists. split; [reflexivity|].
      revert E4. destruct_state s2; st_simpl. intros E4.
      apply Z.leb_le in E4. subst. repeat split; try lia.
      intros Hle. replace (index + skip + 1) with num_divs by lia.
      rewrite Z.mod_same by lia. reflexivity.
    + eexists. split; [reflexivity|].
      revert E4. destruct_state s2; st_simpl. intros E4.
      apply Z.leb_gt in E4. subst. repeat split; try lia.
      intros _. rewrite Z.mod_small by lia. reflexivity.
  - apply Z.ltb_ge in E3. assert (skip = 0) as Hs0 by lia.
    rewrite bind_Some_l. cbv beta iota.
    match goal with
    | |- context [if ?c then _ else _] => destruct c eqn:E4
    end.
    + eexists. split; [reflexivity|].
      revert E4. destruct_state s2; st_simpl. intros E4.
      apply Z.leb_le in E4. subst. repeat split; try lia.
      intros Hle. replace (index + skip + 1) with num_divs by lia.
      rewrite Z.mod_same by lia. reflexivity.
    + eexists. split; [reflexivity|].
      revert E4. destruct_state s2; st_simpl. intros E4.
      apply Z.leb_gt in E4. subst. repeat split; try lia.
      intros _. replace (index + skip + 1) with (index + 1) by lia.
      rewrite Z.mod_small by lia. reflexivity.
Qed.

(** The counterexample's run, through the amended statement. *)
Lemma catch_up_advance_witness :
  exists s',
    display_current_line [at_micros 0 false; at_micros 6500 false] circle_state
    = Some (s', []) /\
    missed_lines_count s' = missed_lines_count circle_state + 1 /\
    (7 + 1 + 1 <= 40 -> current_line s' = (7 + 1 + 1) mod 40) /\
    0 <= current_line s' < 40.
Proof.
  apply (catch_up_advance circle_state (at_micros 0 false) (at_micros 6500 false)
           [] (display_data circle_state)).
  - reflexivity.
  - reflexivity.
  - reflexivity.
  - reflexivity.
  - vm_compute. discriminate.
Defined.

(** ** The display routine: the wait *)

(** One more turn of the scheduler's wait: while the clock is below the
    target the loop goes on, whatever the rotation event says. *)
Lemma busy_wait_continues (target_time : Z) (t : tick) (clock : list tick)
    (s : pov_state) :
  py_int (perf_micros t) < target_time ->
  busy_wait target_time (t :: clock) s
  = busy_wait target_time clock
      (s <| rotation_end_event := rotation_end_event s || event_set t |>).
Proof.
  intros H. apply Z.ltb_lt in H. cbn [busy_wait]. rewrite H. reflexivity.
Qed.

(** The readings consumed by the scheduler's wait depend on the times of the
    trace only: erasing every rotation event from the trace changes
    nothing. *)
Lemma busy_wait_ignores_events (target_time : Z) (clock : list tick)
    (s1 s2 : pov_state) :
  let quiet := map (fun t => mk_tick (perf_micros t) false) clock in
  readings_used clock (busy_wait target_time clock s1)
  = readings_used quiet (busy_wait target_time quiet s2).
Proof.
  cbv zeta. unfold readings_used.
  assert (forall clock s1 s2,
             (fun r : pov_state * list tick => length (snd r))
               <$> busy_wait target_time clock s1
             = (fun r : pov_state * list tick => length (snd r))
               <$> busy_wait target_time
                     (map (fun t => mk_tick (perf_micros t) false) clock) s2)
    as Hrest.
  { clear. induction clock as [|t clock IH]; intros s1 s2; [reflexivity|].
    cbn [busy_wait map perf_micros]. destruct (_ <? _).
    - apply IH.
    - cbn. rewrite length_map. reflexivity. }
  specialize (Hrest clock s1 s2).
  rewrite length_map.
  destruct (busy_wait target_time clock s1) as [[? ?]|],
           (busy_wait target_time (map _ clock) s2) as [[? ?]|];
    cbn in *; congruence.
Qed.

(** The helper [precise_micros_delay] stops at the first reading at which
    the rotation event is set. *)
Lemma precise_micros_delay_aborts (start micros_to_delay : Q) (t : tick)
    (clock : list tick) (s : pov_state) :
  event_set t = true ->
  exists s', precise_micros_delay_loop start micros_to_delay (t :: clock) s
             = Some (s', clock) /\ rotation_end_event s' = true.
Proof.
  intros He. cbn [precise_micros_delay_loop]. rewrite He, orb_true_r.
  destruct (Qltb _ _); eexists; (split; [reflexivity|]);
    destruct_state s; st_simpl; reflexivity.
Qed.

(** ** The arrangement of a table (C7) *)

Lemma fill_length (p q : nat -> nat) (src : list sample) (line : row)
    (idxs : list nat) :
  length (foldl (fill_step p q src) line idxs) = length line.
Proof.
  revert line. induction idxs as [|i idxs IH]; intros line; [reflexivity|].
  cbn [foldl]. rewrite IH. unfold fill_step.
  destruct (_ <? _); [|reflexivity].
  destruct (src !! q i); [apply length_insert | reflexivity].
Qed.

Lemma fill_untouched (p q : nat -> nat) (src : list sample) (line : row)
    (idxs : list nat) (pos : nat) :
  (forall i, i ∈ idxs -> p i <> pos) ->
  foldl (fill_step p q src) line idxs !! pos = line !! pos.
Proof.
  revert line. induction idxs as [|i idxs IH]; intros line H; [reflexivity|].
  cbn [foldl]. rewrite IH.
  - unfold fill_step. destruct (_ <? _); [|reflexivity].
    destruct (src !! q i); [|reflexivity].
    apply list_lookup_insert_ne. apply H. left.
  - intros j Hj. apply H. right. exact Hj.
Qed.

Lemma fill_lookup (p q : nat -> nat) (src : list sample) (line : row)
    (n i0 : nat) (a : sample) :
  (forall i j, (i < n)%nat -> (j < n)%nat -> p i = p j -> i = j) ->
  (i0 < n)%nat -> (p i0 < length line)%nat ->
  src !! q i0 = Some a ->
  foldl (fill_step p q src) line (seq 0 n) !! p i0 = Some (sample_color a).
Proof.
  intros Hinj Hi0 Hlen Ha.
  replace n with (i0 + S (n - i0 - 1))%nat at 1 by lia.
  rewrite seq_app, foldl_app. cbn [seq foldl].
  rewrite fill_untouched.
  - pose proof (fill_length p q src line (seq 0 i0)) as Hl1.
    set (l1 := foldl (fill_step p q src) line (seq 0 i0)) in *.
    unfold fill_step. change (0 + i0)%nat with i0.
    assert ((Z.of_nat (q i0) <? len src) = true) as ->.
    { apply Z.ltb_lt. apply lookup_lt_Some in Ha. unfold len. lia. }
    rewrite Ha. apply list_lookup_insert_eq. lia.
  - intros j Hj E. apply elem_of_seq in Hj.
    assert (j = i0) by (apply Hinj; lia). lia.
Qed.

Lemma fill_first_half_step (src : list sample) (line : row) :
  fill_first_half src line
  = foldl (fill_step (fun i => num_leds_one_side - i - 1)%nat
                     (fun i => i * 2 + 1)%nat src)
          line (seq 0 num_leds_one_side).
Proof. reflexivity. Qed.

Lemma fill_second_half_step (src : list sample) (line : row) :
  fill_second_half src line
  = foldl (fill_step (fun i => num_leds_one_side + i)%nat
                     (fun i => i * 2)%nat src)
          line (seq 0 num_leds_one_side).
Proof. reflexivity. Qed.

Lemma sample_color_scaled_floor (a : sample) :
  unsigned_sample a -> sample_color a = scaled_floor a.
Proof.
  destruct a as [[r g] b]. intros (Hr & Hg & Hb).
  unfold sample_color, scaled_floor, make_color, scale_channel, LED_IS_GRB.
  rewrite !py_int_inject_Z.
  assert (forall c, 0 <= c -> py_int (inject_Z c * BRIGHTNESS_RATIO)
                              = Qfloor (inject_Z c * BRIGHTNESS_RATIO)) as H.
  { intros c Hc. apply py_int_floor. unfold BRIGHTNESS_RATIO.
    apply Qmult_le_0_compat; [|discriminate].
    change 0%Q with (inject_Z 0). rewrite <- Zle_Qle. exact Hc. }
  rewrite !H by assumption. reflexivity.
Qed.

Lemma lookup_map {A B} (f : A -> B) (l : list A) (i : nat) :
  map f l !! i = f <$> (l !! i).
Proof.
  revert i. induction l as [|x l IH]; intros [|i]; try reflexivity.
  apply IH.
Qed.

Lemma arrange_lookup (slices_colors : raw_table) (d : nat) :
  (d < length slices_colors)%nat ->
  arrange_colors_for_display slices_colors !! d
  = Some (arrange_line slices_colors d).
Proof.
  intros Hd. unfold arrange_colors_for_display.
  etransitivity; [apply (lookup_map (arrange_line slices_colors))|].
  rewrite lookup_seq_lt by exact Hd. reflexivity.
Qed.

(** The two halves of one arranged row. *)
Lemma arrange_line_mapping (slices_colors : raw_table) (d i : nat) :
  let L := num_leds_one_side in
  let divisions := length slices_colors in
  (i < L)%nat ->
  (forall a,
      nth d slices_colors [] !! (2 * i + 1)%nat = Some a ->
      unsigned_sample a ->
      arrange_line slices_colors d !! (L - 1 - i)%nat = Some (scaled_floor a)) /\
  (forall b,
      nth ((d + divisions / 2) mod divisions) slices_colors []
        !! (2 * i)%nat = Some b ->
      unsigned_sample b ->
      arrange_line slices_colors d !! (L + i)%nat = Some (scaled_floor b)).
Proof.
  intros L divisions Hi.
  assert (L = 36%nat) as HL by reflexivity.
  unfold arrange_line. fold divisions. cbv zeta.
  set (line0 := replicate (Z.to_nat NUM_LEDS) (make_color 0 0 0)).
  assert (length line0 = 72%nat) as Hl0 by (subst line0; apply length_replicate).
  rewrite fill_second_half_step, fill_first_half_step. fold L.
  split.
  - intros a Ha Hu.
    rewrite fill_untouched by (intros j Hj; lia).
    replace (L - 1 - i)%nat with ((fun i => L - i - 1) i)%nat by (cbv beta; lia).
    rewrite <- sample_color_scaled_floor by exact Hu.
    apply (fill_lookup (fun i => L - i - 1)%nat (fun i => i * 2 + 1)%nat).
    + intros x y Hx Hy. cbv beta. lia.
    + exact Hi.
    + cbv beta. lia.
    + cbv beta. replace (i * 2 + 1)%nat with (2 * i + 1)%nat by lia. exact Ha.
  - intros b Hb Hu.
    rewrite <- sample_color_scaled_floor by exact Hu.
    apply (fill_lookup (fun i => L + i)%nat (fun i => i * 2)%nat).
    + intros x y Hx Hy. cbv beta. lia.
    + exact Hi.
    + cbv beta. rewrite fill_length. lia.
    + cbv beta. replace (i * 2)%nat with (2 * i)%nat by lia. exact Hb.
Qed.

(** On 8-bit channels the doubles scale as exact arithmetic does:
    [int(c * 0.3)] is the floor of the exact product. *)
Lemma f64_scale_channel_eight_bit (c : Z) :
  0 <= c <= 255 ->
  f64_scale_channel c = Qfloor (inject_Z c * BRIGHTNESS_RATIO).
Proof.
  intros Hc.
  assert (forallb (fun c => f64_scale_channel c
                            =? Qfloor (inject_Z c * BRIGHTNESS_RATIO))
                  (seqZ 0 256) = true) as H by (vm_compute; reflexivity).
  rewrite forallb_forall in H. apply Z.eqb_eq, H.
  apply list_elem_of_In, elem_of_seqZ. lia.
Qed.

Lemma eight_bit_unsigned (a : sample) : eight_bit_sample a -> unsigned_sample a.
Proof. destruct a as [[r g] b]. unfold eight_bit_sample, unsigned_sample. lia. Qed.

Lemma f64_sample_color_eight_bit (a : sample) :
  eight_bit_sample a -> f64_sample_color a = scaled_floor a.
Proof.
  destruct a as [[r g] b]. intros (Hr & Hg & Hb).
  unfold f64_sample_color, scaled_floor, make_color, LED_IS_GRB.
  rewrite !py_int_inject_Z, !f64_scale_channel_eight_bit by assumption.
  reflexivity.
Qed.

(** C7: in the arranged row of division [d], position [L - 1 - i] holds the
    sample of odd radial index [2 i + 1] of source division [d], and position
    [L + i] holds the sample of even radial index [2 i] of the antipodal
    division [(d + divisions / 2) mod divisions], each channel scaled by the
    brightness ratio and floored, for every table (hence for those with an
    even number of divisions) whose samples have 8-bit channels; on these
    the doubles of the code give the same colour. *)
Theorem arranged_row_mapping (slices_colors : raw_table) (d i : nat) :
  let L := num_leds_one_side in
  let divisions := length slices_colors in
  (d < divisions)%nat -> (i < L)%nat ->
  exists line,
    arrange_colors_for_display slices_colors !! d = Some line /\
    (forall a,
        nth d slices_colors [] !! (2 * i + 1)%nat = Some a ->
        eight_bit_sample a ->
        line !! (L - 1 - i)%nat = Some (scaled_floor a) /\
        f64_sample_color a = scaled_floor a) /\
    (forall b,
        nth ((d + divisions / 2) mod divisions) slices_colors []
          !! (2 * i)%nat = Some b ->
        eight_bit_sample b ->
        line !! (L + i)%nat = Some (scaled_floor b) /\
        f64_sample_color b = scaled_floor b).
Proof.
  intros L divisions Hd Hi. exists (arrange_line slices_colors d).
  split; [apply arrange_lookup; exact Hd|].
  destruct (arrange_line_mapping slices_colors d i Hi) as [HA HB].
  split.
  - intros a Ha H8. split.
    + apply HA; [exact Ha | apply eight_bit_unsigned; exact H8].
    + apply f64_sample_color_eight_bit. exact H8.
  - intros b Hb H8. split.
    + apply HB; [exact Hb | apply eight_bit_unsigned; exact H8].
    + apply f64_sample_color_eight_bit. exact H8.
Qed.

(** Division 3 and LED pair 5 of a synthetic table of 40 divisions. *)
Lemma arranged_row_mapping_witness :
  exists line,
    arrange_colors_for_display (synthetic_table 40 72) !! 3%nat = Some line /\
    (forall a,
        nth 3 (synthetic_table 40 72) [] !! 11%nat = Some a ->
        eight_bit_sample a ->
        line !! 30%nat = Some (scaled_floor a) /\
        f64_sample_color a = scaled_floor a) /\
    (forall b,
        nth 23 (synthetic_table 40 72) [] !! 10%nat = Some b ->
        eight_bit_sample b ->
        line !! 41%nat = Some (scaled_floor b) /\
        f64_sample_color b = scaled_floor b).
Proof.
  apply (arranged_row_mapping (synthetic_table 40 72) 3 5).
  - vm_compute. lia.
  - vm_compute. lia.
Defined.

(** Beyond 8 bits the agreement ends with the precision of the doubles: the
    channel [2^54 - 1] is not a double, and the code scales it to a value
    one above the floor of the exact product. *)
Example f64_scale_channel_large :
  f64_scale_channel 18014398509481983 = 5404319552844595 /\
  Qfloor (inject_Z 18014398509481983 * BRIGHTNESS_RATIO) = 5404319552844594.
Proof. vm_compute. split; reflexivity. Qed.

Lemma nth_map_seq {B} (f : nat -> B) (n d : nat) (def : B) :
  (d < n)%nat -> nth d (map f (seq 0 n)) def = f d.
Proof.
  intros H. rewrite nth_lookup, lookup_map, lookup_seq_lt by exact H.
  reflexivity.
Qed.

Lemma synthetic_table_lookup (divisions samples d k : nat) :
  (d < divisions)%nat -> (k < samples)%nat ->
  nth d (synthetic_table divisions samples) [] !! k
  = Some (Z.of_nat d, Z.of_nat k, 0).
Proof.
  intros Hd Hk. unfold synthetic_table.
  rewrite nth_map_seq by exact Hd.
  etransitivity; [apply lookup_map|].
  rewrite lookup_seq_lt by exact Hk. reflexivity.
Qed.

(** The round trip of a synthetic table: the arranged row of division [d]
    shows, at [L - 1 - i], the encoding of [(d, 2 i + 1)] and, at [L + i],
    the encoding of [((d + divisions / 2) mod divisions, 2 i)], scaled and
    floored. *)
Corollary synthetic_table_round_trip (divisions d i : nat) :
  let L := num_leds_one_side in
  let opposite := ((d + divisions / 2) mod divisions)%nat in
  let dim (c : nat) := Qfloor (inject_Z (Z.of_nat c) * BRIGHTNESS_RATIO) in
  (d < divisions)%nat -> (i < L)%nat ->
  exists line,
    arrange_colors_for_display (synthetic_table divisions 72) !! d = Some line /\
    line !! (L - 1 - i)%nat = Some (Color (dim (2 * i + 1)%nat) (dim d) 0) /\
    line !! (L + i)%nat = Some (Color (dim (2 * i)%nat) (dim opposite) 0).
Proof.
  intros L opposite dim Hd Hi.
  assert (L = 36%nat) as HL by reflexivity.
  assert (length (synthetic_table divisions 72) = divisions) as Hlen
    by (unfold synthetic_table; rewrite length_map, length_seq; reflexivity).
  destruct (arrange_line_mapping (synthetic_table divisions 72) d i Hi)
    as (HA & HB).
  rewrite Hlen in HB. fold L in HA, HB. fold opposite in HB.
  exists (arrange_line (synthetic_table divisions 72) d).
  split; [apply arrange_lookup; rewrite Hlen; exact Hd|]. split.
  - apply (HA (Z.of_nat d, Z.of_nat (2 * i + 1), 0)).
    + apply synthetic_table_lookup; lia.
    + unfold unsigned_sample. lia.
  - apply (HB (Z.of_nat opposite, Z.of_nat (2 * i), 0)).
    + apply synthetic_table_lookup; [|lia].
      subst opposite. apply Nat.mod_upper_bound. lia.
    + unfold unsigned_sample. lia.
Qed.

(** ** The mode controller (C8, C9) *)

Lemma default_circle_table :
  len (generate_circle_data 28 (0, 255, 255)) = NUM_DIVISIONS /\
  blank_table (generate_circle_data 28 (0, 255, 255)) = false /\
  Forall (fun line => length line = Z.to_nat NUM_LEDS /\
                      line !! 8%nat = Some (Color 76 0 76) /\
                      line !! 64%nat = Some (Color 76 0 76))
         (generate_circle_data 28 (0, 255, 255)).
Proof.
  split; [reflexivity|]. split; [reflexivity|].
  apply Forall_forall. intros line Hin.
  assert (generate_circle_data 28 (0, 255, 255)
          = replicate 40 (nth 0 (generate_circle_data 28 (0, 255, 255)) []))
    as E by (vm_compute; reflexivity).
  rewrite E in Hin. apply elem_of_replicate in Hin as [-> _].
  vm_compute. repeat split.
Qed.

(** C8: when the load of the requested static image fails, the call returns
    normally and the display table is the default circle (radius 28, cyan),
    which is the table [set_mode_circle] installs; it has one row per
    division and is not blank. *)
Theorem static_image_failure_shows_default_circle (w : world) (s : pov_state)
    (img_file : string) :
  py_index (static_images s) (current_static_index s) = Some img_file ->
  load_npy_image w (os_path_join STATIC_IMAGES_PATH img_file) = None ->
  exists s',
    set_mode_static_image w s = Some s' /\
    display_data s' = generate_circle_data 28 (0, 255, 255) /\
    display_data s' = display_data (set_mode_circle s) /\
    len (display_data s') = NUM_DIVISIONS /\
    blank_table (display_data s') = false.
Proof.
  intros Hidx Hload. unfold set_mode_static_image.
  assert (truthy (static_images s) = true) as Ht.
  { destruct (static_images s); [|reflexivity].
    unfold py_index in Hidx. simpl in Hidx.
    repeat match type of Hidx with
           | context [if ?c then _ else _] => destruct c
           end; discriminate. }
  rewrite Ht. simpl negb. cbv iota zeta.
  assert (forall x : pov_state,
             static_images (x <| current_mode := static_image |>) = static_images x /\
             current_static_index (x <| current_mode := static_image |>)
             = current_static_index x) as Hf
    by (intros x; destruct_state x; st_simpl; split; reflexivity).
  destruct (Hf s) as [-> ->]. rewrite Hidx, bind_Some_l, Hload.
  eexists. split; [reflexivity|].
  assert (forall (x : pov_state) (t : table), display_data (x <| display_data := t |>) = t)
    as Hd by (intros x t; destruct_state x; reflexivity).
  rewrite Hd. unfold set_mode_circle. rewrite Hd.
  split; [reflexivity|]. split; [reflexivity|].
  split; apply default_circle_table.
Qed.

(** The square is on display, the only listed image cannot be loaded. *)
Lemma static_image_failure_witness :
  let s := set_mode_square broken_world (startup broken_world) in
  exists s',
    set_mode_static_image broken_world s = Some s' /\
    display_data s' = generate_circle_data 28 (0, 255, 255) /\
    display_data s' = display_data (set_mode_circle s) /\
    len (display_data s') = NUM_DIVISIONS /\
    blank_table (display_data s') = false.
Proof.
  intros s.
  apply (static_image_failure_shows_default_circle broken_world s "logo.npy").
  - vm_compute. reflexivity.
  - vm_compute. reflexivity.
Defined.

(** In circle mode [cycle_content] picks the palette entry numbered by the
    rotation counter; nothing else of the state enters the choice. *)
Lemma cycle_content_circle (w : world) (s : pov_state) :
  current_mode s = circle ->
  exists color_rgb,
    circle_colors !! Z.to_nat (rotation_count s mod 4) = Some color_rgb /\
    cycle_content w s
    = Some (s <| display_data := generate_circle_data 28 color_rgb |>).
Proof.
  intros Hm. unfold cycle_content. rewrite Hm. cbn [mode_eqb andb].
  pose proof (Z.mod_pos_bound (rotation_count s) 4 ltac:(lia)) as Hb.
  change (len circle_colors) with 4.
  unfold py_index.
  destruct (0 <=? rotation_count s mod 4) eqn:E; [|apply Z.leb_gt in E; lia].
  destruct (circle_colors !! Z.to_nat (rotation_count s mod 4)) as [c|] eqn:Ec.
  - exists c. split; reflexivity.
  - apply lookup_ge_None in Ec. simpl in Ec. lia.
Qed.

(** C9 on the code: after start-up the circle is cyan, the palette's entry 0,
    and the rotation counter is 0.  The circle button is pressed, released
    and pressed again while the fan stands still: both presses regenerate
    the circle with entry 0, so the colour never leaves cyan, where the
    palette's next entries are yellow and magenta. *)
Theorem circle_press_repeats_color (w : world) :
  let s0 := startup w in
  exists s1 s2 s3,
    check_buttons w LOW HIGH HIGH 1 s0 = Some s1 /\
    check_buttons w HIGH HIGH HIGH 2 s1 = Some s2 /\
    check_buttons w LOW HIGH HIGH 3 s2 = Some s3 /\
    current_mode s0 = circle /\ rotation_count s0 = 0 /\
    display_data s0 = generate_circle_data 28 (0, 255, 255) /\
    display_data s1 = generate_circle_data 28 (0, 255, 255) /\
    display_data s3 = generate_circle_data 28 (0, 255, 255) /\
    circle_colors = [(0, 255, 255); (255, 255, 0); (255, 0, 255); (0, 255, 0)].
Proof.
  cbv zeta. do 3 eexists.
  split; [vm_compute; reflexivity|].
  split; [vm_compute; reflexivity|].
  split; [vm_compute; reflexivity|].
  repeat split.
Qed.

(** ** The RPM estimate over a run (C10) *)

Lemma same_rpm_refl (s : pov_state) : same_rpm s s.
Proof. split; reflexivity. Qed.

Lemma same_rpm_trans (s1 s2 s3 : pov_state) :
  same_rpm s1 s2 -> same_rpm s2 s3 -> same_rpm s1 s3.
Proof. intros [H1 H2] [H3 H4]. split; congruence. Qed.

Lemma set_mode_circle_same_rpm (s : pov_state) : same_rpm s (set_mode_circle s).
Proof. unfold set_mode_circle. same_rpm_updates. Qed.

Lemma set_mode_square_same_rpm (w : world) (s : pov_state) :
  same_rpm s (set_mode_square w s).
Proof. unfold set_mode_square. same_rpm_updates. Qed.

Lemma set_mode_static_image_same_rpm (w : world) (s s' : pov_state) :
  set_mode_static_image w s = Some s' -> same_rpm s s'.
Proof.
  unfold set_mode_static_image.
  destruct (negb _); [intros [= <-]; apply same_rpm_refl|].
  destruct (py_index _ _) as [img|]; [|discriminate].
  rewrite bind_Some_l.
  destruct (load_npy_image _ _) as [[|? ?]|]; intros [= <-]; same_rpm_updates.
Qed.

Lemma load_gif_sequence_same_rpm (w : world) (name : string) (s : pov_state) :
  same_rpm s (fst (load_gif_sequence w name s)).
Proof.
  unfold load_gif_sequence. destruct (listdir _ _); [|apply same_rpm_refl].
  destruct (truthy _); [|apply same_rpm_refl].
  cbn [fst]. same_rpm_updates.
Qed.

Lemma set_mode_gif_sequence_same_rpm (w : world) (s s' : pov_state) :
  set_mode_gif_sequence w s = Some s' -> same_rpm s s'.
Proof.
  unfold set_mode_gif_sequence.
  destruct (negb _); [intros [= <-]; apply same_rpm_refl|].
  destruct (py_index _ _) as [name|]; [|discriminate].
  rewrite bind_Some_l.
  pose proof (load_gif_sequence_same_rpm w name
                (s <| current_mode := gif_sequence |>)) as Hl.
  destruct (load_gif_sequence _ _ _) as [s1 loaded]. cbn [fst] in Hl.
  assert (same_rpm s s1) as Hs1.
  { eapply same_rpm_trans; [|exact Hl]. same_rpm_updates. }
  destruct loaded as [[|? ?]|].
  - intros [= <-]. eapply same_rpm_trans; [exact Hs1|]. same_rpm_updates.
  - destruct (py_index _ _); [|discriminate]. rewrite bind_Some_l.
    intros [= <-]. eapply same_rpm_trans; [exact Hs1|]. same_rpm_updates.
  - intros [= <-]. eapply same_rpm_trans; [exact Hs1|]. same_rpm_updates.
Qed.

Lemma cycle_content_same_rpm (w : world) (s s' : pov_state) :
  cycle_content w s = Some s' -> same_rpm s s'.
Proof.
  unfold cycle_content.
  destruct (_ && _).
  { intros H. apply set_mode_static_image_same_rpm in H.
    eapply same_rpm_trans; [|exact H]. same_rpm_updates. }
  destruct (_ && _).
  { intros H. apply set_mode_gif_sequence_same_rpm in H.
    eapply same_rpm_trans; [|exact H]. same_rpm_updates. }
  destruct (mode_eqb _ circle).
  { destruct (py_index _ _); [|discriminate]. rewrite bind_Some_l.
    intros [= <-]. same_rpm_updates. }
  destruct (mode_eqb _ square).
  { destruct (py_index _ _); [|discriminate]. rewrite bind_Some_l.
    intros [= <-]. same_rpm_updates. }
  intros [= <-]. apply same_rpm_refl.
Qed.

Lemma check_button_circle_same_rpm (w : world) (pin : level) (t : Q)
    (s s' : pov_state) :
  check_button_circle w pin t s = Some s' -> same_rpm s s'.
Proof.
  unfold check_button_circle.
  assert (forall x, same_rpm x (x <| last_state_circle := pin |>)) as Hlast
    by (intros x; same_rpm_updates).
  destruct (_ && _); [|rewrite bind_Some_l; intros [= <-]; apply Hlast].
  destruct (Qltb _ _); [|rewrite bind_Some_l; intros [= <-]; apply Hlast].
  destruct (mode_eqb _ _).
  - destruct (cycle_content w s) as [s1|] eqn:E; [|discriminate].
    apply cycle_content_same_rpm in E. rewrite !bind_Some_l. intros [= <-].
    eapply same_rpm_trans; [exact E|].
    eapply same_rpm_trans; [|apply Hlast]. same_rpm_updates.
  - rewrite !bind_Some_l. intros [= <-].
    eapply same_rpm_trans; [apply set_mode_circle_same_rpm|].
    eapply same_rpm_trans; [|apply Hlast]. same_rpm_updates.
Qed.

Lemma check_button_square_same_rpm (w : world) (pin : level) (t : Q)
    (s s' : pov_state) :
  check_button_square w pin t s = Some s' -> same_rpm s s'.
Proof.
  unfold check_button_square.
  assert (forall x, same_rpm x (x <| last_state_square := pin |>)) as Hlast
    by (intros x; same_rpm_updates).
  destruct (_ && _); [|rewrite bind_Some_l; intros [= <-]; apply Hlast].
  destruct (Qltb _ _); [|rewrite bind_Some_l; intros [= <-]; apply Hlast].
  destruct (mode_eqb _ _).
  - destruct (cycle_content w s) as [s1|] eqn:E; [|discriminate].
    apply cycle_content_same_rpm in E. rewrite !bind_Some_l. intros [= <-].
    eapply same_rpm_trans; [exact E|].
    eapply same_rpm_trans; [|apply Hlast]. same_rpm_updates.
  - rewrite !bind_Some_l. intros [= <-].
    eapply same_rpm_trans; [apply (set_mode_square_same_rpm w)|].
    eapply same_rpm_trans; [|apply Hlast]. same_rpm_updates.
Qed.

Lemma check_button_image_same_rpm (w : world) (pin : level) (t : Q)
    (s s' : pov_state) :
  check_button_image w pin t s = Some s' -> same_rpm s s'.
Proof.
  unfold check_button_image.
  assert (forall x, same_rpm x (x <| last_state_image := pin |>)) as Hlast
    by (intros x; same_rpm_updates).
  assert (forall x, same_rpm x (x <| current_static_index := 0 |>)) as Hidx
    by (intros x; same_rpm_updates).
  destruct (_ && _); [|rewrite bind_Some_l; intros [= <-]; apply Hlast].
  destruct (Qltb _ _); [|rewrite bind_Some_l; intros [= <-]; apply Hlast].
  match goal with
  | |- ((?m ≫= _) ≫= _) = _ -> _ =>
      destruct m as [s1|] eqn:E; [|discriminate];
      assert (same_rpm s s1) as Hs1
  end.
  { revert E. repeat break_if; intros E;
      first [ apply cycle_content_same_rpm in E; exact E
            | apply set_mode_gif_sequence_same_rpm in E; exact E
            | apply set_mode_static_image_same_rpm in E;
              eapply same_rpm_trans; [apply Hidx | exact E] ]. }
  rewrite !bind_Some_l. intros [= <-].
  eapply same_rpm_trans; [exact Hs1|].
  eapply same_rpm_trans; [|apply Hlast]. same_rpm_updates.
Qed.

Lemma check_buttons_same_rpm (w : world) (c q i : level) (t : Q)
    (s s' : pov_state) :
  check_buttons w c q i t s = Some s' -> same_rpm s s'.
Proof.
  unfold check_buttons.
  destruct (check_button_circle w c t s) as [s1|] eqn:E1; [|discriminate].
  rewrite bind_Some_l.
  destruct (check_button_square w q t s1) as [s2|] eqn:E2; [|discriminate].
  rewrite bind_Some_l. intros E3.
  apply check_button_circle_same_rpm in E1.
  apply check_button_square_same_rpm in E2.
  apply check_button_image_same_rpm in E3.
  eauto using same_rpm_trans.
Qed.

Lemma busy_wait_same_rpm (target_time : Z) (clock clock' : list tick)
    (s s' : pov_state) :
  busy_wait target_time clock s = Some (s', clock') -> same_rpm s s'.
Proof.
  revert s. induction clock as [|t clock IH]; intros s; [discriminate|].
  cbn [busy_wait]. destruct (_ <? _).
  - intros H. apply IH in H. eapply same_rpm_trans; [|exact H].
    same_rpm_updates.
  - intros [= <- <-]. same_rpm_updates.
Qed.

Lemma get_time_micros_same_rpm (clock clock' : list tick) (s s' : pov_state)
    (now : Z) :
  get_time_micros clock s = Some (now, s', clock') -> same_rpm s s'.
Proof.
  destruct clock as [|t clock]; [discriminate|].
  rewrite get_time_micros_cons. intros [= _ <- _]. same_rpm_updates.
Qed.

Lemma display_current_line_same_rpm (clock clock' : list tick)
    (s s' : pov_state) :
  display_current_line clock s = Some (s', clock') -> same_rpm s s'.
Proof.
  unfold display_current_line.
  destruct (_ || _); [intros [= <- _]; apply same_rpm_refl|].
  match goal with
  | |- (frame_to_display ?x ≫= _) = _ -> _ =>
      assert (same_rpm s x) as H0 by same_rpm_updates; set (s0 := x) in *
  end.
  destruct (frame_to_display s0) as [frame_data|]; [|discriminate].
  rewrite bind_Some_l.
  destruct (get_time_micros clock s0) as [[[t0 s1] clock1]|] eqn:E1;
    [|discriminate].
  apply get_time_micros_same_rpm in E1. rewrite bind_Some_l. cbv beta iota.
  destruct (get_time_micros clock1 s1) as [[[t1 s2] clock2]|] eqn:E2;
    [|discriminate].
  apply get_time_micros_same_rpm in E2. rewrite bind_Some_l. cbv beta iota zeta.
  assert (same_rpm s s2) as H2 by eauto using same_rpm_trans.
  match goal with
  | |- (?m ≫= _) = _ -> _ =>
      destruct m as [[s3 clock3]|] eqn:E3; [|discriminate];
      assert (same_rpm s2 s3) as H3
  end.
  { revert E3. destruct (0 <? _).
    - destruct (get_time_micros clock2 s2) as [[[t2 s2'] clock2']|] eqn:E;
        [|discriminate].
      apply get_time_micros_same_rpm in E. rewrite bind_Some_l. cbv beta iota zeta.
      intros E3. apply busy_wait_same_rpm in E3. eauto using same_rpm_trans.
    - destruct (_ <? -1000); [|intros [= <- _]; apply same_rpm_refl].
      destruct (py_truediv _ _); [|discriminate]. rewrite bind_Some_l.
      cbv zeta. destruct (0 <? _); intros [= <- _];
        [same_rpm_updates | apply same_rpm_refl]. }
  rewrite bind_Some_l. cbv beta iota zeta. intros [= <- _].
  eapply same_rpm_trans; [exact H2|].
  eapply same_rpm_trans; [exact H3|]. same_rpm_updates.
Qed.

Lemma same_rpm_within_bounds (s s' : pov_state) :
  same_rpm s s' -> rpm_within_bounds s -> rpm_within_bounds s'.
Proof.
  intros [E1 E2] H. unfold rpm_within_bounds in *. rewrite E1, E2. exact H.
Qed.

Lemma startup_within_bounds (w : world) : rpm_within_bounds (startup w).
Proof.
  apply (same_rpm_within_bounds initial_state).
  - unfold startup, discover_gif_sequences, discover_static_images,
      initial_state.
    unfold same_rpm, set_mode_circle. st_simpl. split; reflexivity.
  - unfold rpm_within_bounds, initial_state. st_simpl.
    split; [constructor|]. split; [discriminate|].
    split; discriminate.
Qed.

Lemma instant_rpm_bounds (t : Z) (s : pov_state) :
  period_in_range t s ->
  (inject_Z MIN_RPM <= instant_rpm_of t s <= inject_Z MAX_RPM)%Q.
Proof.
  unfold period_in_range, instant_rpm_of.
  rewrite min_rotation_time_eq, max_rotation_time_eq. intros [H1 H2].
  assert (40000 <= inject_Z (period t s) <= 300000)%Q as [Q1 Q2].
  { split.
    - change 40000%Q with (inject_Z 40000). rewrite <- Zle_Qle. exact H1.
    - change 300000%Q with (inject_Z 300000). rewrite <- Zle_Qle. exact H2. }
  change (inject_Z MIN_RPM) with 200%Q. change (inject_Z MAX_RPM) with 1500%Q.
  split.
  - apply Qle_shift_div_l; lra.
  - apply Qle_shift_div_r; lra.
Qed.

Lemma within_bounds_nonzero (r : Q) :
  (inject_Z MIN_RPM <= r <= inject_Z MAX_RPM)%Q -> (0 < r)%Q /\ ~ (r == 0)%Q.
Proof.
  change (inject_Z MIN_RPM) with 200%Q. intros [H _]. split; [lra|].
  intros E. rewrite E in H. lra.
Qed.

(** The pulse handler keeps the RPM part of the state within bounds. *)
Lemma check_hall_sensor_within_bounds (cs : level) (t : Z) (s s' : pov_state) :
  rpm_within_bounds s -> check_hall_sensor cs t s = Some s' ->
  rpm_within_bounds s'.
Proof.
  intros Hinv H.
  destruct (hall_unchanged_or_accepted cs t s s' H)
    as [(Hh & Hs & _) | (-> & Hl & Hd & Hlast & Hr & Ho)].
  { apply (same_rpm_within_bounds s); [split|]; assumption. }
  destruct (hall_accepted t s s' Hl Hd Hlast Hr Ho H) as ([Hh _] & Hs & _).
  destruct Hinv as (Hw & Hlen & _).
  pose proof (instant_rpm_bounds t s Hr) as Hi.
  pose proof (push_history_within _ _ _ _ Hi Hw) as Hw'.
  pose proof (push_history_length (instant_rpm_of t s) _ Hlen) as Hlen'.
  pose proof (push_history_nonempty (instant_rpm_of t s) _ Hlen) as Hne.
  rewrite <- Hh in Hw', Hlen', Hne.
  destruct (smooth_rpm_bounds _ _ (instant_rpm_of t s) _ Hw' Hne) as (r & Er & Hb).
  rewrite Er in Hs. injection Hs as ->.
  split; [exact Hw'|]. split; [lia | exact Hb].
Qed.

(** Within bounds, the pulse handler never divides by zero. *)
Lemma check_hall_sensor_total (cs : level) (t : Z) (s : pov_state) :
  rpm_within_bounds s -> exists s', check_hall_sensor cs t s = Some s'.
Proof.
  intros (Hw & Hlen & _).
  destruct (decide (rising_edge cs s)) as [[-> Hl]|Hn].
  2:{ eexists. apply hall_no_edge. exact Hn. }
  destruct (Z_lt_dec (t - last_hall_trigger_time s) HALL_DEBOUNCE_US) as [Hd|Hd].
  { eexists. apply hall_debounce; assumption. }
  destruct (Z_lt_dec 0 (last_rotation_micros s)) as [Hlast|Hlast].
  2:{ eexists. apply hall_first_pulse; assumption || lia. }
  destruct (decide (period_in_range t s)) as [Hr|Hr].
  2:{ eexists. apply hall_out_of_range; assumption || split; assumption. }
  rewrite hall_valid_period by assumption. cbv zeta.
  pose proof (instant_rpm_bounds t s Hr) as Hi.
  assert (exists jump : bool,
             (if 3 <=? len (rpm_history s)
              then ratio ← py_truediv
                             (Qabs (instant_rpm_of t s - mean (rpm_history s)))
                             (mean (rpm_history s));
                   Some (Qltb (inject_Z MAX_RPM_CHANGE_PERCENT) (ratio * 100))
              else Some false) = Some jump) as [jump ->].
  { destruct (3 <=? len (rpm_history s)) eqn:E3; [|eexists; reflexivity].
    apply Z.leb_le in E3.
    assert (rpm_history s <> []) as Hne
      by (intros E; rewrite E in E3; unfold len in E3; simpl in E3; lia).
    destruct (within_bounds_nonzero _ (mean_bounds _ _ _ Hw Hne)) as [_ Hm].
    rewrite (py_truediv_Some _ _ Hm), bind_Some_l. eexists. reflexivity. }
  rewrite bind_Some_l. destruct jump; [eexists; reflexivity|].
  pose proof (push_history_within _ _ _ _ Hi Hw) as Hw'.
  pose proof (push_history_nonempty (instant_rpm_of t s) _ Hlen) as Hne.
  destruct (smooth_rpm_bounds _ _ (instant_rpm_of t s) _ Hw' Hne) as (r & -> & Hb).
  rewrite bind_Some_l.
  destruct (within_bounds_nonzero _ Hb) as [_ Hr0].
  rewrite (py_truediv_Some _ _ Hr0), bind_Some_l. eexists. reflexivity.
Qed.

Lemma reachable_within_bounds (w : world) (s : pov_state) :
  reachable w s -> rpm_within_bounds s.
Proof.
  induction 1 as [| s s' c q i t _ IH H | s s' cs t _ IH H
                  | s s' clock clock' _ IH H].
  - apply startup_within_bounds.
  - apply (same_rpm_within_bounds s); [|exact IH].
    apply (check_buttons_same_rpm w c q i t). exact H.
  - apply (check_hall_sensor_within_bounds cs t s); assumption.
  - apply (same_rpm_within_bounds s); [|exact IH].
    apply (display_current_line_same_rpm clock clock'). exact H.
Qed.

(** C10: in every state of a run, every value of the RPM history lies in
    [[MIN_RPM, MAX_RPM]], the history holds at most [RPM_HISTORY_SIZE]
    values, the smoothed RPM lies in [[MIN_RPM, MAX_RPM]] and is positive,
    and the next call of the pulse handler returns: neither the timing
    derivation [60e6 / smoothed_rpm] nor the outlier mean divides by
    zero. *)
Theorem rpm_estimate_within_bounds (w : world) (s : pov_state) :
  reachable w s ->
  all_within (inject_Z MIN_RPM) (inject_Z MAX_RPM) (rpm_history s) /\
  len (rpm_history s) <= RPM_HISTORY_SIZE /\
  (inject_Z MIN_RPM <= stable_rpm s <= inject_Z MAX_RPM)%Q /\
  (0 < stable_rpm s)%Q /\
  (forall (current_state : level) (current_time : Z),
      exists s', check_hall_sensor current_state current_time s = Some s').
Proof.
  intros Hr. pose proof (reachable_within_bounds w s Hr) as Hinv.
  destruct Hinv as (Hw & Hlen & Hs).
  split; [exact Hw|]. split; [exact Hlen|]. split; [exact Hs|].
  split; [apply (within_bounds_nonzero _ Hs)|].
  intros cs t. apply check_hall_sensor_total. repeat split; assumption || apply Hs.
Qed.

(** Two revolutions after start-up: the second pulse comes 120000
    microseconds after the first and puts 500 RPM into the history. *)
Lemma rpm_estimate_within_bounds_witness :
  let s := full_pulse 2120000 (full_pulse 2000000 (startup broken_world)) in
  rpm_history s = [60000000 # 120000]%Q /\
  all_within (inject_Z MIN_RPM) (inject_Z MAX_RPM) (rpm_history s) /\
  len (rpm_history s) <= RPM_HISTORY_SIZE /\
  (inject_Z MIN_RPM <= stable_rpm s <= inject_Z MAX_RPM)%Q /\
  (0 < stable_rpm s)%Q /\
  (forall (current_state : level) (current_time : Z),
      exists s', check_hall_sensor current_state current_time s = Some s').
Proof.
  intros s. split; [reflexivity|].
  apply (rpm_estimate_within_bounds broken_world s).
  apply (reach_hall broken_world
           (after_pulse 2120000 (full_pulse 2000000 (startup broken_world)))
           s LOW 2121000); [|vm_compute; reflexivity].
  apply (reach_hall broken_world (full_pulse 2000000 (startup broken_world))
           _ HIGH 2120000); [|vm_compute; reflexivity].
  apply (reach_hall broken_world (after_pulse 2000000 (startup broken_world))
           _ LOW 2001000); [|vm_compute; reflexivity].
  apply (reach_hall broken_world (startup broken_world)
           _ HIGH 2000000); [|vm_compute; reflexivity].
  apply reach_startup.
Defined.

(** * The module as a whole *)

(** ** Relations kept by the routines

    A relation between states that is reflexive, transitive and kept by the
    record updates a routine makes is kept by the routine.  The sections
    below prove this once for [display_current_line], for
    [check_hall_sensor], for the mode routines and for [check_buttons]. *)

Lemma Some_eq_inv {A} (a b : A) : Some a = Some b -> a = b.
Proof. congruence. Qed.

Lemma Some_pair_inv {A B} (a a' : A) (b b' : B) :
  Some (a, b) = Some (a', b') -> a = a' /\ b = b'.
Proof. intros H. split; congruence. Qed.

Lemma Some_triple_inv {A B C} (a a' : A) (b b' : B) (c c' : C) :
  Some (a, b, c) = Some (a', b', c') -> a = a' /\ b = b' /\ c = c'.
Proof. intros H. repeat split; congruence. Qed.

Section DisplayKeeps.
Context (R : pov_state -> pov_state -> Prop).
Context (R_refl : forall x, R x x).
Context (R_trans : forall x y z, R x y -> R y z -> R x z).
Context (R_event : forall x v, R x (x <| rotation_end_event := v |>)).
Context (R_line : forall x v, R x (x <| current_line := v |>)).
Context (R_missed : forall x v, R x (x <| missed_lines_count := v |>)).

Lemma busy_wait_keeps (target_time : Z) (clock clock' : list tick)
    (s s' : pov_state) :
  busy_wait target_time clock s = Some (s', clock') -> R s s'.
Proof.
  revert s. induction clock as [|t clock IH]; intros s; [discriminate|].
  cbn [busy_wait]. cbv zeta. destruct (_ <? _).
  - intros H. apply IH in H. eapply R_trans; [|exact H]. apply R_event.
  - intros H. apply Some_pair_inv in H as [<- _]. apply R_event.
Qed.

Lemma get_time_micros_keeps (clock clock' : list tick) (s s' : pov_state)
    (now : Z) :
  get_time_micros clock s = Some (now, s', clock') -> R s s'.
Proof.
  destruct clock as [|t clock]; [discriminate|].
  rewrite get_time_micros_cons. intros H.
  apply Some_triple_inv in H as (_ & <- & _). apply R_event.
Qed.

Lemma display_current_line_keeps (clock clock' : list tick)
    (s s' : pov_state) :
  display_current_line clock s = Some (s', clock') -> R s s'.
Proof.
  unfold display_current_line.
  destruct (_ || _); [intros H; apply Some_pair_inv in H as [<- _]; apply R_refl|].
  match goal with
  | |- (frame_to_display ?x ≫= _) = _ -> _ =>
      assert (R s x) as H0; [|set (s0 := x) in *]
  end.
  { destruct (rotation_end_event s); [|apply R_refl].
    eapply R_trans; [apply R_event | apply R_line]. }
  destruct (frame_to_display s0) as [frame_data|]; [|discriminate].
  rewrite bind_Some_l.
  destruct (get_time_micros clock s0) as [[[t0 s1] clock1]|] eqn:E1;
    [|discriminate].
  apply get_time_micros_keeps in E1. rewrite bind_Some_l. cbv beta iota.
  destruct (get_time_micros clock1 s1) as [[[t1 s2] clock2]|] eqn:E2;
    [|discriminate].
  apply get_time_micros_keeps in E2. rewrite bind_Some_l. cbv beta iota zeta.
  assert (R s s2) as H2 by eauto.
  match goal with
  | |- (?m ≫= _) = _ -> _ =>
      destruct m as [[s3 clock3]|] eqn:E3; [|discriminate];
      assert (R s2 s3) as H3
  end.
  { revert E3. destruct (0 <? _).
    - destruct (get_time_micros clock2 s2) as [[[t2 s2'] clock2']|] eqn:E;
        [|discriminate].
      apply get_time_micros_keeps in E. rewrite bind_Some_l. cbv beta iota zeta.
      intros E3. apply busy_wait_keeps in E3. eauto.
    - destruct (_ <? -1000);
        [|intros H; apply Some_pair_inv in H as [<- _]; apply R_refl].
      destruct (py_truediv _ _); [|discriminate]. rewrite bind_Some_l.
      cbv zeta. destruct (0 <? _); intros H; apply Some_pair_inv in H as [<- _].
      + eapply R_trans; [apply R_line | apply R_missed].
      + apply R_refl. }
  rewrite bind_Some_l. cbv beta iota zeta. intros H.
  eapply R_trans; [exact H2|]. eapply R_trans; [exact H3|].
  revert H. destruct (_ <=? _); intros H; apply Some_pair_inv in H as [<- _].
  - eapply R_trans; [apply R_line | apply R_line].
  - apply R_line.
Qed.
End DisplayKeeps.

Section HallKeeps.
Context (R : pov_state -> pov_state -> Prop).
Context (R_refl : forall x, R x x).
Context (R_trans : forall x y z, R x y -> R y z -> R x z).
Context (R_hall_state : forall x v, R x (x <| last_hall_state := v |>)).
Context (R_noise : forall x v, R x (x <| noise_rejected_count := v |>)).
Context (R_trigger : forall x v, R x (x <| last_hall_trigger_time := v |>)).
Context (R_event : forall x v, R x (x <| rotation_end_event := v |>)).
Context (R_line : forall x v, R x (x <| current_line := v |>)).
Context (R_count : forall x v, R x (x <| rotation_count := v |>)).
Context (R_last : forall x v, R x (x <| last_rotation_micros := v |>)).
Context (R_history : forall x v, R x (x <| rpm_history := v |>)).
Context (R_valid : forall x v, R x (x <| valid_rotation_count := v |>)).
Context (R_stable : forall x v, R x (x <| stable_rpm := v |>)).
Context (R_current : forall x v, R x (x <| current_rpm := v |>)).
Context (R_rotation : forall x v, R x (x <| rotation_time_micros := v |>)).
Context (R_per_line : forall x v, R x (x <| time_per_line_micros := v |>)).
Context (R_frame : forall x v, R x (x <| current_frame_index := v |>)).
Context (R_active : forall x v, R x (x <| rotation_active := v |>)).

Lemma reject_pulse_keeps (cs : level) (t : Z) (x : pov_state) :
  R x (reject_pulse cs t x).
Proof. unfold reject_pulse. keep_updates. Qed.

Lemma finish_pulse_keeps (cs : level) (t : Z) (x : pov_state) :
  R x (finish_pulse cs t x).
Proof.
  unfold finish_pulse. cbv zeta.
  destruct (_ && _); [destruct (_ =? _)|]; keep_updates.
Qed.

Lemma check_hall_sensor_keeps (cs : level) (t : Z) (s s' : pov_state) :
  check_hall_sensor cs t s = Some s' -> R s s'.
Proof.
  intros H.
  assert (R s (s <| last_hall_trigger_time := t |> <| rotation_end_event := true |>))
    as H1 by keep_updates.
  destruct (decide (rising_edge cs s)) as [[-> Hl]|Hn].
  2:{ rewrite hall_no_edge in H by assumption.
      apply Some_eq_inv in H as <-. keep_updates. }
  destruct (Z_lt_dec (t - last_hall_trigger_time s) HALL_DEBOUNCE_US) as [Hd|Hd].
  { rewrite hall_debounce in H by assumption.
    apply Some_eq_inv in H as <-. keep_updates. }
  destruct (Z_lt_dec 0 (last_rotation_micros s)) as [Hlast|Hlast].
  2:{ rewrite hall_first_pulse in H by (assumption || lia).
      apply Some_eq_inv in H as <-.
      eapply R_trans; [exact H1 | apply finish_pulse_keeps]. }
  destruct (decide (period_in_range t s)) as [Hr|Hr].
  2:{ rewrite hall_out_of_range in H by (assumption || split; assumption).
      apply Some_eq_inv in H as <-.
      eapply R_trans; [exact H1 | apply reject_pulse_keeps]. }
  rewrite hall_valid_period in H by assumption. cbv zeta in H.
  match type of H with
  | (?m ≫= _) = _ => destruct m as [jump|]; [|discriminate]
  end.
  rewrite bind_Some_l in H. destruct jump.
  { apply Some_eq_inv in H as <-.
    eapply R_trans; [exact H1 | apply reject_pulse_keeps]. }
  destruct (smooth_rpm _ _) as [stable|]; [|discriminate].
  rewrite bind_Some_l in H.
  destruct (py_truediv 60000000 stable) as [rt|]; [|discriminate].
  rewrite bind_Some_l in H. apply Some_eq_inv in H as <-.
  eapply R_trans; [|apply finish_pulse_keeps].
  eapply R_trans; [exact H1|]. keep_updates.
Qed.
End HallKeeps.

Section ModeKeeps.
Context (w : world).
Context (R : pov_state -> pov_state -> Prop).
Context (R_refl : forall x, R x x).
Context (R_trans : forall x y z, R x y -> R y z -> R x z).
Context (R_mode : forall x v, R x (x <| current_mode := v |>)).
Context (R_data : forall x v, R x (x <| display_data := v |>)).
Context (R_static : forall x v, R x (x <| current_static_index := v |>)).
Context (R_gif : forall x v, R x (x <| current_gif_index := v |>)).
Context (R_frames : forall x v, R x (x <| sequence_colors := v |>)).
Context (R_frame : forall x v, R x (x <| current_frame_index := v |>)).

Lemma set_mode_circle_keeps (s : pov_state) : R s (set_mode_circle s).
Proof. unfold set_mode_circle. keep_updates. Qed.

Lemma set_mode_square_keeps (s : pov_state) : R s (set_mode_square w s).
Proof. unfold set_mode_square. keep_updates. Qed.

Lemma set_mode_static_image_keeps (s s' : pov_state) :
  set_mode_static_image w s = Some s' -> R s s'.
Proof.
  unfold set_mode_static_image.
  destruct (negb _); [intros H; apply Some_eq_inv in H as <-; apply R_refl|].
  cbv zeta. destruct (py_index _ _) as [img|]; [|discriminate].
  rewrite bind_Some_l.
  destruct (load_npy_image _ _) as [[|? ?]|]; intros H;
    apply Some_eq_inv in H as <-; keep_updates.
Qed.

Lemma load_gif_sequence_keeps (name : string) (s : pov_state) :
  R s (fst (load_gif_sequence w name s)).
Proof.
  unfold load_gif_sequence. cbv zeta. destruct (listdir _ _); [|apply R_refl].
  destruct (truthy _); [|apply R_refl].
  cbn [fst]. keep_updates.
Qed.

Lemma set_mode_gif_sequence_keeps (s s' : pov_state) :
  set_mode_gif_sequence w s = Some s' -> R s s'.
Proof.
  unfold set_mode_gif_sequence.
  destruct (negb _); [intros H; apply Some_eq_inv in H as <-; apply R_refl|].
  cbv zeta. destruct (py_index _ _) as [name|]; [|discriminate].
  rewrite bind_Some_l.
  pose proof (load_gif_sequence_keeps name
                (s <| current_mode := gif_sequence |>)) as Hl.
  destruct (load_gif_sequence _ _ _) as [s1 loaded]. cbn [fst] in Hl.
  assert (R s s1) as Hs1 by (eapply R_trans; [apply R_mode | exact Hl]).
  destruct loaded as [[|? ?]|].
  - intros H; apply Some_eq_inv in H as <-. eapply R_trans; [exact Hs1|]. keep_updates.
  - destruct (py_index _ _); [|discriminate]. rewrite bind_Some_l.
    intros H; apply Some_eq_inv in H as <-. eapply R_trans; [exact Hs1|]. keep_updates.
  - intros H; apply Some_eq_inv in H as <-. eapply R_trans; [exact Hs1|]. keep_updates.
Qed.

Lemma cycle_content_keeps (s s' : pov_state) :
  cycle_content w s = Some s' -> R s s'.
Proof.
  unfold cycle_content.
  destruct (_ && _).
  { intros H. apply set_mode_static_image_keeps in H.
    eapply R_trans; [apply R_static | exact H]. }
  destruct (_ && _).
  { intros H. apply set_mode_gif_sequence_keeps in H.
    eapply R_trans; [apply R_gif | exact H]. }
  destruct (mode_eqb _ circle).
  { destruct (py_index _ _); [|discriminate]. rewrite bind_Some_l.
    intros H; apply Some_eq_inv in H as <-. keep_updates. }
  destruct (mode_eqb _ square).
  { destruct (py_index _ _); [|discriminate]. rewrite bind_Some_l.
    intros H; apply Some_eq_inv in H as <-. keep_updates. }
  intros H; apply Some_eq_inv in H as <-. apply R_refl.
Qed.

(** The body of the image button: which content routine runs. *)
Lemma image_press_keeps (s s' : pov_state) :
  (if mode_eqb (current_mode s) static_image then
     if truthy (static_images s)
        && (current_static_index s <? len (static_images s) - 1)
     then cycle_content w s
     else set_mode_gif_sequence w s
   else if mode_eqb (current_mode s) gif_sequence then
     if truthy (gif_sequences s)
        && (current_gif_index s <? len (gif_sequences s) - 1)
     then cycle_content w s
     else set_mode_static_image w (s <| current_static_index := 0 |>)
   else set_mode_static_image w (s <| current_static_index := 0 |>)) = Some s' ->
  R s s'.
Proof.
  repeat break_if; intros E;
    first [ apply cycle_content_keeps in E; exact E
          | apply set_mode_gif_sequence_keeps in E; exact E
          | apply set_mode_static_image_keeps in E;
            eapply R_trans; [apply R_static | exact E] ].
Qed.
End ModeKeeps.

Section ButtonKeeps.
Context (w : world).
Context (R : pov_state -> pov_state -> Prop).
Context (R_refl : forall x, R x x).
Context (R_trans : forall x y z, R x y -> R y z -> R x z).
Context (R_mode : forall x v, R x (x <| current_mode := v |>)).
Context (R_data : forall x v, R x (x <| display_data := v |>)).
Context (R_static : forall x v, R x (x <| current_static_index := v |>)).
Context (R_gif : forall x v, R x (x <| current_gif_index := v |>)).
Context (R_frames : forall x v, R x (x <| sequence_colors := v |>)).
Context (R_frame : forall x v, R x (x <| current_frame_index := v |>)).

Lemma check_button_circle_keeps (pin : level) (t : Q) (s s' : pov_state) :
  (forall x v, R x (x <| last_time_circle := v |>)) ->
  (forall x v, R x (x <| last_state_circle := v |>)) ->
  check_button_circle w pin t s = Some s' -> R s s'.
Proof.
  intros R_t R_s. unfold check_button_circle.
  destruct (_ && _);
    [|rewrite bind_Some_l; intros H; apply Some_eq_inv in H as <-; keep_updates].
  destruct (Qltb _ _);
    [|rewrite bind_Some_l; intros H; apply Some_eq_inv in H as <-; keep_updates].
  destruct (mode_eqb _ _).
  - destruct (cycle_content w s) as [s1|] eqn:E; [|discriminate].
    apply (cycle_content_keeps w R) in E; try assumption. rewrite !bind_Some_l.
    intros H; apply Some_eq_inv in H as <-.
    eapply R_trans; [exact E|]. keep_updates.
  - rewrite !bind_Some_l. intros H; apply Some_eq_inv in H as <-.
    eapply R_trans; [apply (set_mode_circle_keeps R); assumption|]. keep_updates.
Qed.

Lemma check_button_square_keeps (pin : level) (t : Q) (s s' : pov_state) :
  (forall x v, R x (x <| last_time_square := v |>)) ->
  (forall x v, R x (x <| last_state_square := v |>)) ->
  check_button_square w pin t s = Some s' -> R s s'.
Proof.
  intros R_t R_s. unfold check_button_square.
  destruct (_ && _);
    [|rewrite bind_Some_l; intros H; apply Some_eq_inv in H as <-; keep_updates].
  destruct (Qltb _ _);
    [|rewrite bind_Some_l; intros H; apply Some_eq_inv in H as <-; keep_updates].
  destruct (mode_eqb _ _).
  - destruct (cycle_content w s) as [s1|] eqn:E; [|discriminate].
    apply (cycle_content_keeps w R) in E; try assumption. rewrite !bind_Some_l.
    intros H; apply Some_eq_inv in H as <-.
    eapply R_trans; [exact E|]. keep_updates.
  - rewrite !bind_Some_l. intros H; apply Some_eq_inv in H as <-.
    eapply R_trans; [apply (set_mode_square_keeps w R); assumption|]. keep_updates.
Qed.

Lemma check_button_image_keeps (pin : level) (t : Q) (s s' : pov_state) :
  (forall x v, R x (x <| last_time_image := v |>)) ->
  (forall x v, R x (x <| last_state_image := v |>)) ->
  check_button_image w pin t s = Some s' -> R s s'.
Proof.
  intros R_t R_s. unfold check_button_image.
  destruct (_ && _);
    [|rewrite bind_Some_l; intros H; apply Some_eq_inv in H as <-; keep_updates].
  destruct (Qltb _ _);
    [|rewrite bind_Some_l; intros H; apply Some_eq_inv in H as <-; keep_updates].
  match goal with
  | |- ((?m ≫= _) ≫= _) = _ -> _ =>
      destruct m as [s1|] eqn:E; [|discriminate]
  end.
  apply (image_press_keeps w R) in E; try assumption.
  rewrite !bind_Some_l. intros H; apply Some_eq_inv in H as <-.
  eapply R_trans; [exact E|]. keep_updates.
Qed.

Lemma check_buttons_keeps (c q i : level) (t : Q) (s s' : pov_state) :
  (forall x v, R x (x <| last_time_circle := v |>)) ->
  (forall x v, R x (x <| last_state_circle := v |>)) ->
  (forall x v, R x (x <| last_time_square := v |>)) ->
  (forall x v, R x (x <| last_state_square := v |>)) ->
  (forall x v, R x (x <| last_time_image := v |>)) ->
  (forall x v, R x (x <| last_state_image := v |>)) ->
  check_buttons w c q i t s = Some s' -> R s s'.
Proof.
  intros ? ? ? ? ? ?. unfold check_buttons.
  destruct (check_button_circle w c t s) as [s1|] eqn:E1; [|discriminate].
  rewrite bind_Some_l.
  destruct (check_button_square w q t s1) as [s2|] eqn:E2; [|discriminate].
  rewrite bind_Some_l. intros E3.
  apply check_button_circle_keeps in E1; try assumption.
  apply check_button_square_keeps in E2; try assumption.
  apply check_button_image_keeps in E3; try assumption.
  eauto.
Qed.
End ButtonKeeps.

(** ** What each routine leaves alone *)

Lemma same_motion_refl (s : pov_state) : same_motion s s.
Proof. unfold same_motion. repeat split; reflexivity. Qed.

Lemma same_motion_trans (x y z : pov_state) :
  same_motion x y -> same_motion y z -> same_motion x z.
Proof. unfold same_motion. intros H1 H2. intuition congruence. Qed.

Lemma same_content_refl (s : pov_state) : same_content s s.
Proof. unfold same_content. repeat split; reflexivity. Qed.

Lemma same_content_trans (x y z : pov_state) :
  same_content x y -> same_content y z -> same_content x z.
Proof. unfold same_content. intros H1 H2. intuition congruence. Qed.

Lemma same_but_line_refl (s : pov_state) : same_but_line s s.
Proof. unfold same_but_line. repeat split; reflexivity. Qed.

Lemma same_but_line_trans (x y z : pov_state) :
  same_but_line x y -> same_but_line y z -> same_but_line x z.
Proof. unfold same_but_line. intros H1 H2. intuition congruence. Qed.

Lemma check_buttons_same_motion (w : world) (c q i : level) (t : Q)
    (s s' : pov_state) :
  check_buttons w c q i t s = Some s' -> same_motion s s'.
Proof.
  apply (check_buttons_keeps w same_motion);
    first [ exact same_motion_refl | exact same_motion_trans
          | frame_updates same_motion ].
Qed.

Lemma check_hall_sensor_same_content (cs : level) (t : Z) (s s' : pov_state) :
  check_hall_sensor cs t s = Some s' -> same_content s s'.
Proof.
  apply (check_hall_sensor_keeps same_content);
    first [ exact same_content_refl | exact same_content_trans
          | frame_updates same_content ].
Qed.

Lemma display_current_line_same_but_line (clock clock' : list tick)
    (s s' : pov_state) :
  display_current_line clock s = Some (s', clock') -> same_but_line s s'.
Proof.
  apply (display_current_line_keeps same_but_line);
    first [ exact same_but_line_refl | exact same_but_line_trans
          | frame_updates same_but_line ].
Qed.

(** X1.  The buttons never touch the motion side of the state: whatever
    the pins read and whichever content routine runs, a poll of the buttons
    leaves the rotation timing, the slice index, the RPM estimate and its
    history, all counters, the Hall bookkeeping, the rotation event and the
    discovered content lists as they were. *)
Theorem check_buttons_keeps_motion (w : world) (c q i : level) (t : Q)
    (s s' : pov_state) :
  check_buttons w c q i t s = Some s' -> same_motion s s'.
Proof.
  intros H. revert H.
  apply (check_buttons_keeps w same_motion);
    first [ exact same_motion_refl | exact same_motion_trans
          | frame_updates same_motion ].
Qed.

Lemma check_buttons_keeps_motion_witness :
  same_motion (startup broken_world) after_circle_press.
Proof.
  apply (check_buttons_keeps_motion broken_world LOW HIGH HIGH 1).
  vm_compute. reflexivity.
Defined.

(** X2.  A poll of the Hall sensor never touches the content side of the
    state: the mode, the content lists and indices, the displayed table,
    the loaded frames, the missed-line counter and the button bookkeeping
    are the same after the call, whatever the pulse was. *)
Theorem check_hall_sensor_keeps_content (cs : level) (t : Z)
    (s s' : pov_state) :
  check_hall_sensor cs t s = Some s' -> same_content s s'.
Proof.
  intros H. revert H.
  apply (check_hall_sensor_keeps same_content);
    first [ exact same_content_refl | exact same_content_trans
          | frame_updates same_content ].
Qed.

Lemma check_hall_sensor_keeps_content_witness :
  same_content spinning_state (after_pulse 1062500 spinning_state).
Proof.
  apply (check_hall_sensor_keeps_content HIGH 1062500).
  vm_compute. reflexivity.
Defined.

(** X3.  [display_current_line] writes three globals only: the slice index,
    the missed-line counter and the rotation event.  Every other field of
    the state is the same after the call. *)
Theorem display_current_line_keeps_rest (clock clock' : list tick)
    (s s' : pov_state) :
  display_current_line clock s = Some (s', clock') -> same_but_line s s'.
Proof.
  intros H. revert H.
  apply (display_current_line_keeps same_but_line);
    first [ exact same_but_line_refl | exact same_but_line_trans
          | frame_updates same_but_line ].
Qed.

Lemma display_current_line_keeps_rest_witness :
  same_but_line circle_state after_display.
Proof.
  apply (display_current_line_keeps_rest (quiet_clock [0; 100; 100; 2700]) []).
  vm_compute. reflexivity.
Defined.

(** ** The Hall sensor, pulse by pulse *)

Lemma check_hall_sensor_outcome (cs : level) (t : Z) (s s' : pov_state) :
  check_hall_sensor cs t s = Some s' -> pulse_outcome cs t s s'.
Proof.
  intros H.
  destruct (decide (rising_edge cs s)) as [He|Hn].
  2:{ rewrite hall_no_edge in H by assumption.
      apply Some_eq_inv in H as <-. constructor. assumption. }
  pose proof He as [-> Hl].
  destruct (Z_lt_dec (t - last_hall_trigger_time s) HALL_DEBOUNCE_US) as [Hd|Hd].
  { rewrite hall_debounce in H by assumption.
    apply Some_eq_inv in H as <-. constructor; assumption. }
  destruct (Z_lt_dec 0 (last_rotation_micros s)) as [Hlast|Hlast].
  2:{ rewrite hall_first_pulse in H by (assumption || lia).
      apply Some_eq_inv in H as <-. apply outcome_first; (assumption || lia). }
  destruct (decide (period_in_range t s)) as [Hr|Hr].
  2:{ rewrite hall_out_of_range in H by (assumption || split; assumption).
      apply Some_eq_inv in H as <-. apply outcome_rejected; assumption. }
  rewrite hall_valid_period in H by assumption. cbv zeta in H.
  match type of H with
  | (?m ≫= _) = _ => destruct m as [jump|]; [|discriminate]
  end.
  rewrite bind_Some_l in H. destruct jump.
  { apply Some_eq_inv in H as <-. apply outcome_rejected; assumption. }
  destruct (smooth_rpm _ _) as [stable|] eqn:Es; [|discriminate].
  rewrite bind_Some_l in H.
  destruct (py_truediv 60000000 stable) as [rt|] eqn:Er; [|discriminate].
  rewrite bind_Some_l in H. apply Some_eq_inv in H as <-.
  apply (outcome_accepted HIGH t s stable rt); assumption.
Qed.

(** X4.  Every pulse that passes the debounce test restarts the line
    position, whether its reading is then accepted, rejected as out of
    range or as an RPM jump, or is the first one: the slice index is 0, the
    rotation event is set, the rotation is counted and the pulse becomes the
    reference of the next period and of the next debounce window. *)
Theorem counted_pulse_restarts_rotation (t : Z) (s s' : pov_state) :
  last_hall_state s = LOW -> ~ debounce_violation t s ->
  check_hall_sensor HIGH t s = Some s' ->
  current_line s' = 0 /\
  rotation_end_event s' = true /\
  rotation_count s' = rotation_count s + 1 /\
  last_rotation_micros s' = t /\
  last_hall_trigger_time s' = t /\
  last_hall_state s' = HIGH.
Proof.
  intros Hl Hd H. apply check_hall_sensor_outcome in H.
  destruct H as [Hn|He Hv|? ? ?|? ? ?|stable rt ? ? ? ? ? ?].
  - exfalso. apply Hn. split; [reflexivity | assumption].
  - contradiction.
  - outcome_fields; repeat split; reflexivity.
  - outcome_fields; repeat split; reflexivity.
  - outcome_fields; repeat split; reflexivity.
Qed.

Lemma counted_pulse_restarts_rotation_witness :
  let s' := after_pulse 2000000 spinning_state in
  current_line s' = 0 /\
  rotation_end_event s' = true /\
  rotation_count s' = rotation_count spinning_state + 1 /\
  last_rotation_micros s' = 2000000 /\
  last_hall_trigger_time s' = 2000000 /\
  last_hall_state s' = HIGH.
Proof.
  apply (counted_pulse_restarts_rotation 2000000 spinning_state).
  - reflexivity.
  - unfold debounce_violation. vm_compute. discriminate.
  - vm_compute. reflexivity.
Defined.

(** X5.  A level is handled once: polling the sensor again while the pin
    still reads the same level changes nothing, at whatever time the second
    poll happens.  A magnet that stays in front of the sensor for many
    turns of the main loop is one pulse. *)
Theorem held_level_is_one_pulse (cs : level) (t t' : Z) (s s1 : pov_state) :
  check_hall_sensor cs t s = Some s1 ->
  check_hall_sensor cs t' s1 = Some s1.
Proof.
  intros H. apply check_hall_sensor_outcome in H.
  assert (last_hall_state s1 = cs /\
          (rising_edge cs s -> cs = HIGH)) as [Hs Hc].
  { split; [|intros [? _]; assumption].
    destruct H as [Hn|[-> _] Hv|[-> _] ? ?|[-> _] ? ?|stable rt [-> _] ? ? ? ? ?];
      outcome_fields; reflexivity. }
  rewrite hall_no_edge.
  - f_equal. clear H Hc. destruct_state s1. st_simpl. subst. reflexivity.
  - intros [-> Hlow]. rewrite Hs in Hlow. discriminate.
Qed.

Lemma held_level_is_one_pulse_witness :
  check_hall_sensor HIGH 1070000 (after_pulse 1062500 spinning_state)
  = Some (after_pulse 1062500 spinning_state).
Proof.
  apply (held_level_is_one_pulse HIGH 1062500 1070000 spinning_state).
  vm_compute. reflexivity.
Defined.

(** X6.  The animation frame moves only on a pulse that is accepted or is
    the first one, only in GIF mode with frames loaded, and only when the
    rotation count before the pulse is a multiple of [rot_per_frame]; it
    then advances by one, wrapping at the number of frames.  A debounced or
    rejected pulse, or a poll without a rising edge, never moves it. *)
Theorem frame_advance_rule (cs : level) (t : Z) (s s' : pov_state) :
  check_hall_sensor cs t s = Some s' ->
  current_frame_index s'
  = if pulse_passed s s'
       && mode_eqb (current_mode s) gif_sequence
       && truthy (sequence_colors s)
       && (rotation_count s mod rot_per_frame s =? 0)
    then (current_frame_index s + 1) mod len (sequence_colors s)
    else current_frame_index s.
Proof.
  intros H. apply check_hall_sensor_outcome in H. unfold pulse_passed.
  destruct H as [Hn|He Hv|? ? ?|? ? ?|stable rt ? ? ? ? ? ?].
  - destruct_state s. st_simpl.
    replace (_ =? _ + 1) with false by (symmetry; apply Z.eqb_neq; lia).
    reflexivity.
  - destruct_state s. st_simpl.
    replace (_ =? _ + 1) with false by (symmetry; apply Z.eqb_neq; lia).
    reflexivity.
  - unfold finish_pulse, trigger. cbv zeta. destruct_state s. st_simpl.
    destruct (mode_eqb _ _), (truthy _), (_ mod _ =? 0); cbn [andb]; st_simpl;
      rewrite !Z.eqb_refl; reflexivity.
  - unfold reject_pulse, trigger. destruct_state s. st_simpl.
    rewrite Z.eqb_refl.
    replace (_ + 1 =? _) with false by (symmetry; apply Z.eqb_neq; lia).
    reflexivity.
  - unfold finish_pulse, trigger. cbv zeta. destruct_state s. st_simpl.
    destruct (mode_eqb _ _), (truthy _), (_ mod _ =? 0); cbn [andb]; st_simpl;
      rewrite !Z.eqb_refl; reflexivity.
Qed.

Lemma frame_advance_rule_witness :
  current_frame_index (after_pulse 1062500 gif_state) = (2 + 1) mod 3 /\
  current_frame_index (after_pulse 2000000 gif_state) = 2.
Proof.
  split.
  - apply (frame_advance_rule HIGH 1062500 gif_state). vm_compute. reflexivity.
  - apply (frame_advance_rule HIGH 2000000 gif_state). vm_compute. reflexivity.
Defined.

(** ** The trimmed mean against one bad reading *)

Lemma insert_sorted_perm (x : Q) (l : list Q) : insert_sorted x l ≡ₚ x :: l.
Proof.
  induction l as [|y l IH]; cbn [insert_sorted]; [reflexivity|].
  destruct (Qle_bool x y); [reflexivity|].
  rewrite IH. apply Permutation_swap.
Qed.

Lemma sorted_perm (l : list Q) : sorted l ≡ₚ l.
Proof.
  induction l as [|x l IH]; [reflexivity|].
  unfold sorted. cbn [foldr]. rewrite insert_sorted_perm.
  apply Permutation_skip. exact IH.
Qed.

Lemma nondecreasing_hd_le (x y : Q) (l : list Q) :
  nondecreasing (x :: l) -> y ∈ l -> (x <= y)%Q.
Proof.
  revert x. induction l as [|z l IH]; intros x Hs Hy.
  - apply elem_of_nil in Hy. contradiction.
  - destruct Hs as [Hxz Hl]. apply elem_of_cons in Hy as [->|Hy]; [exact Hxz|].
    specialize (IH z Hl Hy). lra.
Qed.

Lemma nondecreasing_app_r (l1 l2 : list Q) :
  nondecreasing (l1 ++ l2) -> nondecreasing l2.
Proof.
  induction l1 as [|x l1 IH]; [trivial|]. intros [_ H]. apply IH. exact H.
Qed.

Lemma removelast_app_cons {A} (l1 : list A) (x y : A) (l2 : list A) :
  removelast (l1 ++ x :: y :: l2) = l1 ++ x :: removelast (y :: l2).
Proof.
  rewrite removelast_app by discriminate. reflexivity.
Qed.

Lemma last_elem_of (y : Q) (l : list Q) : List.last (y :: l) 0%Q ∈ y :: l.
Proof.
  revert y. induction l as [|z l IH]; intros y.
  - apply list_elem_of_here.
  - apply list_elem_of_further. apply IH.
Qed.

(** The slice of a sorted list that holds one value outside [[a, b]]. *)
Lemma slice_drops_one_outlier (a b x : Q) (p q : list Q) :
  nondecreasing (p ++ x :: q) -> all_within a b (p ++ q) ->
  all_within a b (slice_1_m1 (p ++ x :: q)).
Proof.
  intros Hs Hw. apply Forall_app in Hw as [Hp Hq]. unfold slice_1_m1.
  destruct p as [|p0 p]; cbn [app tail].
  - apply all_within_removelast. exact Hq.
  - apply Forall_cons in Hp as [Hp0 Hp].
    destruct q as [|q0 q].
    + rewrite removelast_last. exact Hp.
    + rewrite removelast_app_cons. apply Forall_app. split; [exact Hp|].
      apply Forall_cons. split.
      * split.
        -- assert (p0 <= x)%Q.
           { apply (nondecreasing_hd_le p0 x (p ++ x :: q0 :: q) Hs).
             apply elem_of_app. right. apply list_elem_of_here. }
           lra.
        -- change (p0 :: p ++ x :: q0 :: q) with ((p0 :: p) ++ x :: q0 :: q) in Hs.
           apply nondecreasing_app_r in Hs.
           assert (x <= List.last (q0 :: q) 0)%Q.
           { apply (nondecreasing_hd_le x _ (q0 :: q) Hs). apply last_elem_of. }
           pose proof (last_elem_of q0 q) as Hin.
           rewrite Forall_forall in Hq. specialize (Hq _ Hin). lra.
      * apply all_within_removelast. exact Hq.
Qed.

(** X7.  With five or more readings in the history, one reading outside
    the range of the others cannot move the smoothed RPM out of that range:
    if all readings but one of a history of at most [RPM_HISTORY_SIZE]
    readings lie in [[a, b]] with [0 <= a], the trimmed mean lies in
    [[a, b]] up to the relative rounding tolerance, however far off the
    remaining reading is.  (The exact mean lies in [[a, b]]; the mean the
    doubles give may leave it by an ulp, see
    [f64_equal_readings_one_ulp_off].) *)
Theorem trimmed_mean_absorbs_one_outlier (a b x instant_rpm : Q)
    (l1 l2 : list Q) :
  (0 <= a)%Q ->
  all_within a b (l1 ++ l2) ->
  5 <= len (l1 ++ x :: l2) <= RPM_HISTORY_SIZE ->
  exists r, smooth_rpm (l1 ++ x :: l2) instant_rpm = Some r /\
            (a * (1 - rounding_tolerance) <= r
             <= b * (1 + rounding_tolerance))%Q.
Proof.
  intros Ha Hw [H5 _]. set (h := l1 ++ x :: l2) in *.
  assert (x ∈ sorted h) as Hx.
  { rewrite sorted_perm. apply elem_of_app. right. apply list_elem_of_here. }
  apply list_elem_of_split in Hx as (p & q & Hpq).
  assert (p ++ q ≡ₚ l1 ++ l2) as Hperm.
  { apply (Permutation_cons_inv (a := x)).
    rewrite Permutation_middle, <- Hpq, sorted_perm.
    symmetry. apply Permutation_middle. }
  assert (all_within a b (slice_1_m1 (sorted h))) as Hslice.
  { rewrite Hpq. apply slice_drops_one_outlier.
    - rewrite <- Hpq. apply sorted_nondecreasing.
    - unfold all_within. rewrite Hperm. exact Hw. }
  unfold smooth_rpm. apply Z.leb_le in H5 as E5. rewrite E5.
  assert (length (slice_1_m1 (sorted h)) = (length h - 2)%nat) as Hlen
    by (rewrite slice_length, sorted_length; reflexivity).
  assert (slice_1_m1 (sorted h) <> []) as Hne.
  { intros E. rewrite E in Hlen. unfold len in H5. simpl in Hlen. lia. }
  destruct (slice_1_m1 (sorted h)) as [|y l] eqn:El; [congruence|].
  rewrite py_truediv_Some.
  - eexists. split; [reflexivity|].
    pose proof (mean_bounds a b (y :: l) Hslice Hne) as [Hlo Hhi].
    unfold mean in Hlo, Hhi. unfold rounding_tolerance.
    set (r := (py_sum (y :: l) / inject_Z (len (y :: l)))%Q) in *.
    split; nra.
  - pose proof (Qlen_pos (y :: l) Hne). lra.
Qed.

Lemma trimmed_mean_absorbs_one_outlier_witness :
  exists r, smooth_rpm ([500; 510] ++ 1400 :: [490; 505])%Q 1400 = Some r /\
            (490 * (1 - rounding_tolerance) <= r
             <= 510 * (1 + rounding_tolerance))%Q.
Proof.
  apply (trimmed_mean_absorbs_one_outlier 490 510 1400 1400 [500; 510] [490; 505])%Q.
  - vm_compute. discriminate.
  - repeat constructor; vm_compute; discriminate.
  - vm_compute. split; discriminate.
Defined.

(** Five equal readings, each the double of [60_000_000 / 40006]: the
    doubles give a smoothed RPM one unit in the last place above the
    readings, within the tolerance. *)
Example f64_equal_readings_one_ulp_off :
  let v := f64_instant_rpm 40006 in
  let r := f64_smooth_rpm [v; v; v; v; v] v in
  FloatOps.Prim2SF v = SpecFloat.S754_finite false 6596080354602810 (-42) /\
  FloatOps.Prim2SF r = SpecFloat.S754_finite false 6596080354602811 (-42) /\
  (f64_Q v < f64_Q r <= f64_Q v * (1 + rounding_tolerance))%Q.
Proof.
  vm_compute. repeat split; intros H; discriminate H.
Qed.

(** ** The shape generators in closed form *)

Lemma set_led_length (pos : Z) (c : color) (line : row) :
  length (set_led pos c line) = length line.
Proof.
  unfold set_led. destruct (_ && _); [apply length_insert | reflexivity].
Qed.

Lemma set_led_lookup (pos : Z) (c : color) (line : row) (p : nat) :
  length line = Z.to_nat NUM_LEDS -> (p < Z.to_nat NUM_LEDS)%nat ->
  set_led pos c line !! p
  = if pos =? Z.of_nat p then Some c else line !! p.
Proof.
  intros Hlen Hp. unfold set_led.
  destruct (pos =? Z.of_nat p) eqn:E.
  - apply Z.eqb_eq in E. subst pos.
    replace ((0 <=? Z.of_nat p) && (Z.of_nat p <? NUM_LEDS)) with true
      by (symmetry; apply andb_true_iff; split;
          [apply Z.leb_le | apply Z.ltb_lt]; lia).
    rewrite Nat2Z.id. apply list_lookup_insert_eq. lia.
  - apply Z.eqb_neq in E. destruct (_ && _) eqn:Eb; [|reflexivity].
    apply andb_true_iff in Eb as [H0 _]. apply Z.leb_le in H0.
    apply list_lookup_insert_ne. lia.
Qed.

(** The loop of the shape generators: for each [x] of a range, the colour
    is written at [f1 x] and at [f2 x]. *)
Lemma marks_length (f1 f2 : Z -> Z) (c : color) (xs : list Z) (line : row) :
  length (foldl (fun line x => set_led (f2 x) c (set_led (f1 x) c line)) line xs)
  = length line.
Proof.
  revert line. induction xs as [|x xs IH]; intros line; [reflexivity|].
  cbn [foldl]. rewrite IH, !set_led_length. reflexivity.
Qed.

Lemma marks_lookup (f1 f2 : Z -> Z) (c : color) (xs : list Z) (line : row)
    (p : nat) :
  length line = Z.to_nat NUM_LEDS -> (p < Z.to_nat NUM_LEDS)%nat ->
  foldl (fun line x => set_led (f2 x) c (set_led (f1 x) c line)) line xs !! p
  = if existsb (fun x => (f1 x =? Z.of_nat p) || (f2 x =? Z.of_nat p)) xs
    then Some c else line !! p.
Proof.
  intros Hlen Hp. revert line Hlen.
  induction xs as [|x xs IH]; intros line Hlen; [reflexivity|].
  cbn [foldl existsb]. rewrite IH by (rewrite !set_led_length; exact Hlen).
  destruct (existsb _ xs); [rewrite orb_true_r; reflexivity|].
  rewrite orb_false_r.
  rewrite set_led_lookup by (rewrite ?set_led_length; assumption).
  rewrite set_led_lookup by assumption.
  destruct (f1 x =? _), (f2 x =? _); reflexivity.
Qed.

Lemma existsb_seqZ (f : Z -> bool) (lo n : Z) :
  existsb f (seqZ lo n) = true <-> exists x, lo <= x < lo + n /\ f x = true.
Proof.
  rewrite existsb_exists. split.
  - intros (x & Hin & Hf). exists x. split; [|exact Hf].
    apply list_elem_of_In, elem_of_seqZ in Hin. exact Hin.
  - intros (x & Hx & Hf). exists x. split; [|exact Hf].
    apply list_elem_of_In, elem_of_seqZ. exact Hx.
Qed.

Lemma lookup_seqZ_map {B} (f : Z -> B) (n : Z) (p : nat) :
  (p < Z.to_nat n)%nat -> map f (seqZ 0 n) !! p = Some (f (Z.of_nat p)).
Proof.
  intros Hp. rewrite lookup_map, lookup_seqZ_lt by lia. reflexivity.
Qed.

Lemma map_const_replicate {A B} (b : B) (l : list A) :
  map (fun _ => b) l = replicate (length l) b.
Proof. induction l as [|x l IH]; cbn; [reflexivity | rewrite IH; reflexivity]. Qed.

Lemma row_eq (l1 l2 : row) :
  length l1 = Z.to_nat NUM_LEDS -> length l2 = Z.to_nat NUM_LEDS ->
  (forall p, (p < Z.to_nat NUM_LEDS)%nat -> l1 !! p = l2 !! p) -> l1 = l2.
Proof.
  intros H1 H2 H. apply list_eq. intros p.
  destruct (Nat.lt_ge_cases p (Z.to_nat NUM_LEDS)) as [Hp|Hp]; [auto|].
  rewrite !lookup_ge_None_2 by lia. reflexivity.
Qed.

Lemma marked_row_length (d : Z) (c : color) :
  length (marked_row d c) = Z.to_nat NUM_LEDS.
Proof. unfold marked_row. rewrite length_map, length_seqZ. reflexivity. Qed.

Lemma filled_row_length (r : Z) (c : color) :
  length (filled_row r c) = Z.to_nat NUM_LEDS.
Proof. unfold filled_row. rewrite length_map, length_seqZ. reflexivity. Qed.

Lemma dark_row_length : length dark_row = Z.to_nat NUM_LEDS.
Proof. apply length_replicate. Qed.

Lemma dark_row_lookup (p : nat) :
  (p < Z.to_nat NUM_LEDS)%nat -> dark_row !! p = Some (Color 0 0 0).
Proof. intros Hp. apply lookup_replicate_2. exact Hp. Qed.

Lemma draw_marks_row (d : Z) (c : color) :
  draw_marks (NUM_LEDS / 2) d (Z.max 2 (5 - NUM_DIVISIONS / 30)) c dark_row
  = marked_row d c.
Proof.
  apply row_eq.
  - unfold draw_marks. rewrite marks_length. apply dark_row_length.
  - apply marked_row_length.
  - intros p Hp. unfold draw_marks. cbv zeta.
    rewrite marks_lookup by (apply dark_row_length || exact Hp).
    rewrite dark_row_lookup by exact Hp.
    unfold marked_row, row. rewrite lookup_seqZ_map by exact Hp.
    match goal with
    | |- (if ?a then _ else _) = Some (if ?b then _ else _) =>
        replace a with b; [destruct b; reflexivity|]
    end.
    change (py_range _ _) with [-2; -1; 0; 1; 2].
    change (NUM_LEDS / 2) with 36. unfold near. cbn [existsb].
    apply eq_true_iff_eq.
    rewrite ?orb_true_iff, ?andb_true_iff, ?Z.eqb_eq, ?Z.leb_le.
    unfold is_true. rewrite ?orb_true_iff, ?andb_true_iff, ?Z.eqb_eq, ?Z.leb_le.
    intuition (try discriminate; lia).
Qed.

Lemma generate_circle_data_rows (radius_leds : Z) (color_rgb : sample) :
  generate_circle_data radius_leds color_rgb
  = replicate (Z.to_nat NUM_DIVISIONS)
      (if radius_leds <? NUM_LEDS / 2
       then marked_row radius_leds (shape_pixel color_rgb)
       else dark_row).
Proof.
  unfold generate_circle_data. cbv zeta.
  change (make_color 0 0 0) with (Color 0 0 0). fold dark_row.
  rewrite map_const_replicate. unfold py_range. rewrite length_seqZ.
  f_equal. destruct (_ <? _); [apply draw_marks_row | reflexivity].
Qed.

Lemma generate_square_data_rows (w : world) (side_length_leds : Z)
    (color_rgb : sample) :
  generate_square_data w side_length_leds color_rgb
  = map (fun angle_idx =>
           marked_row (Z.min (square_distance w (side_length_leds / 2) angle_idx)
                             (NUM_LEDS / 2 - 2))
                      (shape_pixel color_rgb))
        (seqZ 0 NUM_DIVISIONS).
Proof.
  unfold generate_square_data. cbv zeta.
  change (make_color 0 0 0) with (Color 0 0 0). fold dark_row.
  unfold py_range. rewrite Z.sub_0_r. apply map_ext. intros a.
  apply draw_marks_row.
Qed.

(** X8.  [generate_circle_data] in closed form: forty equal rows.  For a
    radius below half the strip, each row has two marks of five LEDs,
    centred [radius_leds] LEDs below and above LED 36 and cut at the ends
    of the strip; for a larger radius, every LED of the table is off. *)
Theorem circle_data_closed_form (radius_leds : Z) (color_rgb : sample) :
  generate_circle_data radius_leds color_rgb
  = replicate (Z.to_nat NUM_DIVISIONS)
      (if radius_leds <? NUM_LEDS / 2
       then marked_row radius_leds (shape_pixel color_rgb)
       else dark_row).
Proof.
  unfold generate_circle_data. cbv zeta.
  change (make_color 0 0 0) with (Color 0 0 0). fold dark_row.
  rewrite map_const_replicate. unfold py_range. rewrite length_seqZ.
  f_equal. destruct (radius_leds <? NUM_LEDS / 2).
  - apply draw_marks_row.
  - reflexivity.
Qed.

(** X9.  [generate_square_data] in closed form: the row of angle index [a]
    has its two marks at the distance returned for that angle, clamped to
    34 LEDs (two less than half the strip). *)
Theorem square_data_closed_form (w : world) (side_length_leds : Z)
    (color_rgb : sample) :
  generate_square_data w side_length_leds color_rgb
  = map (fun angle_idx =>
           marked_row (Z.min (square_distance w (side_length_leds / 2) angle_idx)
                             (NUM_LEDS / 2 - 2))
                      (shape_pixel color_rgb))
        (seqZ 0 NUM_DIVISIONS).
Proof.
  unfold generate_square_data. cbv zeta.
  change (make_color 0 0 0) with (Color 0 0 0). fold dark_row.
  unfold py_range. rewrite Z.sub_0_r.
  apply map_ext. intros angle_idx.
  apply draw_marks_row.
Qed.

(** X10.  [generate_filled_circle_data] in closed form: forty equal rows,
    lit from LED [36 - radius_leds] to LED [36 + radius_leds - 1] and dark
    elsewhere; a radius of zero or less gives a dark table, a radius of 36
    or more lights the whole strip. *)
Theorem filled_circle_data_closed_form (radius_leds : Z) (color_rgb : sample) :
  generate_filled_circle_data radius_leds color_rgb
  = replicate (Z.to_nat NUM_DIVISIONS)
      (filled_row radius_leds (shape_pixel color_rgb)).
Proof.
  unfold generate_filled_circle_data. cbv zeta.
  change (make_color 0 0 0) with (Color 0 0 0). fold dark_row.
  rewrite map_const_replicate. unfold py_range. rewrite length_seqZ.
  f_equal. apply row_eq.
  - rewrite marks_length. apply dark_row_length.
  - apply filled_row_length.
  - intros p Hp.
    rewrite (marks_lookup (fun dist => NUM_LEDS / 2 - dist - 1)
                          (fun dist => NUM_LEDS / 2 + dist))
      by (apply dark_row_length || exact Hp).
    rewrite dark_row_lookup by exact Hp.
    unfold filled_row, row. rewrite lookup_seqZ_map by exact Hp.
    match goal with
    | |- (if ?a then _ else _) = Some (if ?b then _ else _) =>
        replace a with b; [destruct b; reflexivity|]
    end.
    change (NUM_LEDS / 2) with 36. rewrite Z.sub_0_r.
    apply eq_true_iff_eq. rewrite existsb_seqZ.
    rewrite andb_true_iff, Z.leb_le, Z.ltb_lt. split.
    + intros [H1 H2].
      destruct (Z_lt_dec (Z.of_nat p) 36).
      * exists (35 - Z.of_nat p). split; [lia|].
        apply orb_true_iff. left. apply Z.eqb_eq. lia.
      * exists (Z.of_nat p - 36). split; [lia|].
        apply orb_true_iff. right. apply Z.eqb_eq. lia.
    + intros (x & Hx & Hf). apply orb_true_iff in Hf as [Hf|Hf];
        apply Z.eqb_eq in Hf; lia.
Qed.

(** ** The arrangement on tables of any shape *)

Lemma fill_skips (p q : nat -> nat) (src : list sample) (line : row)
    (idxs : list nat) (pos : nat) :
  (forall i, i ∈ idxs -> p i = pos -> src !! q i = None) ->
  foldl (fill_step p q src) line idxs !! pos = line !! pos.
Proof.
  revert line. induction idxs as [|i idxs IH]; intros line H; [reflexivity|].
  cbn [foldl]. rewrite IH.
  - unfold fill_step. destruct (_ <? _); [|reflexivity].
    destruct (src !! q i) eqn:E; [|reflexivity].
    apply list_lookup_insert_ne. intros Hp.
    rewrite (H i) in E by (left || exact Hp). discriminate.
  - intros j Hj. apply H. right. exact Hj.
Qed.

Lemma arrange_line_length (slices_colors : raw_table) (d : nat) :
  length (arrange_line slices_colors d) = Z.to_nat NUM_LEDS.
Proof.
  unfold arrange_line. cbv zeta.
  rewrite fill_second_half_step, fill_first_half_step, !fill_length.
  apply length_replicate.
Qed.

Lemma arrange_length (slices_colors : raw_table) :
  length (arrange_colors_for_display slices_colors) = length slices_colors.
Proof.
  unfold arrange_colors_for_display. rewrite length_map, length_seq. reflexivity.
Qed.

Lemma arrange_full_width (slices_colors : raw_table) :
  full_width (arrange_colors_for_display slices_colors).
Proof.
  unfold full_width, arrange_colors_for_display.
  apply Forall_forall. intros line Hin.
  apply list_elem_of_In, in_map_iff in Hin as (d & <- & _).
  apply arrange_line_length.
Qed.

(** X11.  Whatever the shape of the artifact, the arranged table has one
    row per division of the artifact and every row is exactly as long as
    the strip: rows that are short, long or empty in the artifact never
    give a short or long row on the display, and an artifact without
    divisions gives the empty table. *)
Theorem arranged_table_shape (slices_colors : raw_table) :
  length (arrange_colors_for_display slices_colors) = length slices_colors /\
  Forall (fun line => length line = Z.to_nat NUM_LEDS)
         (arrange_colors_for_display slices_colors) /\
  (slices_colors = [] <-> arrange_colors_for_display slices_colors = []).
Proof.
  split; [apply arrange_length|]. split; [apply arrange_full_width|].
  split.
  - intros ->. reflexivity.
  - intros H. apply (f_equal length) in H. rewrite arrange_length in H.
    destruct slices_colors; [reflexivity | discriminate].
Qed.

(** X12.  A sample that the artifact does not have leaves its LED off: when
    the row of division [d] has no sample [2 i + 1], LED [L - 1 - i] of the
    arranged row is off, and when the row of the opposite division has no
    sample [2 i], LED [L + i] is off. *)
Theorem missing_sample_leaves_led_off (slices_colors : raw_table) (d i : nat) :
  let L := num_leds_one_side in
  let divisions := length slices_colors in
  (d < divisions)%nat -> (i < L)%nat ->
  exists line,
    arrange_colors_for_display slices_colors !! d = Some line /\
    (nth d slices_colors [] !! (2 * i + 1)%nat = None ->
     line !! (L - 1 - i)%nat = Some (Color 0 0 0)) /\
    (nth ((d + divisions / 2) mod divisions) slices_colors [] !! (2 * i)%nat = None ->
     line !! (L + i)%nat = Some (Color 0 0 0)).
Proof.
  intros L divisions Hd Hi.
  exists (arrange_line slices_colors d). split; [apply arrange_lookup; exact Hd|].
  assert (L = 36%nat) as HL by reflexivity.
  unfold arrange_line. fold divisions. cbv zeta.
  change (make_color 0 0 0) with (Color 0 0 0). fold dark_row.
  rewrite fill_second_half_step, fill_first_half_step. fold L.
  split.
  - intros Hnone.
    rewrite fill_untouched by (intros j Hj; lia).
    rewrite fill_skips.
    + apply dark_row_lookup. change (Z.to_nat NUM_LEDS) with 72%nat. lia.
    + intros j Hj Hp. apply elem_of_seq in Hj. cbv beta in Hp.
      replace j with i by lia.
      replace (i * 2 + 1)%nat with (2 * i + 1)%nat by lia. exact Hnone.
  - intros Hnone.
    rewrite fill_skips.
    + rewrite fill_untouched by (intros j Hj; apply elem_of_seq in Hj; lia).
      apply dark_row_lookup. change (Z.to_nat NUM_LEDS) with 72%nat. lia.
    + intros j Hj Hp. apply elem_of_seq in Hj. cbv beta in Hp.
      replace j with i by lia.
      replace (i * 2)%nat with (2 * i)%nat by lia. exact Hnone.
Qed.

Lemma missing_sample_leaves_led_off_witness :
  exists line,
    arrange_colors_for_display ragged_table !! 0%nat = Some line /\
    (nth 0 ragged_table [] !! 3%nat = None -> line !! 34%nat = Some (Color 0 0 0)) /\
    (nth 1 ragged_table [] !! 2%nat = None -> line !! 37%nat = Some (Color 0 0 0)).
Proof.
  apply (missing_sample_leaves_led_off ragged_table 0 1).
  - vm_compute. lia.
  - vm_compute. lia.
Defined.

(** ** One refresh of the display *)

Lemma existsb_app_one {A} (f : A -> bool) (l : list A) (x : A) :
  existsb f (l ++ [x]) = existsb f l || f x.
Proof. rewrite existsb_app. cbn [existsb]. rewrite orb_false_r. reflexivity. Qed.

Lemma event_update_twice (s : pov_state) (a b : bool) :
  s <| rotation_end_event := a |> <| rotation_end_event := b |>
  = s <| rotation_end_event := b |>.
Proof. destruct_state s. reflexivity. Qed.

Lemma busy_wait_returns (target_time : Z) (pre : list tick) (t : tick)
    (rest : list tick) (s : pov_state) :
  Forall (fun u => py_int (perf_micros u) < target_time) pre ->
  target_time <= py_int (perf_micros t) ->
  busy_wait target_time (pre ++ t :: rest) s
  = Some (s <| rotation_end_event :=
                 rotation_end_event s || existsb event_set (pre ++ [t]) |>,
          rest).
Proof.
  intros Hpre Ht. revert s.
  induction Hpre as [|u pre Hu Hpre IH]; intros s.
  - cbn [app busy_wait]. cbv zeta.
    replace (_ <? _) with false by (symmetry; apply Z.ltb_ge; exact Ht).
    cbn [existsb]. rewrite orb_false_r. reflexivity.
  - cbn [app]. rewrite busy_wait_continues by exact Hu. rewrite IH.
    apply (f_equal (fun x => Some (x, rest))). clear IH.
    destruct_state s. st_simpl. cbn [existsb app].
    rewrite orb_assoc. reflexivity.
Qed.

Lemma busy_wait_inv (target_time : Z) (clock clock' : list tick)
    (s s' : pov_state) :
  busy_wait target_time clock s = Some (s', clock') ->
  exists pre t,
    clock = pre ++ t :: clock' /\
    Forall (fun u => py_int (perf_micros u) < target_time) pre /\
    target_time <= py_int (perf_micros t).
Proof.
  revert s. induction clock as [|u clock IH]; intros s; [discriminate|].
  cbn [busy_wait]. cbv zeta. destruct (_ <? _) eqn:E.
  - intros H. apply IH in H as (pre & t & -> & Hpre & Ht).
    exists (u :: pre), t. split; [reflexivity|]. split; [|exact Ht].
    constructor; [apply Z.ltb_lt; exact E | exact Hpre].
  - intros H. apply Some_pair_inv in H as [_ <-].
    exists [], u. split; [reflexivity|]. split; [constructor|].
    apply Z.ltb_ge. exact E.
Qed.

(** X13.  The wait of [display_current_line] ends at the first reading of
    the clock that is not before the target, and nowhere else: it returns
    exactly when the clock has such a reading, it consumes the readings up
    to and including that one, and the only thing it changes in the state
    is the rotation event, which is set if one of the consumed readings
    reported it. *)
Theorem busy_wait_ends_at_first_late_reading (target_time : Z)
    (clock clock' : list tick) (s s' : pov_state) :
  busy_wait target_time clock s = Some (s', clock')
  <-> exists pre t,
        clock = pre ++ t :: clock' /\
        Forall (fun u => py_int (perf_micros u) < target_time) pre /\
        target_time <= py_int (perf_micros t) /\
        s' = s <| rotation_end_event :=
                    rotation_end_event s || existsb event_set (pre ++ [t]) |>.
Proof.
  split.
  - intros H. pose proof (busy_wait_inv _ _ _ _ _ H) as (pre & t & E & Hpre & Ht).
    exists pre, t. repeat split; try assumption.
    subst clock. rewrite busy_wait_returns in H by assumption.
    apply Some_pair_inv in H as [<- _]. reflexivity.
  - intros (pre & t & -> & Hpre & Ht & ->).
    apply busy_wait_returns; assumption.
Qed.

Lemma busy_wait_reaches (target_time : Z) (clock : list tick) (s : pov_state) :
  clock_reaches target_time clock ->
  exists pre t rest,
    clock = pre ++ t :: rest /\
    Forall (fun u => py_int (perf_micros u) < target_time) pre /\
    target_time <= py_int (perf_micros t).
Proof.
  unfold clock_reaches. induction clock as [|u clock IH]; intros H.
  - apply Exists_nil in H. contradiction.
  - destruct (Z_lt_dec (py_int (perf_micros u)) target_time) as [Hu|Hu].
    + apply Exists_cons in H as [H|H]; [lia|].
      destruct (IH H) as (pre & t & rest & -> & Hpre & Ht).
      exists (u :: pre), t, rest. split; [reflexivity|].
      split; [constructor; assumption | exact Ht].
    + exists [], u, clock. split; [reflexivity|]. split; [constructor | lia].
Qed.

Lemma get_time_micros_nil (s : pov_state) : get_time_micros [] s = None.
Proof. reflexivity. Qed.

Lemma frame_to_display_event (s : pov_state) :
  frame_to_display
    (if rotation_end_event s
     then s <| rotation_end_event := false |> <| current_line := 0 |>
     else s)
  = frame_to_display s.
Proof. destruct_state s. st_simpl. destruct event_; reflexivity. Qed.

Lemma skip_division (remaining tpl : Z) :
  remaining < -1000 -> 0 < tpl ->
  py_truediv (inject_Z (- remaining)) (inject_Z tpl)
  = Some (inject_Z (- remaining) / inject_Z tpl)%Q /\
  py_int (inject_Z (- remaining) / inject_Z tpl) = (- remaining) / tpl /\
  0 <= (- remaining) / tpl.
Proof.
  intros Hr Ht. split; [|split].
  - apply py_truediv_Some. intros E. unfold Qeq in E. simpl in E. lia.
  - apply py_int_div; lia.
  - apply Z.div_pos; lia.
Qed.

(** An active call of [display_current_line] on a clock with two readings
    or more, as a function of the readings. *)
Lemma display_active (s : pov_state) (t0 t1 : tick) (rest : list tick)
    (frame_data : table) :
  rotation_active s = true -> 0 < time_per_line_micros s ->
  frame_to_display s = Some frame_data ->
  display_current_line (t0 :: t1 :: rest) s
  = if 0 <? time_left s t0 t1 then
      match rest with
      | [] => None
      | t2 :: rest2 =>
          '(s2, clock2) ←
            busy_wait (py_int (perf_micros t2) + time_left s t0 t1) rest2
              (s <| rotation_end_event := existsb event_set [t0; t1; t2] |>
                 <| current_line := refresh_index s |>);
          Some (s2 <| current_line :=
                        next_line (division_count frame_data) (current_line s2) |>,
                clock2)
      end
    else Some (refreshed s [t0; t1] (division_count frame_data)
                         (lines_skipped s t0 t1), rest).
Proof.
  intros Hact Htpl Hframe.
  unfold display_current_line.
  rewrite Hact. cbn [negb orb].
  replace (time_per_line_micros s <=? 0) with false
    by (symmetry; apply Z.leb_gt; exact Htpl).
  rewrite frame_to_display_event, Hframe, bind_Some_l.
  rewrite !get_time_micros_cons, !bind_Some_l. cbv beta iota zeta.
  rewrite !get_time_micros_cons, !bind_Some_l. cbv beta iota zeta.
  unfold refreshed, lines_skipped, refresh_index, next_line, time_left.
  destruct_state s. destruct event_; st_simpl; subst active_.
  all: set (remaining := line_time_ - _ - TIMING_MARGIN_US).
  all: destruct (0 <? remaining) eqn:E1.
  1,3: destruct rest as [|t2 rest2];
         [rewrite get_time_micros_nil, !bind_None_l; reflexivity|].
  1,2: rewrite get_time_micros_cons, bind_Some_l; cbv beta iota zeta; st_simpl;
       cbn [existsb orb]; rewrite ?orb_false_r, <- ?orb_assoc;
       destruct (busy_wait _ _ _) as [[s2 clock2]|]; [|reflexivity];
       rewrite !bind_Some_l; cbv beta iota zeta;
       destruct_state s2; st_simpl; destruct (_ <=? _); reflexivity.
  all: apply Z.ltb_ge in E1; destruct (remaining <? -1000) eqn:E2.
  1,3: apply Z.ltb_lt in E2;
       destruct (skip_division remaining line_time_ E2 Htpl) as (Hq & Hi & Hs);
       rewrite Hq, bind_Some_l, Hi; cbv zeta;
       set (skip := - remaining / line_time_) in *;
       destruct (0 <? skip) eqn:E3;
       [|apply Z.ltb_ge in E3; assert (skip = 0) as -> by lia].
  all: rewrite bind_Some_l; cbv beta iota zeta; st_simpl; cbn [existsb];
       fold remaining; rewrite ?E2; try fold skip;
       rewrite ?orb_false_r, ?Z.add_0_r, ?Z.add_0_l;
       destruct (_ <=? _); reflexivity.
Qed.

Lemma refreshed_after_wait (s : pov_state) (t0 t1 t2 : tick) (used : list tick)
    (num_divs : Z) :
  (s <| rotation_end_event := existsb event_set [t0; t1; t2] |>
     <| current_line := refresh_index s |>
     <| rotation_end_event :=
          existsb event_set [t0; t1; t2] || existsb event_set used |>)
    <| current_line := next_line num_divs (refresh_index s) |>
  = refreshed s (t0 :: t1 :: t2 :: used) num_divs 0.
Proof.
  unfold refreshed. destruct_state s. st_simpl. cbn [existsb].
  rewrite orb_false_r, !Z.add_0_r, <- !orb_assoc. reflexivity.
Qed.

Lemma display_no_wait (s : pov_state) (t0 t1 : tick) (rest : list tick)
    (frame_data : table) :
  rotation_active s = true -> 0 < time_per_line_micros s ->
  frame_to_display s = Some frame_data ->
  time_left s t0 t1 <= 0 ->
  display_current_line (t0 :: t1 :: rest) s
  = Some (refreshed s [t0; t1] (division_count frame_data)
                    (lines_skipped s t0 t1), rest).
Proof.
  intros Hact Htpl Hframe Hleft.
  rewrite (display_active s t0 t1 rest frame_data) by assumption.
  replace (0 <? _) with false by (symmetry; apply Z.ltb_ge; exact Hleft).
  reflexivity.
Qed.

Lemma display_wait (s : pov_state) (t0 t1 t2 : tick) (pre : list tick)
    (t : tick) (rest : list tick) (frame_data : table) :
  rotation_active s = true -> 0 < time_per_line_micros s ->
  frame_to_display s = Some frame_data ->
  0 < time_left s t0 t1 ->
  Forall (fun u => py_int (perf_micros u)
                   < py_int (perf_micros t2) + time_left s t0 t1) pre ->
  py_int (perf_micros t2) + time_left s t0 t1 <= py_int (perf_micros t) ->
  display_current_line (t0 :: t1 :: t2 :: pre ++ t :: rest) s
  = Some (refreshed s (t0 :: t1 :: t2 :: pre ++ [t])
                    (division_count frame_data) 0, rest).
Proof.
  intros Hact Htpl Hframe Hleft Hpre Ht.
  rewrite (display_active s t0 t1 _ frame_data) by assumption.
  replace (0 <? _) with true by (symmetry; apply Z.ltb_lt; exact Hleft).
  rewrite busy_wait_returns by assumption.
  rewrite bind_Some_l. cbv beta iota.
  apply (f_equal (fun x => Some (x, rest))).
  rewrite <- refreshed_after_wait. f_equal.
Qed.

(** What a call of [display_current_line] that returns has done. *)
Lemma display_inv (clock clock' : list tick) (s s' : pov_state) :
  display_current_line clock s = Some (s', clock') ->
  ((rotation_active s = false \/ time_per_line_micros s <= 0) /\
   s' = s /\ clock' = clock)
  \/ (rotation_active s = true /\ 0 < time_per_line_micros s /\
      exists frame_data t0 t1 used,
        frame_to_display s = Some frame_data /\
        clock = t0 :: t1 :: used ++ clock' /\
        (time_left s t0 t1 <= 0 -> used = []) /\
        s' = refreshed s (t0 :: t1 :: used) (division_count frame_data)
                       (lines_skipped s t0 t1)).
Proof.
  intros H.
  destruct (rotation_active s) eqn:Hact.
  2:{ left. unfold display_current_line in H. rewrite Hact in H.
      cbn [negb orb] in H. apply Some_pair_inv in H as [<- <-]. auto. }
  destruct (Z_lt_dec 0 (time_per_line_micros s)) as [Htpl|Htpl].
  2:{ left. unfold display_current_line in H. rewrite Hact in H.
      cbn [negb orb] in H.
      replace (time_per_line_micros s <=? 0) with true in H
        by (symmetry; apply Z.leb_le; lia).
      apply Some_pair_inv in H as [<- <-]. split; [right; lia | auto]. }
  right. split; [reflexivity|]. split; [exact Htpl|].
  destruct (frame_to_display s) as [frame_data|] eqn:Hframe.
  2:{ unfold display_current_line in H. rewrite Hact in H.
      cbn [negb orb] in H.
      replace (time_per_line_micros s <=? 0) with false in H
        by (symmetry; apply Z.leb_gt; exact Htpl).
      rewrite frame_to_display_event, Hframe, bind_None_l in H. discriminate. }
  destruct clock as [|t0 [|t1 rest]].
  - unfold display_current_line in H. rewrite Hact in H. cbn [negb orb] in H.
    replace (time_per_line_micros s <=? 0) with false in H
      by (symmetry; apply Z.leb_gt; exact Htpl).
    rewrite frame_to_display_event, Hframe, bind_Some_l in H.
    rewrite get_time_micros_nil, bind_None_l in H. discriminate.
  - unfold display_current_line in H. rewrite Hact in H. cbn [negb orb] in H.
    replace (time_per_line_micros s <=? 0) with false in H
      by (symmetry; apply Z.leb_gt; exact Htpl).
    rewrite frame_to_display_event, Hframe, bind_Some_l in H.
    rewrite get_time_micros_cons, bind_Some_l in H. cbv beta iota in H.
    rewrite get_time_micros_nil, bind_None_l in H. discriminate.
  - exists frame_data, t0, t1.
    destruct (Z_lt_dec 0 (time_left s t0 t1)) as [Hleft|Hleft].
    + pose proof H as H'.
      rewrite (display_active s t0 t1 rest frame_data) in H' by assumption.
      replace (0 <? _) with true in H' by (symmetry; apply Z.ltb_lt; exact Hleft).
      destruct rest as [|t2 rest2]; [discriminate|].
      destruct (busy_wait _ rest2 _) as [[s2 clock2]|] eqn:Hw;
        [|rewrite bind_None_l in H'; discriminate].
      apply busy_wait_inv in Hw as (pre & t & -> & Hpre & Ht).
      rewrite bind_Some_l in H'. cbv beta iota in H'.
      apply Some_pair_inv in H' as [_ <-].
      rewrite (display_wait s t0 t1 t2 pre t clock2 frame_data) in H
        by assumption.
      apply Some_pair_inv in H as [<- _].
      exists (t2 :: pre ++ [t]). split; [reflexivity|].
      split; [cbn [app]; rewrite <- app_assoc; reflexivity|].
      split; [lia|].
      replace (lines_skipped s t0 t1) with 0
        by (unfold lines_skipped;
            replace (_ <? -1000) with false
              by (symmetry; apply Z.ltb_ge; lia); reflexivity).
      reflexivity.
    + rewrite (display_no_wait s t0 t1 rest frame_data) in H
        by (assumption || lia).
      apply Some_pair_inv in H as [<- <-]. exists [].
      split; [reflexivity|]. split; [reflexivity|]. split; reflexivity.
Qed.

(** X14.  A refresh that is on time moves the slice index by exactly one.
    When the time left after the LED update is not below -1000
    microseconds, a call that returns has advanced the index it started
    from (0 if the rotation event was pending) by one, back to 0 at the end
    of the frame, and has counted no missed line. *)
Theorem on_time_refresh_advances_one_line (s s' : pov_state) (t0 t1 : tick)
    (rest clock' : list tick) (frame_data : table) :
  rotation_active s = true -> 0 < time_per_line_micros s ->
  frame_to_display s = Some frame_data ->
  -1000 <= time_left s t0 t1 ->
  display_current_line (t0 :: t1 :: rest) s = Some (s', clock') ->
  let num_divs := division_count frame_data in
  let index := refresh_index s in
  missed_lines_count s' = missed_lines_count s /\
  current_line s' = (if num_divs <=? index + 1 then 0 else index + 1) /\
  (0 <= index < num_divs -> current_line s' = (index + 1) mod num_divs).
Proof.
  intros Hact Htpl Hframe Hleft H num_divs index.
  apply display_inv in H as [([Hi|Hi] & _)|(_ & _ & fd & u0 & u1 & used & Hf & Hc & _ & ->)];
    [congruence | lia |].
  assert (fd = frame_data) as -> by congruence.
  assert (u0 = t0 /\ u1 = t1) as [-> ->] by (split; congruence).
  replace (lines_skipped s t0 t1) with 0
    by (unfold lines_skipped;
        replace (_ <? -1000) with false by (symmetry; apply Z.ltb_ge; lia);
        reflexivity).
  fold num_divs. unfold refreshed. fold index.
  assert (missed_lines_count
            (s <| rotation_end_event := existsb event_set (t0 :: t1 :: used) |>
               <| current_line := next_line num_divs (index + 0) |>
               <| missed_lines_count := missed_lines_count s + 0 |>)
          = missed_lines_count s + 0) as -> by (destruct_state s; reflexivity).
  assert (current_line
            (s <| rotation_end_event := existsb event_set (t0 :: t1 :: used) |>
               <| current_line := next_line num_divs (index + 0) |>
               <| missed_lines_count := missed_lines_count s + 0 |>)
          = next_line num_divs (index + 0)) as -> by (destruct_state s; reflexivity).
  rewrite !Z.add_0_r. unfold next_line.
  split; [reflexivity|]. split; [reflexivity|].
  intros Hidx. destruct (num_divs <=? index + 1) eqn:E.
  - apply Z.leb_le in E. replace (index + 1) with num_divs by lia.
    rewrite Z.mod_same by lia. reflexivity.
  - apply Z.leb_gt in E. rewrite Z.mod_small by lia. reflexivity.
Qed.

Lemma on_time_refresh_advances_one_line_witness :
  missed_lines_count after_display = missed_lines_count circle_state /\
  current_line after_display = (if 40 <=? 7 + 1 then 0 else 7 + 1) /\
  (0 <= 7 < 40 -> current_line after_display = (7 + 1) mod 40).
Proof.
  apply (on_time_refresh_advances_one_line circle_state after_display
           (at_micros 0 false) (at_micros 100 false)
           (quiet_clock [100; 2700]) []
           (generate_circle_data 28 (0, 255, 255))).
  - reflexivity.
  - vm_compute. reflexivity.
  - vm_compute. reflexivity.
  - vm_compute. discriminate.
  - vm_compute. reflexivity.
Defined.

(** X15.  A refresh consumes the pending rotation event and hands on the
    ones that arrive while it runs: after an active call that returns, the
    rotation event is set exactly when one of the clock readings the call
    consumed reported it.  Whether it was set on entry makes no
    difference. *)
Theorem refresh_hands_on_new_events (clock clock' : list tick)
    (s s' : pov_state) :
  rotation_active s = true -> 0 < time_per_line_micros s ->
  display_current_line clock s = Some (s', clock') ->
  exists used,
    clock = used ++ clock' /\ (2 <= length used)%nat /\
    rotation_end_event s' = existsb event_set used.
Proof.
  intros Hact Htpl H.
  apply display_inv in H as [([Hi|Hi] & _)|(_ & _ & fd & t0 & t1 & used & Hf & -> & _ & ->)];
    [congruence | lia |].
  exists (t0 :: t1 :: used). split; [reflexivity|].
  split; [cbn [length]; lia|].
  unfold refreshed. destruct_state s. reflexivity.
Qed.

Lemma refresh_hands_on_new_events_witness :
  exists used,
    eventful_clock = used ++ [at_micros 2800 false] /\ (2 <= length used)%nat /\
    rotation_end_event
      (default circle_state
         (fst <$> display_current_line eventful_clock
                    (circle_state <| rotation_end_event := true |>)))
    = existsb event_set used.
Proof.
  apply (refresh_hands_on_new_events eventful_clock [at_micros 2800 false]
           (circle_state <| rotation_end_event := true |>)).
  - reflexivity.
  - vm_compute. reflexivity.
  - vm_compute. reflexivity.
Defined.

(** ** Invariants of the main loop *)

(** *** Timing *)

Lemma rotation_time_bounds (stable rotation_time : Q) :
  (inject_Z MIN_RPM <= stable <= inject_Z MAX_RPM)%Q ->
  py_truediv 60000000 stable = Some rotation_time ->
  min_rotation_time <= py_int rotation_time <= max_rotation_time.
Proof.
  intros [Hlo Hhi] Hdiv. apply py_truediv_inv in Hdiv as [Hnz ->].
  rewrite min_rotation_time_eq, max_rotation_time_eq.
  change (inject_Z MIN_RPM) with 200%Q in Hlo.
  change (inject_Z MAX_RPM) with 1500%Q in Hhi.
  assert (0 < stable)%Q as Hpos by lra.
  assert (40000 <= 60000000 / stable)%Q as H1.
  { apply Qle_shift_div_l; [exact Hpos | lra]. }
  assert (60000000 / stable <= 300000)%Q as H2.
  { apply Qle_shift_div_r; [exact Hpos | lra]. }
  rewrite py_int_floor by lra. split.
  - transitivity (Qfloor (inject_Z 40000)); [rewrite Qfloor_Z; lia|].
    apply Qfloor_resp_le. exact H1.
  - transitivity (Qfloor (inject_Z 300000)); [|rewrite Qfloor_Z; lia].
    apply Qfloor_resp_le. exact H2.
Qed.

Lemma line_time_bounds (r : Z) :
  min_rotation_time <= r <= max_rotation_time ->
  LED_UPDATE_TIME_US <= line_time r <= max_rotation_time / NUM_DIVISIONS.
Proof.
  rewrite min_rotation_time_eq, max_rotation_time_eq. intros [H1 H2].
  rewrite line_time_max. change LED_UPDATE_TIME_US with 2800.
  change NUM_DIVISIONS with 40. change (300000 / 40) with 7500.
  assert (r / 40 <= 7500) by (apply Z.div_le_upper_bound; lia).
  lia.
Qed.

Lemma startup_timing (w : world) : timing_within_bounds (startup w).
Proof.
  unfold timing_within_bounds.
  rewrite min_rotation_time_eq, max_rotation_time_eq.
  change (rotation_time_micros (startup w)) with 120000.
  change (time_per_line_micros (startup w)) with 3000.
  change LED_UPDATE_TIME_US with 2800.
  change (300000 / NUM_DIVISIONS) with 7500. lia.
Qed.

Lemma check_hall_sensor_timing (cs : level) (t : Z) (s s' : pov_state) :
  rpm_within_bounds s -> timing_within_bounds s ->
  check_hall_sensor cs t s = Some s' -> timing_within_bounds s'.
Proof.
  intros Hrpm Htim H.
  pose proof (check_hall_sensor_within_bounds cs t s s' Hrpm H) as Hrpm'.
  apply check_hall_sensor_outcome in H.
  destruct H as [Hn|He Hv|? ? ?|? ? ?|stable rt ? ? ? ? Hs Hd].
  1-4: unfold timing_within_bounds in *; outcome_fields; exact Htim.
  assert (stable_rpm
            (finish_pulse HIGH t
               (trigger t s
                  <| rpm_history := push_history (rpm_history s) (instant_rpm_of t s) |>
                  <| valid_rotation_count := valid_rotation_count s + 1 |>
                  <| stable_rpm := stable |>
                  <| current_rpm := stable |>
                  <| rotation_time_micros := py_int rt |>
                  <| time_per_line_micros := line_time (py_int rt) |>)) = stable)
    as Hst by (clear; outcome_fields; reflexivity).
  destruct Hrpm' as (_ & _ & Hb). rewrite Hst in Hb.
  pose proof (rotation_time_bounds stable rt Hb Hd) as Hrt.
  pose proof (line_time_bounds _ Hrt) as Hlt.
  clear - Hrt Hlt. unfold timing_within_bounds.
  outcome_fields; split; assumption.
Qed.

Lemma reachable_timing (w : world) (s : pov_state) :
  reachable w s -> timing_within_bounds s.
Proof.
  induction 1 as [|s s' c q i t Hr IH Hb|s s' cs t Hr IH Hh|s s' clock clock' Hr IH Hd].
  - apply startup_timing.
  - apply check_buttons_same_motion in Hb.
    unfold same_motion in Hb. unfold timing_within_bounds in *.
    destruct Hb as (_ & _ & _ & _ & -> & -> & _). exact IH.
  - eapply check_hall_sensor_timing; [|exact IH|exact Hh].
    apply (reachable_within_bounds w). exact Hr.
  - apply display_current_line_same_but_line in Hd.
    unfold same_but_line in Hd. unfold timing_within_bounds in *.
    destruct Hd as (_ & _ & _ & _ & _ & _ & _ & _ & _ & _ & -> & -> & _).
    exact IH.
Qed.

(** Two revolutions after start-up are a run. *)
Lemma two_turns_reachable :
  reachable broken_world
    (full_pulse 2120000 (full_pulse 2000000 (startup broken_world))).
Proof.
  apply (reach_hall broken_world
           (after_pulse 2120000 (full_pulse 2000000 (startup broken_world)))
           _ LOW 2121000); [|vm_compute; reflexivity].
  apply (reach_hall broken_world (full_pulse 2000000 (startup broken_world))
           _ HIGH 2120000); [|vm_compute; reflexivity].
  apply (reach_hall broken_world (after_pulse 2000000 (startup broken_world))
           _ LOW 2001000); [|vm_compute; reflexivity].
  apply (reach_hall broken_world (startup broken_world)
           _ HIGH 2000000); [|vm_compute; reflexivity].
  apply reach_startup.
Qed.

(** X16.  In every state of a run the rotation time lies between 40000 and
    300000 microseconds and the per-line time between 2800 and 7500
    microseconds, as for an RPM between [MIN_RPM] and [MAX_RPM].  The
    per-line time is therefore never zero or negative: the test
    [time_per_line_micros <= 0] of [display_current_line] never holds, and
    the division by it in the catch-up branch never fails. *)
Theorem timing_stays_within_bounds (w : world) (s : pov_state) :
  reachable w s ->
  40000 <= rotation_time_micros s <= 300000 /\
  2800 <= time_per_line_micros s <= 7500 /\
  (time_per_line_micros s <=? 0) = false.
Proof.
  intros Hr. apply reachable_timing in Hr as [H1 H2].
  rewrite min_rotation_time_eq, max_rotation_time_eq in H1.
  change LED_UPDATE_TIME_US with 2800 in H2.
  change (max_rotation_time / NUM_DIVISIONS) with 7500 in H2.
  split; [exact H1|]. split; [exact H2|]. apply Z.leb_gt. lia.
Qed.

Lemma timing_stays_within_bounds_witness :
  let s := full_pulse 2120000 (full_pulse 2000000 (startup broken_world)) in
  40000 <= rotation_time_micros s <= 300000 /\
  2800 <= time_per_line_micros s <= 7500 /\
  (time_per_line_micros s <=? 0) = false.
Proof.
  apply (timing_stays_within_bounds broken_world).
  exact two_turns_reachable.
Defined.

(** *** Counters *)

Lemma push_history_len (h : list Q) (x : Q) :
  len (push_history h x) <= len h + 1.
Proof.
  unfold push_history. cbv zeta.
  assert (len (h ++ [x]) = len h + 1) as E
    by (unfold len; rewrite length_app; cbn [length]; lia).
  destruct (_ <? _); [|lia].
  unfold pop0, len in *. destruct (h ++ [x]); cbn [tail length] in *; lia.
Qed.

Lemma lines_skipped_nonneg (s : pov_state) (t0 t1 : tick) :
  0 < time_per_line_micros s -> 0 <= lines_skipped s t0 t1.
Proof.
  intros Htpl. unfold lines_skipped. destruct (_ <? _) eqn:E; [|lia].
  apply Z.ltb_lt in E. apply Z.div_pos; lia.
Qed.

Lemma next_line_nonneg (num_divs index : Z) :
  0 <= index -> 0 <= next_line num_divs index.
Proof. intros H. unfold next_line. destruct (_ <=? _); lia. Qed.

Lemma next_line_below (num_divs index : Z) :
  0 < num_divs -> next_line num_divs index < num_divs.
Proof.
  intros H. unfold next_line. destruct (_ <=? _) eqn:E; [lia|].
  apply Z.leb_gt in E. lia.
Qed.

Lemma startup_counters (w : world) : counters_consistent (startup w).
Proof.
  unfold counters_consistent.
  change (valid_rotation_count (startup w)) with 0.
  change (rotation_count (startup w)) with 0.
  change (rpm_history (startup w)) with (@nil Q).
  change (noise_rejected_count (startup w)) with 0.
  change (missed_lines_count (startup w)) with 0.
  change (current_line (startup w)) with 0.
  change (rotation_active (startup w)) with false.
  change (last_rotation_micros (startup w)) with 0.
  change (len []) with 0.
  repeat split; try lia; try discriminate.
Qed.

Lemma check_hall_sensor_counters (cs : level) (t : Z) (s s' : pov_state) :
  counters_consistent s ->
  check_hall_sensor cs t s = Some s' -> counters_consistent s'.
Proof.
  intros Hc H. apply check_hall_sensor_outcome in H.
  destruct H as [Hn|He Hv|? ? Hl|? ? Hl|stable rt ? ? Hl ? Hs Hd].
  - unfold counters_consistent in *. outcome_fields. exact Hc.
  - unfold counters_consistent in *. outcome_fields. intuition lia.
  - unfold counters_consistent in *. outcome_fields; intuition lia.
  - unfold counters_consistent in *. outcome_fields. intuition lia.
  - pose proof (push_history_len (rpm_history s) (instant_rpm_of t s)) as Hp.
    revert Hp. generalize (push_history (rpm_history s) (instant_rpm_of t s)).
    intros h Hp. clear Hs Hd.
    unfold counters_consistent in *. outcome_fields; intuition lia.
Qed.

Lemma display_current_line_counters (clock clock' : list tick)
    (s s' : pov_state) :
  counters_consistent s ->
  display_current_line clock s = Some (s', clock') -> counters_consistent s'.
Proof.
  intros Hc H.
  apply display_inv in H as [(_ & -> & _)|(_ & Htpl & fd & t0 & t1 & used & _ & _ & _ & ->)];
    [exact Hc|].
  pose proof (lines_skipped_nonneg s t0 t1 Htpl) as Hs.
  assert (0 <= refresh_index s) as Hi.
  { unfold refresh_index. destruct (rotation_end_event s); [lia|].
    apply Hc. }
  pose proof (next_line_nonneg (division_count fd)
                (refresh_index s + lines_skipped s t0 t1) ltac:(lia)) as Hn.
  unfold refreshed.
  revert Hs Hn. generalize (lines_skipped s t0 t1).
  generalize (next_line (division_count fd)). intros f k Hs Hn. clear Hi.
  unfold counters_consistent in *.
  destruct_state s. st_simpl. intuition lia.
Qed.

Lemma reachable_counters (w : world) (s : pov_state) :
  reachable w s -> counters_consistent s.
Proof.
  induction 1 as [|s s' c q i t Hr IH Hb|s s' cs t Hr IH Hh|s s' clock clock' Hr IH Hd].
  - apply startup_counters.
  - apply check_buttons_same_motion in Hb.
    unfold same_motion in Hb. unfold counters_consistent in *.
    destruct Hb as (_ & _ & _ & -> & _ & _ & -> & -> & _ & _ & -> & -> & -> & -> & -> & _).
    exact IH.
  - eapply check_hall_sensor_counters; eassumption.
  - eapply display_current_line_counters; eassumption.
Qed.

(** X17.  In every state of a run the counters agree: the valid rotations
    are at most the counted rotations, the RPM history holds at most one
    reading per valid rotation, no counter and no slice index is negative,
    and the display is active exactly when at least one rotation has been
    counted. *)
Theorem counters_stay_consistent (w : world) (s : pov_state) :
  reachable w s ->
  0 <= valid_rotation_count s <= rotation_count s /\
  len (rpm_history s) <= valid_rotation_count s /\
  0 <= noise_rejected_count s /\
  0 <= missed_lines_count s /\
  0 <= current_line s /\
  (rotation_active s = true <-> 0 < rotation_count s).
Proof.
  intros Hr. apply reachable_counters in Hr.
  unfold counters_consistent in Hr. tauto.
Qed.

Lemma counters_stay_consistent_witness :
  let s := full_pulse 2120000 (full_pulse 2000000 (startup broken_world)) in
  0 <= valid_rotation_count s <= rotation_count s /\
  len (rpm_history s) <= valid_rotation_count s /\
  0 <= noise_rejected_count s /\
  0 <= missed_lines_count s /\
  0 <= current_line s /\
  (rotation_active s = true <-> 0 < rotation_count s).
Proof.
  apply (counters_stay_consistent broken_world).
  exact two_turns_reachable.
Defined.

(** *** Content *)

Lemma circle_well_formed (radius_leds : Z) (color_rgb : sample) :
  well_formed_table (generate_circle_data radius_leds color_rgb).
Proof.
  rewrite generate_circle_data_rows. split; [discriminate|].
  unfold full_width. apply Forall_replicate.
  destruct (_ <? _); [apply marked_row_length | apply dark_row_length].
Qed.

Lemma square_well_formed (w : world) (side_length_leds : Z)
    (color_rgb : sample) :
  well_formed_table (generate_square_data w side_length_leds color_rgb).
Proof.
  rewrite generate_square_data_rows. split; [discriminate|].
  unfold full_width. apply Forall_forall. intros line Hin.
  apply list_elem_of_In, in_map_iff in Hin as (a & <- & _).
  apply marked_row_length.
Qed.

Lemma load_npy_image_full_width (w : world) (path : string) (t : table) :
  load_npy_image w path = Some t -> full_width t.
Proof.
  unfold load_npy_image. destruct (np_load w path); [|discriminate].
  intros H. apply Some_eq_inv in H as <-. apply arrange_full_width.
Qed.

Lemma py_index_in_range {A} (l : list A) (i : Z) :
  l <> [] -> index_in_range i l -> exists x, py_index l i = Some x.
Proof.
  intros Hne [H0 H1]. unfold py_index.
  replace (0 <=? i) with true by (symmetry; apply Z.leb_le; exact H0).
  apply lookup_lt_is_Some_2.
  unfold len in H1. destruct l; [congruence|]. cbn [length] in *. lia.
Qed.

Lemma index_in_range_mod {A} (i : Z) (l : list A) :
  l <> [] -> index_in_range (i mod len l) l.
Proof.
  intros Hne. unfold index_in_range.
  assert (0 < len l) by (unfold len; destruct l; [congruence | cbn [length]; lia]).
  pose proof (Z.mod_pos_bound i (len l) ltac:(lia)). lia.
Qed.

Lemma index_in_range_zero {A} (l : list A) : index_in_range 0 l.
Proof. unfold index_in_range. lia. Qed.

Lemma truthy_nonempty {A} (l : list A) : truthy l = true <-> l <> [].
Proof. destruct l; cbn; split; congruence. Qed.

(** What [load_gif_sequence] returns and leaves. *)
Lemma load_gif_sequence_result (w : world) (name : string) (s : pov_state) :
  load_gif_sequence w name s = (s, None)
  \/ exists frames,
       load_gif_sequence w name s
       = (s <| sequence_colors := frames |> <| current_frame_index := 0 |>,
          Some frames) /\
       Forall well_formed_table frames.
Proof.
  unfold load_gif_sequence. cbv zeta.
  destruct (listdir w _) as [entries|]; [|left; reflexivity].
  destruct (truthy _); [|left; reflexivity].
  right. eexists. split; [reflexivity|].
  apply Forall_forall. intros frame Hin.
  apply list_elem_of_omap in Hin as (file & _ & Hf).
  destruct (load_npy_image w _) as [frame_data|] eqn:El; [|discriminate].
  destruct (truthy frame_data) eqn:Et; [|discriminate].
  apply Some_eq_inv in Hf as <-. split.
  - apply truthy_nonempty. exact Et.
  - apply (load_npy_image_full_width w _ _ El).
Qed.

Section Content.
Context (w : world) (images gifs : list string).

Lemma set_mode_circle_content (s : pov_state) :
  content_well_formed images gifs s ->
  content_well_formed images gifs (set_mode_circle s).
Proof.
  intros H. pose proof (circle_well_formed 28 (0, 255, 255)) as Hc.
  revert Hc. unfold set_mode_circle.
  generalize (generate_circle_data 28 (0, 255, 255)). intros d Hd.
  unfold content_well_formed in *. destruct_state s. st_simpl.
  intuition discriminate.
Qed.

Lemma set_mode_square_content (s : pov_state) :
  content_well_formed images gifs s ->
  content_well_formed images gifs (set_mode_square w s).
Proof.
  intros H. pose proof (square_well_formed w 24 (255, 0, 255)) as Hc.
  revert Hc. unfold set_mode_square.
  generalize (generate_square_data w 24 (255, 0, 255)). intros d Hd.
  unfold content_well_formed in *. destruct_state s. st_simpl.
  intuition discriminate.
Qed.

Lemma set_mode_static_image_content (s : pov_state) :
  content_well_formed images gifs s ->
  exists s', set_mode_static_image w s = Some s' /\
             content_well_formed images gifs s'.
Proof.
  intros H. unfold set_mode_static_image.
  destruct (truthy (static_images s)) eqn:Et; cbn [negb];
    [|exists s; split; [reflexivity | exact H]].
  apply truthy_nonempty in Et. cbv zeta.
  assert (exists img, py_index (static_images s) (current_static_index s)
                      = Some img) as [img Himg].
  { apply py_index_in_range; [exact Et | apply H]. }
  replace (py_index (static_images (s <| current_mode := static_image |>))
                    (current_static_index (s <| current_mode := static_image |>)))
    with (Some img) by (rewrite <- Himg; destruct_state s; reflexivity).
  rewrite bind_Some_l.
  pose proof (circle_well_formed 28 (0, 255, 255)) as Hc. revert Hc.
  generalize (generate_circle_data 28 (0, 255, 255)). intros c Hc.
  destruct (load_npy_image w _) as [[|line rows]|] eqn:El;
    (eexists; split; [reflexivity|]);
    try apply load_npy_image_full_width in El;
    unfold content_well_formed, well_formed_table in *; destruct_state s;
    st_simpl; intuition discriminate.
Qed.

Lemma set_mode_gif_sequence_content (s : pov_state) :
  content_well_formed images gifs s ->
  exists s', set_mode_gif_sequence w s = Some s' /\
             content_well_formed images gifs s'.
Proof.
  intros H. unfold set_mode_gif_sequence.
  destruct (truthy (gif_sequences s)) eqn:Et; cbn [negb];
    [|exists s; split; [reflexivity | exact H]].
  apply truthy_nonempty in Et. cbv zeta.
  assert (exists name, py_index (gif_sequences s) (current_gif_index s)
                       = Some name) as [name Hname].
  { apply py_index_in_range; [exact Et | apply H]. }
  replace (py_index (gif_sequences (s <| current_mode := gif_sequence |>))
                    (current_gif_index (s <| current_mode := gif_sequence |>)))
    with (Some name) by (rewrite <- Hname; destruct_state s; reflexivity).
  rewrite bind_Some_l.
  pose proof (circle_well_formed 28 (0, 255, 255)) as Hc. revert Hc.
  generalize (generate_circle_data 28 (0, 255, 255)). intros c Hc.
  destruct (load_gif_sequence_result w name (s <| current_mode := gif_sequence |>))
    as [->|(frames & -> & Hframes)].
  - eexists. split; [reflexivity|].
    unfold content_well_formed in *. destruct_state s. st_simpl.
    intuition discriminate.
  - destruct frames as [|frame frames].
    + eexists. split; [reflexivity|].
      unfold content_well_formed, index_in_range in *. destruct_state s. st_simpl.
      change (len []) with 0. intuition (discriminate || lia).
    + replace (py_index (sequence_colors _) 0) with (Some frame)
        by (destruct_state s; reflexivity).
      rewrite bind_Some_l. eexists. split; [reflexivity|].
      apply Forall_cons in Hframes as Hf. destruct Hf as [Hf _].
      assert (0 < len (frame :: frames)) as Hlen
        by (unfold len; cbn [length]; lia).
      revert Hframes Hlen. generalize (frame :: frames). intros fs Hfs Hlen.
      unfold content_well_formed, index_in_range in *. destruct_state s. st_simpl.
      intuition (discriminate || lia).
Qed.

Lemma palette_index (palette : list sample) (n : Z) :
  len palette = 4 -> exists c, py_index palette (n mod len palette) = Some c.
Proof.
  intros H. apply py_index_in_range.
  - intros ->. discriminate.
  - apply index_in_range_mod. intros ->. discriminate.
Qed.

Lemma cycle_content_content (s : pov_state) :
  content_well_formed images gifs s ->
  exists s', cycle_content w s = Some s' /\
             content_well_formed images gifs s'.
Proof.
  intros H. unfold cycle_content.
  destruct (mode_eqb (current_mode s) static_image && truthy (static_images s))
    eqn:E1.
  { apply andb_true_iff in E1 as [_ Et]. apply truthy_nonempty in Et.
    apply set_mode_static_image_content.
    pose proof (index_in_range_mod (current_static_index s + 1) _ Et) as Hi.
    revert Hi. generalize ((current_static_index s + 1) mod len (static_images s)).
    intros i Hi. unfold content_well_formed in *. destruct_state s. st_simpl.
    intuition. }
  destruct (mode_eqb (current_mode s) gif_sequence && truthy (gif_sequences s))
    eqn:E2.
  { apply andb_true_iff in E2 as [_ Et]. apply truthy_nonempty in Et.
    apply set_mode_gif_sequence_content.
    pose proof (index_in_range_mod (current_gif_index s + 1) _ Et) as Hi.
    revert Hi. generalize ((current_gif_index s + 1) mod len (gif_sequences s)).
    intros i Hi. unfold content_well_formed in *. destruct_state s. st_simpl.
    intuition. }
  destruct (mode_eqb (current_mode s) circle) eqn:E3.
  { destruct (palette_index circle_colors (rotation_count s) eq_refl) as [c ->].
    rewrite bind_Some_l. eexists. split; [reflexivity|].
    pose proof (circle_well_formed 28 c) as Hc. revert Hc.
    generalize (generate_circle_data 28 c). intros d Hd.
    unfold content_well_formed in *. destruct_state s. st_simpl. intuition. }
  destruct (mode_eqb (current_mode s) square) eqn:E4.
  { destruct (palette_index square_colors (rotation_count s) eq_refl) as [c ->].
    rewrite bind_Some_l. eexists. split; [reflexivity|].
    pose proof (square_well_formed w 24 c) as Hc. revert Hc.
    generalize (generate_square_data w 24 c). intros d Hd.
    unfold content_well_formed in *. destruct_state s. st_simpl. intuition. }
  exists s. split; [reflexivity | exact H].
Qed.

Lemma button_fields_content (s : pov_state) (a b c : level) (x y z : Q) :
  content_well_formed images gifs s ->
  content_well_formed images gifs (s <| last_state_circle := a |>) /\
  content_well_formed images gifs (s <| last_state_square := b |>) /\
  content_well_formed images gifs (s <| last_state_image := c |>) /\
  content_well_formed images gifs (s <| last_time_circle := x |>) /\
  content_well_formed images gifs (s <| last_time_square := y |>) /\
  content_well_formed images gifs (s <| last_time_image := z |>).
Proof.
  intros H.
  repeat match goal with |- _ /\ _ => split end; content_fields.
Qed.

Lemma check_button_circle_content (pin : level) (t : Q) (s : pov_state) :
  content_well_formed images gifs s ->
  exists s', check_button_circle w pin t s = Some s' /\
             content_well_formed images gifs s'.
Proof.
  intros H. unfold check_button_circle.
  destruct (_ && _);
    [|rewrite bind_Some_l; eexists; split; [reflexivity|];
      apply (button_fields_content s pin pin pin t t t H)].
  destruct (Qltb _ _);
    [|rewrite bind_Some_l; eexists; split; [reflexivity|];
      apply (button_fields_content s pin pin pin t t t H)].
  assert (exists s1,
             (if mode_eqb (current_mode s) circle then cycle_content w s
              else Some (set_mode_circle s)) = Some s1 /\
             content_well_formed images gifs s1) as (s1 & -> & H1).
  { destruct (mode_eqb _ _);
      [apply cycle_content_content; exact H|].
    eexists. split; [reflexivity|]. apply set_mode_circle_content. exact H. }
  rewrite !bind_Some_l. eexists. split; [reflexivity|].
  apply (button_fields_content _ pin pin pin t t t).
  apply (button_fields_content s1 pin pin pin t t t H1).
Qed.

Lemma check_button_square_content (pin : level) (t : Q) (s : pov_state) :
  content_well_formed images gifs s ->
  exists s', check_button_square w pin t s = Some s' /\
             content_well_formed images gifs s'.
Proof.
  intros H. unfold check_button_square.
  destruct (_ && _);
    [|rewrite bind_Some_l; eexists; split; [reflexivity|];
      apply (button_fields_content s pin pin pin t t t H)].
  destruct (Qltb _ _);
    [|rewrite bind_Some_l; eexists; split; [reflexivity|];
      apply (button_fields_content s pin pin pin t t t H)].
  assert (exists s1,
             (if mode_eqb (current_mode s) square then cycle_content w s
              else Some (set_mode_square w s)) = Some s1 /\
             content_well_formed images gifs s1) as (s1 & -> & H1).
  { destruct (mode_eqb _ _);
      [apply cycle_content_content; exact H|].
    eexists. split; [reflexivity|]. apply set_mode_square_content. exact H. }
  rewrite !bind_Some_l. eexists. split; [reflexivity|].
  apply (button_fields_content _ pin pin pin t t t).
  apply (button_fields_content s1 pin pin pin t t t H1).
Qed.

Lemma first_image_content (s : pov_state) :
  content_well_formed images gifs s ->
  content_well_formed images gifs (s <| current_static_index := 0 |>).
Proof.
  intros H. unfold content_well_formed, index_in_range in *.
  destruct_state s. st_simpl. intuition lia.
Qed.

Lemma check_button_image_content (pin : level) (t : Q) (s : pov_state) :
  content_well_formed images gifs s ->
  exists s', check_button_image w pin t s = Some s' /\
             content_well_formed images gifs s'.
Proof.
  intros H. unfold check_button_image.
  destruct (_ && _);
    [|rewrite bind_Some_l; eexists; split; [reflexivity|];
      apply (button_fields_content s pin pin pin t t t H)].
  destruct (Qltb _ _);
    [|rewrite bind_Some_l; eexists; split; [reflexivity|];
      apply (button_fields_content s pin pin pin t t t H)].
  match goal with
  | |- exists s', ((?m ≫= _) ≫= _) = _ /\ _ =>
      assert (exists s1, m = Some s1 /\ content_well_formed images gifs s1)
        as (s1 & -> & H1)
  end.
  { repeat break_if;
      first [ apply cycle_content_content; exact H
            | apply set_mode_gif_sequence_content; exact H
            | apply set_mode_static_image_content;
              apply first_image_content; exact H ]. }
  rewrite !bind_Some_l. eexists. split; [reflexivity|].
  apply (button_fields_content _ pin pin pin t t t).
  apply (button_fields_content s1 pin pin pin t t t H1).
Qed.

Lemma check_buttons_content (c q i : level) (t : Q) (s : pov_state) :
  content_well_formed images gifs s ->
  exists s', check_buttons w c q i t s = Some s' /\
             content_well_formed images gifs s'.
Proof.
  intros H. unfold check_buttons.
  destruct (check_button_circle_content c t s H) as (s1 & -> & H1).
  rewrite bind_Some_l.
  destruct (check_button_square_content q t s1 H1) as (s2 & -> & H2).
  rewrite bind_Some_l.
  apply check_button_image_content. exact H2.
Qed.
End Content.

Lemma hall_frame_index (cs : level) (t : Z) (s s' : pov_state) :
  check_hall_sensor cs t s = Some s' ->
  current_frame_index s' = current_frame_index s
  \/ (sequence_colors s <> [] /\
      current_frame_index s'
      = (current_frame_index s + 1) mod len (sequence_colors s)).
Proof.
  intros H. apply check_hall_sensor_outcome in H.
  destruct H as [Hn|He Hv|? ? ?|? ? ?|stable rt ? ? ? ? ? ?].
  1,2,4: left; outcome_fields; reflexivity.
  all: unfold finish_pulse, trigger; cbv zeta; destruct_state s; st_simpl;
    destruct (mode_eqb _ _), (truthy _) eqn:Et, (_ mod _ =? 0);
    cbn [andb]; st_simpl; try (left; reflexivity);
    right; split; [apply truthy_nonempty; exact Et | reflexivity].
Qed.

Lemma check_hall_sensor_content (images gifs : list string) (cs : level)
    (t : Z) (s s' : pov_state) :
  content_well_formed images gifs s ->
  check_hall_sensor cs t s = Some s' ->
  content_well_formed images gifs s'.
Proof.
  intros H Hh.
  pose proof (check_hall_sensor_same_content cs t s s' Hh) as Hc.
  pose proof (hall_frame_index cs t s s' Hh) as Hf.
  assert (index_in_range (current_frame_index s') (sequence_colors s)) as Hi.
  { destruct Hf as [->|[Hne ->]]; [apply H|].
    apply index_in_range_mod. exact Hne. }
  clear Hf Hh. unfold same_content in Hc.
  unfold content_well_formed, index_in_range, full_width in *.
  destruct_state s. destruct_state s'. st_simpl.
  destruct Hc as (-> & -> & -> & -> & -> & -> & -> & -> & _).
  intuition.
Qed.

Lemma display_current_line_content (images gifs : list string)
    (clock clock' : list tick) (s s' : pov_state) :
  content_well_formed images gifs s ->
  display_current_line clock s = Some (s', clock') ->
  content_well_formed images gifs s'.
Proof.
  intros H Hd. apply display_current_line_same_but_line in Hd.
  unfold same_but_line in Hd.
  unfold content_well_formed, index_in_range, full_width in *.
  destruct_state s. destruct_state s'. st_simpl.
  destruct Hd as (-> & -> & -> & -> & -> & -> & -> & -> & -> & _).
  exact H.
Qed.

Lemma startup_content (w : world) :
  content_well_formed (discovered_images w) (discovered_gifs w) (startup w).
Proof.
  unfold discovered_images, discovered_gifs, startup.
  pose proof (circle_well_formed 28 (0, 255, 255)) as Hc. revert Hc.
  unfold set_mode_circle.
  generalize (generate_circle_data 28 (0, 255, 255)). intros d Hd.
  unfold content_well_formed, index_in_range,
    discover_gif_sequences, discover_static_images, initial_state.
  st_simpl. change (len []) with 0.
  repeat match goal with |- _ /\ _ => split end;
    try lia; try discriminate; try exact Hd; try reflexivity; constructor.
Qed.

Lemma reachable_content (w : world) (s : pov_state) :
  reachable w s ->
  content_well_formed (discovered_images w) (discovered_gifs w) s.
Proof.
  induction 1 as [|s s' c q i t Hr IH Hb|s s' cs t Hr IH Hh|s s' clock clock' Hr IH Hd].
  - apply startup_content.
  - destruct (check_buttons_content w _ _ c q i t s IH) as (s2 & E & H2).
    congruence.
  - eapply check_hall_sensor_content; eassumption.
  - eapply display_current_line_content; eassumption.
Qed.

(** X18.  The content lists are fixed at start-up and the indices stay
    inside them: in every state of a run the lists of images and of GIF
    folders are the discovered ones, [rot_per_frame] is [ROT_PER_FRAME],
    each of the three indices is a position of its list (or 0 when the list
    is empty), and the mode is an image or GIF mode only if there is an
    image or a GIF folder. *)
Theorem content_indices_stay_in_range (w : world) (s : pov_state) :
  reachable w s ->
  static_images s = static_images (startup w) /\
  gif_sequences s = gif_sequences (startup w) /\
  rot_per_frame s = ROT_PER_FRAME /\
  0 <= current_static_index s < Z.max 1 (len (static_images s)) /\
  0 <= current_gif_index s < Z.max 1 (len (gif_sequences s)) /\
  0 <= current_frame_index s < Z.max 1 (len (sequence_colors s)) /\
  (current_mode s = static_image -> static_images s <> []) /\
  (current_mode s = gif_sequence -> gif_sequences s <> []).
Proof.
  intros Hr. apply reachable_content in Hr.
  unfold content_well_formed, index_in_range, discovered_images,
    discovered_gifs in Hr. tauto.
Qed.

Lemma content_indices_stay_in_range_witness :
  let s := after_circle_press in
  static_images s = static_images (startup broken_world) /\
  gif_sequences s = gif_sequences (startup broken_world) /\
  rot_per_frame s = ROT_PER_FRAME /\
  0 <= current_static_index s < Z.max 1 (len (static_images s)) /\
  0 <= current_gif_index s < Z.max 1 (len (gif_sequences s)) /\
  0 <= current_frame_index s < Z.max 1 (len (sequence_colors s)) /\
  (current_mode s = static_image -> static_images s <> []) /\
  (current_mode s = gif_sequence -> gif_sequences s <> []).
Proof.
  apply (content_indices_stay_in_range broken_world).
  apply (reach_buttons broken_world (startup broken_world) _ LOW HIGH HIGH 1).
  - apply reach_startup.
  - vm_compute. reflexivity.
Defined.



(** The image of two divisions is on display with its two rows. *)
Example loaded_image_is_installed_whole :
  current_mode after_image_press = static_image /\
  display_data after_image_press
  = arrange_colors_for_display (synthetic_table 2 72) /\
  length (display_data after_image_press) = 2%nat.
Proof. vm_compute. repeat split. Qed.

(** X20.  Without content the fan stays with the two shapes: when the
    discovery finds neither an image nor a GIF folder, the mode of every
    state of a run is the circle or the square, whatever buttons are
    pressed. *)
Theorem no_content_keeps_shapes (w : world) (s : pov_state) :
  static_images (startup w) = [] -> gif_sequences (startup w) = [] ->
  reachable w s ->
  current_mode s = circle \/ current_mode s = square.
Proof.
  intros Hi Hg Hr. apply reachable_content in Hr.
  unfold content_well_formed, discovered_images, discovered_gifs in Hr.
  destruct Hr as (Hsi & Hsg & _ & _ & _ & _ & _ & _ & Hm1 & Hm2).
  destruct (current_mode s); auto.
  - exfalso. apply Hm1; [reflexivity | congruence].
  - exfalso. apply Hm2; [reflexivity | congruence].
Qed.

Lemma no_content_keeps_shapes_witness :
  let s := default (startup bare_world)
             (check_buttons bare_world HIGH HIGH LOW 1 (startup bare_world)) in
  current_mode s = circle \/ current_mode s = square.
Proof.
  apply (no_content_keeps_shapes bare_world).
  - reflexivity.
  - reflexivity.
  - apply (reach_buttons bare_world (startup bare_world) _ HIGH HIGH LOW 1).
    + apply reach_startup.
    + vm_compute. reflexivity.
Defined.

(** *** The loop never raises *)

(** X21.  A poll of the buttons never raises in a run: in every reachable
    state, whatever the three pins read and whatever the time,
    [check_buttons] returns.  No index into the image list, the GIF list,
    the loaded frames or a colour palette is out of range. *)
Theorem check_buttons_never_raises (w : world) (s : pov_state)
    (pin_circle pin_square pin_image : level) (current_time : Q) :
  reachable w s ->
  exists s', check_buttons w pin_circle pin_square pin_image current_time s
             = Some s'.
Proof.
  intros Hr. apply reachable_content in Hr.
  destruct (check_buttons_content w _ _ pin_circle pin_square pin_image
              current_time s Hr) as (s' & E & _).
  exists s'. exact E.
Qed.

Lemma check_buttons_never_raises_witness :
  exists s', check_buttons broken_world HIGH HIGH LOW 5 two_turns = Some s'.
Proof.
  apply (check_buttons_never_raises broken_world two_turns).
  exact two_turns_reachable.
Defined.

Lemma frame_to_display_content (images gifs : list string) (s : pov_state) :
  content_well_formed images gifs s ->
  exists frame_data, frame_to_display s = Some frame_data.
Proof.
  intros H. unfold frame_to_display.
  destruct (mode_eqb _ _); cbn [andb]; [|eexists; reflexivity].
  destruct (truthy _) eqn:Et; [|eexists; reflexivity].
  apply py_index_in_range; [apply truthy_nonempty; exact Et | apply H].
Qed.

Lemma clock_reaches_earlier (target target' : Z) (clock : list tick) :
  target' <= target -> clock_reaches target clock ->
  clock_reaches target' clock.
Proof.
  intros Hle H. unfold clock_reaches in *.
  apply Exists_exists in H as (t & Hin & Ht).
  apply Exists_exists. exists t. split; [exact Hin | lia].
Qed.

Lemma display_current_line_returns (images gifs : list string)
    (s : pov_state) (t0 t1 t2 : tick) (rest : list tick) :
  content_well_formed images gifs s ->
  clock_reaches (py_int (perf_micros t2) + time_left s t0 t1) rest ->
  exists s' clock',
    display_current_line (t0 :: t1 :: t2 :: rest) s = Some (s', clock').
Proof.
  intros Hc Hclock.
  destruct (rotation_active s) eqn:Hact.
  2:{ unfold display_current_line. rewrite Hact. cbn [negb orb].
      eexists. eexists. reflexivity. }
  destruct (Z_lt_dec 0 (time_per_line_micros s)) as [Htpl|Htpl].
  2:{ unfold display_current_line. rewrite Hact. cbn [negb orb].
      replace (time_per_line_micros s <=? 0) with true
        by (symmetry; apply Z.leb_le; lia).
      eexists. eexists. reflexivity. }
  destruct (frame_to_display_content images gifs s Hc) as [fd Hfd].
  destruct (Z_lt_dec 0 (time_left s t0 t1)) as [Hleft|Hleft].
  - destruct (busy_wait_reaches _ rest s Hclock)
      as (pre & t & rest' & -> & Hpre & Ht).
    rewrite (display_wait s t0 t1 t2 pre t rest' fd) by assumption.
    eexists. eexists. reflexivity.
  - rewrite (display_no_wait s t0 t1 _ fd) by (assumption || lia).
    eexists. eexists. reflexivity.
Qed.

(** X22.  A refresh never raises in a run and returns as soon as the clock
    has come far enough: in every reachable state, on a clock with three
    readings followed by one that is not before the end of the line time,
    [display_current_line] returns.  The frame index is in range and the
    catch-up branch never divides by zero. *)
Theorem display_current_line_never_raises (w : world) (s : pov_state)
    (t0 t1 t2 : tick) (rest : list tick) :
  reachable w s ->
  clock_reaches (py_int (perf_micros t2) + time_left s t0 t1) rest ->
  exists s' clock',
    display_current_line (t0 :: t1 :: t2 :: rest) s = Some (s', clock').
Proof.
  intros Hr. apply reachable_content in Hr.
  apply (display_current_line_returns _ _ s t0 t1 t2 rest Hr).
Qed.

Lemma display_current_line_never_raises_witness :
  exists s' clock',
    display_current_line (quiet_clock [0; 100; 100; 2700]) two_turns
    = Some (s', clock').
Proof.
  apply (display_current_line_never_raises broken_world two_turns
           (at_micros 0 false) (at_micros 100 false) (at_micros 100 false)
           (quiet_clock [2700])).
  - exact two_turns_reachable.
  - constructor. vm_compute. discriminate.
Defined.

(** X23.  One turn of the main loop always completes and leaves a state of
    a run: from a reachable state, whatever the pins read,
    [check_buttons], [check_hall_sensor] and [display_current_line] return
    one after the other, provided the clock has three readings followed by
    one that is 7500 microseconds (the longest line time) minus the LED
    update time and the margin after the third. *)
Theorem main_loop_iteration_completes (w : world) (s : pov_state)
    (pin_circle pin_square pin_image : level) (button_time : Q)
    (hall_pin : level) (hall_time : Z) (t0 t1 t2 : tick) (rest : list tick) :
  reachable w s ->
  clock_reaches (py_int (perf_micros t2)
                 + (max_rotation_time / NUM_DIVISIONS
                    - (py_int (perf_micros t1) - py_int (perf_micros t0))
                    - TIMING_MARGIN_US)) rest ->
  exists s' clock',
    main_loop_iteration w pin_circle pin_square pin_image button_time
      hall_pin hall_time (t0 :: t1 :: t2 :: rest) s = Some (s', clock') /\
    reachable w s'.
Proof.
  intros Hr Hclock. unfold main_loop_iteration.
  pose proof (reachable_content w s Hr) as Hc.
  destruct (check_buttons_content w _ _ pin_circle pin_square pin_image
              button_time s Hc) as (s1 & E1 & _).
  assert (reachable w s1) as Hr1 by (eapply reach_buttons; eassumption).
  rewrite E1, bind_Some_l.
  destruct (check_hall_sensor_total hall_pin hall_time s1
              (reachable_within_bounds w s1 Hr1)) as [s2 E2].
  assert (reachable w s2) as Hr2 by (eapply reach_hall; eassumption).
  rewrite E2, bind_Some_l.
  pose proof (reachable_timing w s2 Hr2) as [_ [_ Htpl]].
  destruct (display_current_line_returns _ _ s2 t0 t1 t2 rest
              (reachable_content w s2 Hr2)) as (s3 & clock3 & E3).
  { eapply clock_reaches_earlier; [|exact Hclock].
    unfold time_left. lia. }
  exists s3, clock3. split; [exact E3|].
  eapply reach_display; eassumption.
Qed.

Lemma main_loop_iteration_completes_witness :
  exists s' clock',
    main_loop_iteration broken_world HIGH HIGH LOW 5 HIGH 2240000
      (quiet_clock [0; 100; 100; 2700; 7200]) two_turns = Some (s', clock') /\
    reachable broken_world s'.
Proof.
  apply (main_loop_iteration_completes broken_world two_turns
           HIGH HIGH LOW 5 HIGH 2240000
           (at_micros 0 false) (at_micros 100 false) (at_micros 100 false)
           (quiet_clock [2700; 7200])).
  - exact two_turns_reachable.
  - apply Exists_cons_tl. constructor. vm_compute. discriminate.
Defined.

(** ** The LED strip *)

Lemma setPixelColor_length (i : nat) (c : color) (st : strip) :
  length (strip_buffer (setPixelColor i c st)) = length (strip_buffer st).
Proof. unfold setPixelColor. cbn [strip_buffer]. apply length_insert. Qed.

Lemma setPixelColor_shown (i : nat) (c : color) (st : strip) :
  strip_shown (setPixelColor i c st) = strip_shown st.
Proof. reflexivity. Qed.

(** A loop that writes [f i] to pixel [i] for the [k] first pixels for
    which [f] gives a colour. *)
Lemma pixel_loop (f : nat -> option color) (k : nat) (st : strip) :
  let st' := foldl (fun st i => match f i with
                                | Some c => setPixelColor i c st
                                | None => st
                                end) st (seq 0 k) in
  strip_shown st' = strip_shown st /\
  length (strip_buffer st') = length (strip_buffer st) /\
  forall p, strip_buffer st' !! p
            = if decide (p < k)%nat
              then match f p with
                   | Some c => if decide (p < length (strip_buffer st))%nat
                               then Some c else None
                   | None => strip_buffer st !! p
                   end
              else strip_buffer st !! p.
Proof.
  induction k as [|k IH]; cbv zeta.
  - cbn [seq foldl]. split; [reflexivity|]. split; [reflexivity|].
    intros p. destruct (decide _); [lia | reflexivity].
  - rewrite seq_S, foldl_app. cbn [foldl Nat.add].
    cbv zeta in IH. destruct IH as (Hs & Hl & Hb).
    set (st1 := foldl _ st (seq 0 k)) in *.
    destruct (f k) as [c|] eqn:Ef.
    + split; [rewrite setPixelColor_shown; exact Hs|].
      split; [rewrite setPixelColor_length; exact Hl|].
      intros p. unfold setPixelColor. cbn [strip_buffer]. unfold row in *.
      destruct (decide (p = k)) as [->|Hne].
      * rewrite Ef. destruct (decide (k < S k)%nat); [|lia].
        destruct (decide (k < length (strip_buffer st))%nat) as [Hlt|Hge].
        -- apply list_lookup_insert_eq. lia.
        -- apply list_lookup_insert_None. apply lookup_ge_None_2. lia.
      * rewrite list_lookup_insert_ne by congruence. rewrite Hb.
        destruct (decide (p < k)%nat), (decide (p < S k)%nat);
          try reflexivity; lia.
    + split; [exact Hs|]. split; [exact Hl|].
      intros p. rewrite Hb.
      destruct (decide (p < k)%nat), (decide (p < S k)%nat);
        try reflexivity; try lia.
      assert (p = k) as -> by lia. rewrite Ef. reflexivity.
Qed.

Lemma write_line_buffer (line_data : row) (st : strip) :
  length (strip_buffer st) = Z.to_nat NUM_LEDS ->
  strip_shown (write_line line_data st) = strip_shown st /\
  length (strip_buffer (write_line line_data st)) = Z.to_nat NUM_LEDS /\
  forall p, strip_buffer (write_line line_data st) !! p
            = if decide (p < Nat.min (Z.to_nat NUM_LEDS) (length line_data))%nat
              then line_data !! p
              else strip_buffer st !! p.
Proof.
  intros Hlen. unfold write_line.
  pose proof (pixel_loop (fun i => line_data !! i)
                (Nat.min (Z.to_nat NUM_LEDS) (length line_data)) st)
    as (Hs & Hl & Hb). cbv zeta in *.
  split; [exact Hs|]. split; [rewrite Hl; exact Hlen|].
  intros p. rewrite Hb. destruct (decide _) as [Hp|Hp]; [|reflexivity].
  destruct (line_data !! p) as [c|] eqn:E.
  - destruct (decide _); [reflexivity | lia].
  - apply lookup_ge_None in E. lia.
Qed.

Lemma write_full_line (line_data : row) (st : strip) :
  length (strip_buffer st) = Z.to_nat NUM_LEDS ->
  length line_data = Z.to_nat NUM_LEDS ->
  strip_buffer (write_line line_data st) = line_data.
Proof.
  intros Hlen Hline.
  destruct (write_line_buffer line_data st Hlen) as (_ & Hl & Hb).
  apply row_eq; [exact Hl | exact Hline |].
  intros p Hp. rewrite Hb. destruct (decide _); [reflexivity | lia].
Qed.

(** X24.  The row-writing loop overwrites the first
    [min(NUM_LEDS, len(line_data))] pixels of the buffer and nothing else:
    the pixels beyond a short row keep the colours written before, and
    nothing reaches the LEDs until [show]. *)
Theorem short_row_leaves_stale_pixels (line_data : row) (st : strip) :
  length (strip_buffer st) = Z.to_nat NUM_LEDS ->
  strip_shown (write_line line_data st) = strip_shown st /\
  strip_buffer (write_line line_data st)
  = take (Z.to_nat NUM_LEDS) line_data
    ++ drop (length line_data) (strip_buffer st).
Proof.
  intros Hlen.
  destruct (write_line_buffer line_data st Hlen) as (Hs & Hl & Hb).
  split; [exact Hs|]. apply list_eq. intros p. rewrite Hb.
  destruct (decide _) as [Hp|Hp].
  - rewrite lookup_app_l by (rewrite length_take; lia).
    rewrite lookup_take_lt by lia. reflexivity.
  - destruct (Nat.le_gt_cases (Z.to_nat NUM_LEDS) (length line_data)) as [Hw|Hw].
    + rewrite drop_ge by lia. rewrite app_nil_r.
      transitivity (@None color).
      * apply lookup_ge_None_2. lia.
      * symmetry. apply lookup_ge_None_2. rewrite length_take. lia.
    + rewrite take_ge by lia.
      rewrite lookup_app_r by lia. rewrite lookup_drop. f_equal. lia.
Qed.

Lemma short_row_leaves_stale_pixels_witness :
  strip_shown (write_line short_line white_strip) = strip_shown white_strip /\
  strip_buffer (write_line short_line white_strip)
  = take (Z.to_nat NUM_LEDS) short_line
    ++ drop (length short_line) (strip_buffer white_strip).
Proof.
  apply (short_row_leaves_stale_pixels short_line white_strip).
  reflexivity.
Defined.

Lemma fill_strip (c : color) (st : strip) :
  length (strip_buffer st) = Z.to_nat NUM_LEDS ->
  strip_buffer (foldl (fun st i => setPixelColor i c st) st
                      (seq 0 (Z.to_nat NUM_LEDS)))
  = replicate (Z.to_nat NUM_LEDS) c.
Proof.
  intros Hlen.
  pose proof (pixel_loop (fun _ => Some c) (Z.to_nat NUM_LEDS) st)
    as (_ & Hl & Hb). cbv zeta in *.
  apply row_eq; [rewrite Hl; exact Hlen | apply length_replicate |].
  intros p Hp. rewrite Hb.
  destruct (decide _); [|lia]. destruct (decide _); [|lia].
  symmetry. apply lookup_replicate_2. exact Hp.
Qed.

(** X25.  [clear_strip] turns every LED off, whatever the strip showed and
    whatever was waiting in its buffer. *)
Theorem clear_strip_turns_all_off (st : strip) :
  length (strip_buffer st) = Z.to_nat NUM_LEDS ->
  strip_shown (clear_strip st) = replicate (Z.to_nat NUM_LEDS) (Color 0 0 0) /\
  strip_buffer (clear_strip st) = replicate (Z.to_nat NUM_LEDS) (Color 0 0 0).
Proof.
  intros Hlen. unfold clear_strip, strip_show. cbn [strip_shown strip_buffer].
  change (make_color 0 0 0) with (Color 0 0 0).
  rewrite fill_strip by exact Hlen. split; reflexivity.
Qed.

Lemma clear_strip_turns_all_off_witness :
  strip_shown (clear_strip (write_line short_line white_strip))
  = replicate (Z.to_nat NUM_LEDS) (Color 0 0 0) /\
  strip_buffer (clear_strip (write_line short_line white_strip))
  = replicate (Z.to_nat NUM_LEDS) (Color 0 0 0).
Proof.
  apply (clear_strip_turns_all_off (write_line short_line white_strip)).
  reflexivity.
Defined.

Lemma preview_row (display_data : table) :
  display_data <> [] ->
  0 <= len display_data / 4 < len display_data /\
  exists line_data,
    py_index display_data (len display_data / 4) = Some line_data /\
    display_data !! Z.to_nat (len display_data / 4) = Some line_data.
Proof.
  intros Hne.
  assert (0 < len display_data) as Hpos
    by (unfold len; destruct display_data; [congruence | cbn [length]; lia]).
  assert (0 <= len display_data / 4 < len display_data) as Hr.
  { split; [apply Z.div_pos; lia|]. apply Z.div_lt_upper_bound; lia. }
  split; [exact Hr|].
  destruct (lookup_lt_is_Some_2 display_data (Z.to_nat (len display_data / 4)))
    as [line E]; [unfold len in *; lia|].
  exists line. split; [|exact E]. unfold py_index.
  replace (0 <=? _) with true by (symmetry; apply Z.leb_le; lia). exact E.
Qed.

Lemma show_static_preview_shown (display_data : table) (st : strip) :
  length (strip_buffer st) = Z.to_nat NUM_LEDS ->
  display_data <> [] -> full_width display_data ->
  exists line_data,
    display_data !! Z.to_nat (len display_data / 4) = Some line_data /\
    strip_shown (show_static_preview display_data st) = line_data /\
    strip_buffer (show_static_preview display_data st) = line_data.
Proof.
  intros Hlen Hne Hw.
  destruct (preview_row display_data Hne) as (Hr & line & Hpy & Hl).
  exists line. split; [exact Hl|].
  unfold show_static_preview.
  replace (truthy display_data) with true
    by (symmetry; apply truthy_nonempty; exact Hne).
  replace (len display_data =? 0) with false
    by (symmetry; apply Z.eqb_neq; lia).
  cbn [negb orb]. cbv zeta.
  replace (_ <? _) with true by (symmetry; apply Z.ltb_lt; lia).
  rewrite Hpy. unfold strip_show. cbn [strip_shown strip_buffer].
  assert (length line = Z.to_nat NUM_LEDS) as Hline.
  { unfold full_width in Hw. rewrite Forall_forall in Hw. apply Hw.
    apply list_elem_of_lookup_2 in Hl. exact Hl. }
  rewrite write_full_line by assumption. split; reflexivity.
Qed.

(** X26.  The preview shows the row a quarter of the way through the
    table: for a table that is not empty and whose rows are as wide as the
    strip, [show_static_preview] puts exactly row [len // 4] on the LEDs;
    for the empty table it leaves the strip as it was. *)
Theorem preview_shows_quarter_row (display_data : table) (st : strip) :
  length (strip_buffer st) = Z.to_nat NUM_LEDS ->
  full_width display_data ->
  (display_data = [] -> show_static_preview display_data st = st) /\
  (display_data <> [] ->
   exists line_data,
     display_data !! Z.to_nat (len display_data / 4) = Some line_data /\
     strip_shown (show_static_preview display_data st) = line_data).
Proof.
  intros Hlen Hw. split.
  - intros ->. reflexivity.
  - intros Hne.
    destruct (show_static_preview_shown display_data st Hlen Hne Hw)
      as (line & Hl & Hs & _).
    exists line. split; assumption.
Qed.

Lemma preview_shows_quarter_row_witness :
  (generate_circle_data 28 (0, 255, 255) = [] ->
   show_static_preview (generate_circle_data 28 (0, 255, 255)) white_strip
   = white_strip) /\
  (generate_circle_data 28 (0, 255, 255) <> [] ->
   exists line_data,
     generate_circle_data 28 (0, 255, 255) !! Z.to_nat (40 / 4) = Some line_data /\
     strip_shown (show_static_preview (generate_circle_data 28 (0, 255, 255))
                                      white_strip) = line_data).
Proof.
  apply (preview_shows_quarter_row (generate_circle_data 28 (0, 255, 255))
                                   white_strip).
  - reflexivity.
  - apply circle_well_formed.
Defined.

(** X27.  The white flash of a mode change never stays on the LEDs when
    there is something to show: [flash_mode_change] ends with the preview
    row on the strip when the table is not empty, and with every LED at the
    flash colour when it is. *)
Theorem flash_ends_with_preview (display_data : table) (st : strip) :
  length (strip_buffer st) = Z.to_nat NUM_LEDS ->
  full_width display_data ->
  (display_data = [] ->
   strip_shown (flash_mode_change display_data st)
   = replicate (Z.to_nat NUM_LEDS) (make_color 50 50 50)) /\
  (display_data <> [] ->
   exists line_data,
     display_data !! Z.to_nat (len display_data / 4) = Some line_data /\
     strip_shown (flash_mode_change display_data st) = line_data).
Proof.
  intros Hlen Hw. unfold flash_mode_change. cbv zeta.
  set (flashed := strip_show _).
  assert (strip_buffer flashed = replicate (Z.to_nat NUM_LEDS) (make_color 50 50 50))
    as Hf by (subst flashed; unfold strip_show; cbn [strip_buffer];
              apply fill_strip; exact Hlen).
  assert (length (strip_buffer flashed) = Z.to_nat NUM_LEDS) as Hfl
    by (rewrite Hf; apply length_replicate).
  split.
  - intros ->. cbn [show_static_preview truthy negb orb].
    subst flashed. unfold strip_show in *. cbn [strip_shown strip_buffer] in *.
    exact Hf.
  - intros Hne.
    destruct (show_static_preview_shown display_data flashed Hfl Hne Hw)
      as (line & Hl & Hs & _).
    exists line. split; assumption.
Qed.

Lemma flash_ends_with_preview_witness :
  (generate_circle_data 28 (0, 255, 255) = [] ->
   strip_shown (flash_mode_change (generate_circle_data 28 (0, 255, 255))
                                  white_strip)
   = replicate (Z.to_nat NUM_LEDS) (make_color 50 50 50)) /\
  (generate_circle_data 28 (0, 255, 255) <> [] ->
   exists line_data,
     generate_circle_data 28 (0, 255, 255) !! Z.to_nat (40 / 4) = Some line_data /\
     strip_shown (flash_mode_change (generate_circle_data 28 (0, 255, 255))
                                    white_strip) = line_data).
Proof.
  apply (flash_ends_with_preview (generate_circle_data 28 (0, 255, 255))
                                 white_strip).
  - reflexivity.
  - apply circle_well_formed.
Defined.

(** ** The row a refresh shows *)

Lemma line_to_show_shift (index num_divs : Z) :
  0 < num_divs ->
  line_to_show index num_divs = (index + LINES_TO_SHIFT) mod num_divs /\
  0 <= line_to_show index num_divs < num_divs.
Proof.
  intros Hn. unfold line_to_show. split.
  - rewrite (Z.mul_comm num_divs 2). apply Z_mod_plus_full.
  - apply Z.mod_pos_bound. exact Hn.
Qed.

(** X28.  The row a refresh puts on the LEDs is the row [LINES_TO_SHIFT]
    after the slice index, counted around the frame: for an active display
    and a frame that is not empty and as wide as the strip, the LEDs show
    exactly row [(index + LINES_TO_SHIFT) mod len(frame)], where [index] is
    0 when the rotation event is pending.  That row always exists, whatever
    the index. *)
Theorem refresh_shows_shifted_row (s : pov_state) (st : strip)
    (frame_data : table) :
  rotation_active s = true -> 0 < time_per_line_micros s ->
  frame_to_display s = Some frame_data ->
  frame_data <> [] -> full_width frame_data ->
  length (strip_buffer st) = Z.to_nat NUM_LEDS ->
  let shown := (refresh_index s + LINES_TO_SHIFT) mod len frame_data in
  0 <= shown < len frame_data /\
  exists line_data,
    frame_data !! Z.to_nat shown = Some line_data /\
    strip_shown (display_led_update s st) = line_data.
Proof.
  intros Hact Htpl Hframe Hne Hw Hlen shown.
  assert (0 < len frame_data) as Hpos
    by (unfold len; destruct frame_data; [congruence | cbn [length]; lia]).
  assert (division_count frame_data = len frame_data) as Hdiv
    by (unfold division_count; destruct frame_data; [congruence | reflexivity]).
  destruct (line_to_show_shift (refresh_index s) (len frame_data) Hpos)
    as [Hshift Hrange].
  fold shown in Hshift. rewrite Hshift in Hrange.
  split; [exact Hrange|].
  destruct (lookup_lt_is_Some_2 frame_data (Z.to_nat shown)) as [line Hl];
    [unfold len in *; lia|].
  exists line. split; [exact Hl|].
  unfold display_led_update. rewrite Hact. cbn [negb orb].
  replace (time_per_line_micros s <=? 0) with false
    by (symmetry; apply Z.leb_gt; exact Htpl).
  cbv zeta. rewrite Hframe, Hdiv. fold (refresh_index s). rewrite Hshift.
  replace (truthy frame_data) with true
    by (symmetry; apply truthy_nonempty; exact Hne).
  replace (shown <? len frame_data) with true
    by (symmetry; apply Z.ltb_lt; lia).
  cbn [andb]. unfold py_index.
  replace (0 <=? shown) with true by (symmetry; apply Z.leb_le; lia).
  rewrite Hl. unfold strip_show. cbn [strip_shown].
  apply write_full_line; [exact Hlen|].
  unfold full_width in Hw. rewrite Forall_forall in Hw. apply Hw.
  apply list_elem_of_lookup_2 in Hl. exact Hl.
Qed.

Lemma refresh_shows_shifted_row_witness :
  0 <= (7 + -15) mod 40 < 40 /\
  exists line_data,
    generate_circle_data 28 (0, 255, 255) !! Z.to_nat ((7 + -15) mod 40)
    = Some line_data /\
    strip_shown (display_led_update circle_state white_strip) = line_data.
Proof.
  apply (refresh_shows_shifted_row circle_state white_strip
           (generate_circle_data 28 (0, 255, 255))).
  - reflexivity.
  - vm_compute. reflexivity.
  - reflexivity.
  - discriminate.
  - apply circle_well_formed.
  - reflexivity.
Defined.

(** ** Edges of the mode controller *)

(** X29.  Without GIF folders the image button cannot leave the last
    image: in static-image mode, on the last image of the list and with no
    GIF sequence discovered, a poll in which only the image button may be
    pressed changes neither the mode, nor the image index, nor the table on
    display.  The list does not wrap to its first image. *)
Theorem last_image_without_gifs_stays (w : world) (pin_image : level) (t : Q)
    (s s' : pov_state) :
  current_mode s = static_image ->
  gif_sequences s = [] ->
  len (static_images s) - 1 <= current_static_index s ->
  check_buttons w HIGH HIGH pin_image t s = Some s' ->
  current_mode s' = static_image /\
  current_static_index s' = current_static_index s /\
  display_data s' = display_data s.
Proof.
  intros Hmode Hgifs Hlast.
  unfold check_buttons, check_button_circle, check_button_square,
    check_button_image.
  cbn [negb andb HIGH]. rewrite !bind_Some_l.
  destruct_state s. st_simpl. subst mode_ gifs_. cbn [mode_eqb].
  destruct (negb pin_image && st_image_);
    [|rewrite !bind_Some_l; intros H; apply Some_eq_inv in H as <-;
      repeat split].
  destruct (Qltb _ _);
    [|rewrite !bind_Some_l; intros H; apply Some_eq_inv in H as <-;
      repeat split].
  replace (static_idx_ <? len images_ - 1) with false
    by (symmetry; apply Z.ltb_ge; exact Hlast).
  rewrite andb_false_r. unfold set_mode_gif_sequence. st_simpl.
  cbn [truthy negb]. rewrite !bind_Some_l.
  intros H; apply Some_eq_inv in H as <-. repeat split.
Qed.

Lemma last_image_without_gifs_stays_witness :
  let s' := default last_image_state
              (check_buttons two_image_world HIGH HIGH LOW 5 last_image_state) in
  current_mode s' = static_image /\
  current_static_index s' = current_static_index last_image_state /\
  display_data s' = display_data last_image_state.
Proof.
  apply (last_image_without_gifs_stays two_image_world LOW 5 last_image_state).
  - vm_compute. reflexivity.
  - vm_compute. reflexivity.
  - vm_compute. discriminate.
  - vm_compute. reflexivity.
Defined.

(** ** Discovery and loading *)

Lemma discovered_gif_has_frames (w : world) (name : string) :
  name ∈ gif_sequences (startup w) ->
  exists entries,
    listdir w (os_path_join GIF_COLORS_PATH name) = Some entries /\
    truthy (filter (fun f => Is_true (endswith f ".npy")) entries) = true.
Proof.
  unfold startup, set_mode_circle, discover_gif_sequences,
    discover_static_images, initial_state. st_simpl.
  destruct (listdir w GIF_COLORS_PATH) as [dirs|];
    [|intros H; apply elem_of_nil in H; contradiction].
  intros H. apply list_elem_of_filter in H as [H _]. cbv zeta in H.
  apply Is_true_true, andb_true_iff in H as [_ H].
  destruct (listdir w (os_path_join GIF_COLORS_PATH name)) as [entries|];
    [|discriminate].
  exists entries. split; [reflexivity | exact H].
Qed.

(** X30.  What the discovery lists can be loaded: every image name found at
    start-up ends in [.npy], and every GIF folder found at start-up opens,
    that is, [load_gif_sequence] on it never returns [None]: it stores the
    frames that load (possibly none) in [sequence_colors], resets the frame
    index to 0 and returns them. *)
Theorem discovered_content_loads (w : world) :
  (forall f, f ∈ static_images (startup w) -> endswith f ".npy" = true) /\
  (forall name s,
      name ∈ gif_sequences (startup w) ->
      exists frames,
        load_gif_sequence w name s
        = (s <| sequence_colors := frames |> <| current_frame_index := 0 |>,
           Some frames)).
Proof.
  split.
  - unfold startup, set_mode_circle, discover_gif_sequences,
      discover_static_images, initial_state. st_simpl.
    destruct (listdir w STATIC_IMAGES_PATH) as [files|];
      [|intros f H; apply elem_of_nil in H; contradiction].
    intros f H. apply list_elem_of_filter in H as [H _].
    apply Is_true_true. exact H.
  - intros name s Hin.
    destruct (discovered_gif_has_frames w name Hin) as (entries & Hl & Ht).
    unfold load_gif_sequence. cbv zeta. rewrite Hl, Ht.
    eexists. reflexivity.
Qed.

Lemma discovered_content_loads_witness :
  endswith "logo.npy" ".npy" = true /\
  exists frames,
    load_gif_sequence one_gif_world "cat" (startup one_gif_world)
    = ((startup one_gif_world) <| sequence_colors := frames |>
                               <| current_frame_index := 0 |>,
       Some frames).
Proof.
  split.
  - apply (proj1 (discovered_content_loads broken_world)).
    vm_compute. apply list_elem_of_here.
  - apply (proj2 (discovered_content_loads one_gif_world)).
    vm_compute. apply list_elem_of_here.
Defined.

(** ** The examples on IEEE doubles *)

(** [f64_BRIGHTNESS_RATIO] is the double Python reads from the literal
    [0.3], [0x1.3333333333333p-2]. *)
Example f64_BRIGHTNESS_RATIO_bits :
  FloatOps.Prim2SF f64_BRIGHTNESS_RATIO
  = SpecFloat.S754_finite false 5404319552844595 (-54).
Proof. vm_compute. reflexivity. Qed.

(** On 8-bit channels the brightness scaling of the doubles is the floor of
    the exact product. *)
Example f64_scale_channel_8bit :
  forallb (fun c => (f64_scale_channel c =? scale_channel c)
                    && (scale_channel c =? Qfloor (inject_Z c * BRIGHTNESS_RATIO)))
          (seqZ 0 256) = true.
Proof. vm_compute. reflexivity. Qed.

(** The boundary of the outlier test: mean 1000, sample 600, exactly 40
    percent, not above the threshold. *)
Example f64_boundary_change_percent :
  let S := f64_instant_rpm 100000 in
  let M := f64_mean [f64_instant_rpm 60000; f64_instant_rpm 60000;
                     f64_instant_rpm 60000] in
  f64_change_percent S M = f64_of_int 40 /\
  PrimFloat.ltb (f64_of_int MAX_RPM_CHANGE_PERCENT) (f64_change_percent S M)
  = false.
Proof. vm_compute. split; reflexivity. Qed.

(** The trimmed mean of [100, 100, 100, 100, 200]. *)
Example f64_trimmed_mean_example :
  f64_smooth_rpm (map f64_of_int [100; 100; 100; 100; 200]) (f64_of_int 200)
  = f64_of_int 100.
Proof. vm_compute. reflexivity. Qed.

(** The per-line times at 1500 RPM, at 500 RPM and after a period of 125001
    microseconds. *)
Example f64_line_time_examples :
  f64_line_time (f64_of_int 1500) = 2800 /\
  f64_line_time (f64_of_int 500) = 3000 /\
  f64_line_time (f64_instant_rpm 125001) = 3125.
Proof. vm_compute. repeat split. Qed.
